(** * LinkSnip: click analytics and the per-IP rate limiter

    A shallow embedding of
      - [backend/src/middleware/rateLimiter.js]   (class [RateLimiter])
      - [backend/src/services/AnalyticsService.js] (class [AnalyticsService])
      - [backend/src/routes/analyticsRoutes.js]    (GET /api/analytics/popular)
    together with the properties the specification states about them.

    Conventions.  JavaScript numbers that hold instants ([Date.now()],
    [Date] values) are integers of milliseconds and are modelled in [Z];
    counters are modelled in [Z] (rate limiter, where the source subtracts)
    or [nat] (aggregates, which only ever count up from 0).  Strings are
    [string]; a value that may be [null]/[undefined] is an [option]. *)

From Stdlib Require Import ZArith String Ascii List Lia Bool Sorted.
From stdpp Require Import gmap strings list.

(** ** rateLimiter.js *)

Module RateLimiter.

Local Open Scope Z_scope.

(** The value stored per key in [this.store]: [{ count, resetTime }]. *)
Record Entry := mkEntry { count : Z; resetTime : Z }.

(** The fields of a [RateLimiter] instance ([cleanupInterval] is a timer
    handle and is left out; [_cleanup] below is what the timer calls). *)
Record Limiter := mkLimiter {
  windowMs : Z;
  maxRequests : Z;
  enabled : bool;
  store : gmap string Entry
}.

(** [constructor(options = {})]: [None] is an option left [undefined].
    [options.windowMs || 60000] also replaces a 0 by the default. *)
Record Options := mkOptions {
  opt_windowMs : option Z;
  opt_maxRequests : option Z;
  opt_enabled : option bool
}.

Definition constructor (options : Options) : Limiter :=
  {| windowMs := match opt_windowMs options with
                 | Some w => if w =? 0 then 60000 else w
                 | None => 60000
                 end;
     maxRequests := match opt_maxRequests options with
                    | Some m => m
                    | None => 10
                    end;
     enabled := match opt_enabled options with
                | Some false => false
                | _ => true
                end;
     store := ∅ |}.

Definition set_store (rl : Limiter) (s : gmap string Entry) : Limiter :=
  {| windowMs := windowMs rl; maxRequests := maxRequests rl;
     enabled := enabled rl; store := s |}.

(** The object [checkLimit] returns. *)
Record LimitInfo := mkInfo {
  allowed : bool;
  remaining : Z;
  info_resetTime : Z
}.

(** [checkLimit(ip)]; [now] is the value [Date.now()] returns inside it. *)
Definition checkLimit (now : Z) (ip : string) (rl : Limiter)
  : LimitInfo * Limiter :=
  let fresh :=
    let resetTime := now + windowMs rl in
    ({| allowed := true;
        remaining := maxRequests rl - 1;
        info_resetTime := resetTime |},
     set_store rl (<[ip := mkEntry 1 resetTime]> (store rl))) in
  match store rl !! ip with
  | None => fresh
  | Some record =>
      if resetTime record <=? now then fresh
      else
        let record := mkEntry (count record + 1) (resetTime record) in
        ({| allowed := count record <=? maxRequests rl;
            remaining := Z.max 0 (maxRequests rl - count record);
            info_resetTime := resetTime record |},
         set_store rl (<[ip := record]> (store rl)))
  end.

(** [Math.ceil(x / 1000)] and [Math.floor(x / 1000)] on an integer [x]. *)
Definition ceil_div1000 (x : Z) : Z := - ((- x) / 1000).
Definition floor_div1000 (x : Z) : Z := x / 1000.

(** What the middleware hands to [next]: nothing, or a [RateLimitError]
    carrying [retryAfter]. *)
Inductive Outcome :=
| Next
| NextRateLimitError (retryAfter : Z).

(** The headers the middleware sets on the response. *)
Record Headers := mkHeaders {
  X_RateLimit_Limit : option Z;
  X_RateLimit_Remaining : option Z;
  X_RateLimit_Reset : option Z;
  Retry_After : option Z
}.

Definition no_headers : Headers := mkHeaders None None None None.

Record Response := mkResponse {
  outcome : Outcome;
  headers : Headers;
  limitInfo : option LimitInfo   (* what [checkLimit] returned, if called *)
}.

(** The two readings of the clock one request can make: [t_check] inside
    [checkLimit], and [t_retry], read afterwards when the request is denied
    and [Retry-After] is computed. *)
Record Clock := mkClock { t_check : Z; t_retry : Z }.

(** The three quota headers set on every checked request, and
    [Retry-After] when there is one. *)
Definition quota_headers (rl : Limiter) (info : LimitInfo) (retryAfter : option Z)
  : Headers :=
  {| X_RateLimit_Limit := Some (maxRequests rl);
     X_RateLimit_Remaining := Some (Z.max 0 (remaining info));
     X_RateLimit_Reset := Some (floor_div1000 (info_resetTime info));
     Retry_After := retryAfter |}.

(** The function [middleware()] returns, applied to a request whose key
    ([this._getClientIp(req)]) is [ip]. *)
Definition middleware (clk : Clock) (ip : string) (rl : Limiter)
  : Response * Limiter :=
  if negb (enabled rl) || (maxRequests rl <=? 0) then
    (mkResponse Next no_headers None, rl)
  else
    let '(info, rl') := checkLimit (t_check clk) ip rl in
    if negb (allowed info) then
      let retryAfter := ceil_div1000 (info_resetTime info - t_retry clk) in
      (mkResponse (NextRateLimitError retryAfter)
                  (quota_headers rl info (Some retryAfter)) (Some info), rl')
    else
      (mkResponse Next (quota_headers rl info None) (Some info), rl').

(** The middleware's answer to a request that [checkLimit] answered with
    [info]. *)
Definition respond (rl : Limiter) (clk : Clock) (info : LimitInfo) : Response :=
  if allowed info then mkResponse Next (quota_headers rl info None) (Some info)
  else mkResponse
         (NextRateLimitError (ceil_div1000 (info_resetTime info - t_retry clk)))
         (quota_headers rl info
            (Some (ceil_div1000 (info_resetTime info - t_retry clk))))
         (Some info).

(** A run of direct [checkLimit] calls for one key, at the given instants. *)
Fixpoint checks (ip : string) (times : list Z) (rl : Limiter)
  : list LimitInfo * Limiter :=
  match times with
  | [] => ([], rl)
  | now :: rest =>
      let '(info, rl1) := checkLimit now ip rl in
      let '(infos, rl2) := checks ip rest rl1 in
      (info :: infos, rl2)
  end.

(** [_cleanup()]: drop every entry whose window has expired. *)
Definition _cleanup (now : Z) (rl : Limiter) : Limiter :=
  set_store rl (filter (λ kv, ¬ (resetTime kv.2 ≤ now)) (store rl)).

(** [reset()]. *)
Definition reset (rl : Limiter) : Limiter := set_store rl ∅.

(** A run of requests, oldest first, each with its key and its clock. *)
Fixpoint requests (reqs : list (string * Clock)) (rl : Limiter)
  : list Response * Limiter :=
  match reqs with
  | [] => ([], rl)
  | (ip, clk) :: rest =>
      let '(r, rl1) := middleware clk ip rl in
      let '(rs, rl2) := requests rest rl1 in
      (r :: rs, rl2)
  end.

(** Requests that all come from one key. *)
Definition from_key (ip : string) (clks : list Clock) : list (string * Clock) :=
  map (pair ip) clks.

(** [parseInt(process.env.X, 10)]: [NaN] (also for an unset variable), or
    an integer. *)
Inductive Parsed :=
| NaN
| Int (z : Z).

(** The three environment variables [createRateLimiter] reads, the two
    numeric ones as [parseInt] returns them. *)
Record Env := mkEnv {
  RATE_LIMIT_WINDOW_MS : Parsed;
  RATE_LIMIT_MAX_REQUESTS : Parsed;
  RATE_LIMIT_ENABLED : option string
}.

(** [p || d] on a number: [NaN] and 0 are falsy. *)
Definition or_number (p : Parsed) (d : Z) : Z :=
  match p with
  | NaN => d
  | Int z => if z =? 0 then d else z
  end.

(** [createRateLimiter()].  After [||] neither number is [NaN], so the
    [isNaN(x) || x < 0] tests are [x < 0]. *)
Definition createRateLimiter (env : Env) : Limiter :=
  let windowMs := or_number (RATE_LIMIT_WINDOW_MS env) 60000 in
  let maxRequests := or_number (RATE_LIMIT_MAX_REQUESTS env) 10 in
  let enabled := negb (bool_decide (RATE_LIMIT_ENABLED env = Some "false"%string)) in
  constructor
    {| opt_windowMs := Some (if windowMs <? 0 then 60000 else windowMs);
       opt_maxRequests := Some (if maxRequests <? 0 then 10 else maxRequests);
       opt_enabled := Some enabled |}.

(** What [checkLimit] answers and what it stores for the key, from the
    entry it finds there. *)
Definition answer (rl : Limiter) (now : Z) (found : option Entry)
  : LimitInfo * Entry :=
  let fresh := (mkInfo true (maxRequests rl - 1) (now + windowMs rl),
                mkEntry 1 (now + windowMs rl)) in
  match found with
  | None => fresh
  | Some record =>
      if resetTime record <=? now then fresh
      else (mkInfo (count record + 1 <=? maxRequests rl)
                   (Z.max 0 (maxRequests rl - (count record + 1)))
                   (resetTime record),
            mkEntry (count record + 1) (resetTime record))
  end.

(** Every stored entry has counted at least one request. *)
Definition counts_positive (rl : Limiter) : Prop :=
  ∀ ip e, store rl !! ip = Some e → 1 ≤ count e.

End RateLimiter.

(** ** AnalyticsService.js *)

Module AnalyticsService.

Local Open Scope string_scope.

(** *** JavaScript string operations used by the service *)

(** [hay.includes(needle)]. *)
Fixpoint includes (needle hay : string) : bool :=
  String.prefix needle hay ||
  match hay with
  | EmptyString => false
  | String _ rest => includes needle rest
  end.

(** [s.split(sep)] for a one-character separator: never empty, and
    ["".split(sep)] is [[""]]. *)
Fixpoint split (sep : ascii) (s : string) : list string :=
  match s with
  | EmptyString => [EmptyString]
  | String c rest =>
      if Ascii.eqb c sep then EmptyString :: split sep rest
      else match split sep rest with
           | [] => [String c EmptyString]
           | part :: parts => String c part :: parts
           end
  end.

(** The separator does not occur in [p]. *)
Definition sep_free (sep : ascii) (p : string) : Prop :=
  includes (String sep EmptyString) p = false.

(** [parts.join(sep)]. *)
Definition join (sep : string) (parts : list string) : string :=
  String.concat sep parts.

(** [x || d] on a string that may be missing: the empty string is falsy. *)
Definition or_default (x : option string) (d : string) : string :=
  match x with
  | Some (String c s) => String c s
  | _ => d
  end.

(** *** EventAnonymizer: [_anonymizeIp], [_parseUserAgent], [_extractReferrer] *)

Definition _anonymizeIp (ip : option string) : string :=
  match ip with
  | None | Some EmptyString => "unknown"
  | Some ip =>
      match split "." ip with
      | [p0; p1; p2; _] => p0 ++ "." ++ p1 ++ "." ++ p2 ++ ".xxx"
      | _ =>
          if includes ":" ip then
            let ipv6Parts := split ":" ip in
            if (4 <=? length ipv6Parts)%nat
            then join ":" (take 4 ipv6Parts) ++ ":xxxx:xxxx:xxxx:xxxx"
            else "unknown"
          else "unknown"
      end
  end.

Record UserAgent := mkUserAgent { ua_browser : string; ua_os : string }.

Definition _parseUserAgent (userAgent : string) : UserAgent :=
  match userAgent with
  | EmptyString => mkUserAgent "Unknown" "Unknown"
  | _ =>
      let browser :=
        if includes "Edg/" userAgent then "Edge"
        else if includes "Chrome/" userAgent then "Chrome"
        else if includes "Firefox/" userAgent then "Firefox"
        else if includes "Safari/" userAgent && negb (includes "Chrome" userAgent)
        then "Safari"
        else if includes "Opera/" userAgent || includes "OPR/" userAgent
        then "Opera"
        else "Unknown" in
      let os :=
        if includes "Windows NT" userAgent then "Windows"
        else if includes "Mac OS X" userAgent then "macOS"
        else if includes "Linux" userAgent then "Linux"
        else if includes "Android" userAgent then "Android"
        else if includes "iPhone" userAgent || includes "iPad" userAgent
        then "iOS"
        else "Unknown" in
      mkUserAgent browser os
  end.

(** *** Documents: [models/ClickEvent.js] and [models/Url.js] *)

(** A [ClickEvent] document.  [browser], [os] and [referrer] are
    [required: false] in the schema, hence optional. *)
Record ClickEvent := mkClickEvent {
  ce_shortCode : string;
  timestamp : Z;
  anonymizedIp : string;
  browser : option string;
  os : option string;
  referrer : option string
}.

(** One element of a counted list: [{ source, count }] in [topReferrers],
    [{ date, count }] in [clicksByDay] and [clickHistory],
    [{ name, count }] in [topBrowsers] and [topOS]. *)
Record Counted (K : Type) := mkCounted { key : K; count : nat }.
Arguments mkCounted {K} _ _.
Arguments key {K} _.
Arguments count {K} _.

(** The [analytics] sub-document of a [Url]. *)
Record Analytics := mkAnalytics {
  totalClicks : nat;
  uniqueVisitors : nat;
  lastClickAt : option Z;
  topReferrers : list (Counted string);
  clicksByDay : list (Counted Z)
}.

(** A [Url] document.  [customCode] and [metadata] are left out, and so is
    [updatedAt], the stamp the schema's [pre('save')] hook rewrites on every
    [save()]: nothing below speaks of it, neither that it changes nor that
    it stays. *)
Record Url := mkUrl {
  shortCode : string;
  originalUrl : string;
  createdAt : Z;
  clicks : nat;
  isActive : bool;
  analytics : Analytics
}.

(** A document as [new Url({ shortCode, originalUrl })] creates it. *)
Definition new_Url (code original : string) (created : Z) : Url :=
  mkUrl code original created 0 true (mkAnalytics 0 0 None [] []).

Definition set_analytics (u : Url) (a : Analytics) : Url :=
  mkUrl (shortCode u) (originalUrl u) (createdAt u) (clicks u) (isActive u) a.

(** *** Arrays: stable sort by a descending numeric key, counting *)

(** [Array.prototype.sort((a, b) => f(b) - f(a))] is a stable sort: of two
    elements with equal keys the one that came first stays first.
    [insert_desc] places [x], which precedes all of [l] in the input,
    in front of the first element whose key is not larger. *)
Fixpoint insert_desc {A} (f : A → Z) (x : A) (l : list A) : list A :=
  match l with
  | [] => [x]
  | y :: l' => if (f y <=? f x)%Z then x :: l
               else y :: insert_desc f x l'
  end.

Fixpoint sort_desc {A} (f : A → Z) (l : list A) : list A :=
  match l with
  | [] => []
  | x :: l' => insert_desc f x (sort_desc f l')
  end.

Definition by_count {K} (c : Counted K) : Z := Z.of_nat (count c).
Definition by_date (c : Counted Z) : Z := key c.

(** Increment the count of the first element whose key is [k], or push
    [{ k, 1 }] at the end when there is none: [find] followed by
    [count += 1] or [push] on an array.  It is also
    [o[k] = (o[k] || 0) + 1] on an object [o = {}] used as a table of
    counts, for the keys that are plain ([plain_key] below), which such an
    object enumerates in the order of their first insertion.  For other
    keys an object is no such table: an integer-like key is enumerated
    before the others; for a key that names a member of
    [Object.prototype] (["constructor"], ["toString"], ...) [o[k]] is that
    member, so the count becomes a string; and ["__proto__"] is never
    listed.  What is stated about tables keyed by strings is stated for
    plain keys only. *)
Fixpoint bump {K} (eqb : K → K → bool) (k : K) (l : list (Counted K))
  : list (Counted K) :=
  match l with
  | [] => [mkCounted k 1]
  | c :: l' => if eqb (key c) k then mkCounted (key c) (count c + 1) :: l'
               else c :: bump eqb k l'
  end.

(** The table of counts of a list of keys, in the order of first
    occurrence: a [forEach] that bumps one key per element. *)
Definition tally {K} (eqb : K → K → bool) (ks : list K) : list (Counted K) :=
  fold_left (λ acc k, bump eqb k acc) ks [].

(** The string-keyed properties of [Object.prototype], which an object
    literal inherits. *)
Definition proto_member (k : string) : bool :=
  existsb (String.eqb k)
    ["constructor"; "__proto__"; "hasOwnProperty"; "isPrototypeOf";
     "propertyIsEnumerable"; "toLocaleString"; "toString"; "valueOf";
     "__defineGetter__"; "__defineSetter__"; "__lookupGetter__";
     "__lookupSetter__"].

Definition is_digit (c : ascii) : bool :=
  (48 <=? nat_of_ascii c)%nat && (nat_of_ascii c <=? 57)%nat.

(** Made of decimal digits only; every integer-like key (an array index
    written canonically) is. *)
Definition all_digits (k : string) : bool :=
  forallb is_digit (list_ascii_of_string k).

(** A key on which an object literal behaves as a table of counts: it names
    no member of [Object.prototype] and is not integer-like. *)
Definition plain_key (k : string) : bool :=
  negb (proto_member k) && negb (all_digits k).

(** *** The store and its failures *)

(** A thrown value; only its [name] is ever inspected. *)
Record Error := mkError { name : string }.

Definition is_VersionError (e : Error) : bool := String.eqb (name e) "VersionError".

(** The state the service runs against.
    - [urls], [clickEvents]: the two collections, in insertion order;
      the live event set is [clickEvents].
    - [faults]: what the next store operations will do; each operation
      consumes one entry, [Some e] makes it throw [e] without effect,
      [None] (or an exhausted list) lets it proceed.  This stands for
      every cause the code cannot see: a lost connection, a validation
      failure, a concurrent writer making [save] throw a [VersionError].
    - [console]: the errors written by [console.error], oldest first.
    - [urlSaves]: how many times [urlDoc.save()] has been called. *)
Record World := mkWorld {
  urls : list Url;
  clickEvents : list ClickEvent;
  faults : list (option Error);
  console : list Error;
  urlSaves : nat
}.

Inductive Result (A : Type) :=
| Ok (a : A)
| Throw (e : Error).
Arguments Ok {A} _.
Arguments Throw {A} _.

(** An [async] function: it runs against the world and resolves or rejects. *)
Definition M (A : Type) : Type := World → Result A * World.

Definition ret {A} (a : A) : M A := λ w, (Ok a, w).
Definition throw {A} (e : Error) : M A := λ w, (Throw e, w).
Definition bind {A B} (m : M A) (k : A → M B) : M B :=
  λ w, match m w with
       | (Ok a, w') => k a w'
       | (Throw e, w') => (Throw e, w')
       end.
(** [try { body } catch (error) { handler }]. *)
Definition try_catch {A} (body : M A) (handler : Error → M A) : M A :=
  λ w, match body w with
       | (Ok a, w') => (Ok a, w')
       | (Throw e, w') => handler e w'
       end.

Notation "'let*' x ':=' c 'in' k" := (bind c (λ x, k))
  (at level 10, x name, c at level 100, k at level 200).
Notation "c ';;' k" := (bind c (λ _, k))
  (at level 100, k at level 200, right associativity).

Definition set_faults (w : World) (fs : list (option Error)) : World :=
  mkWorld (urls w) (clickEvents w) fs (console w) (urlSaves w).

(** Every store operation starts here. *)
Definition store_call : M unit :=
  λ w, match faults w with
       | Some e :: fs => (Throw e, set_faults w fs)
       | None :: fs => (Ok tt, set_faults w fs)
       | [] => (Ok tt, w)
       end.

Definition get {A} (f : World → A) : M A := λ w, (Ok (f w), w).
Definition modify (f : World → World) : M unit := λ w, (Ok tt, f w).

(** [console.error(..., error)]. *)
Definition console_error (e : Error) : M unit :=
  modify (λ w, mkWorld (urls w) (clickEvents w) (faults w)
                       (console w ++ [e]) (urlSaves w)).

(** [Url.findOne({ shortCode })]. *)
Definition findOne (code : string) (us : list Url) : option Url :=
  List.find (λ u, String.eqb (shortCode u) code) us.

Definition Url_findOne (code : string) : M (option Url) :=
  store_call;; get (λ w, findOne code (urls w)).

(** [urlDoc.save()] on a document read by [findOne]: the stored document
    with that short code (a unique index) is replaced.  What [save()] does
    before it reaches the store is not computed here.  The schema's
    validators (a [topReferrers] entry with an empty [source] is rejected
    with a [ValidationError]) give part of the scheduled outcome of the
    operation: [Some e] is also a rejected document, and [None] at a
    [save()] says that the document passed and the store took it; which of
    the two the data admits is not decided by this definition.  The
    [pre('save')] hook writes [updatedAt], which [Url] leaves out. *)
Definition replace_url (doc : Url) (us : list Url) : list Url :=
  map (λ u, if String.eqb (shortCode u) (shortCode doc) then doc else u) us.

Definition Url_save (doc : Url) : M unit :=
  modify (λ w, mkWorld (urls w) (clickEvents w) (faults w) (console w)
                       (S (urlSaves w)));;
  store_call;;
  modify (λ w, mkWorld (replace_url doc (urls w)) (clickEvents w) (faults w)
                       (console w) (urlSaves w)).

(** [clickEvent.save()] on a new document. *)
Definition ClickEvent_save (ev : ClickEvent) : M unit :=
  store_call;;
  modify (λ w, mkWorld (urls w) (clickEvents w ++ [ev]) (faults w)
                       (console w) (urlSaves w)).

Definition events_of (code : string) (evs : list ClickEvent) : list ClickEvent :=
  filter (λ ev, ce_shortCode ev = code) evs.

(** [ClickEvent.distinct('anonymizedIp', { shortCode })]. *)
Definition distinct_ips (evs : list ClickEvent) : list string :=
  remove_dups (map anonymizedIp evs).

Definition ClickEvent_distinct_anonymizedIp (code : string) : M (list string) :=
  store_call;; get (λ w, distinct_ips (events_of code (clickEvents w))).

(** *** The service *)

(** [new Date(x)] of a caller-supplied bound: a date, or [Invalid Date]. *)
Inductive DateInput :=
| ValidDate (ms : Z)
| InvalidDate.

(** [options] of [getUrlAnalytics]; [None] is an absent (falsy) bound. *)
Record Options := mkOptions {
  startDate : option DateInput;
  endDate : option DateInput
}.

(** [data] of [recordClick]. *)
Record ClickData := mkClickData {
  ip : option string;
  userAgent : option string;
  data_referrer : option string
}.

(** The object [getUrlAnalytics] resolves to. *)
Record UrlAnalytics := mkUrlAnalytics {
  ua_shortCode : string;
  ua_originalUrl : string;
  ua_totalClicks : nat;
  ua_uniqueVisitors : nat;
  clickHistory : list (Counted Z);
  ua_topReferrers : list (Counted string);
  topBrowsers : list (Counted string);
  topOS : list (Counted string);
  ua_lastClickAt : option Z
}.

(** One element of what [getPopularUrls] resolves to. *)
Record PopularUrl := mkPopularUrl {
  pu_shortCode : string;
  pu_originalUrl : string;
  pu_clicks : nat;
  pu_totalClicks : nat;
  pu_uniqueVisitors : nat;
  pu_createdAt : Z
}.

Definition msPerDay : Z := 86400000.

(** The query [getUrlAnalytics] builds: [{ shortCode, timestamp: { $gte, $lte } }]. *)
Record Query := mkQuery {
  q_shortCode : string;
  q_gte : option DateInput;
  q_lte : option DateInput
}.

Definition in_range (q : Query) (ev : ClickEvent) : bool :=
  String.eqb (ce_shortCode ev) (q_shortCode q)
  && match q_gte q with
     | Some (ValidDate lo) => (lo <=? timestamp ev)%Z
     | _ => true
     end
  && match q_lte q with
     | Some (ValidDate hi) => (timestamp ev <=? hi)%Z
     | _ => true
     end.

Definition invalid_bound (b : option DateInput) : bool :=
  match b with
  | Some InvalidDate => true
  | _ => false
  end.

(** [ClickEvent.find(query).sort({ timestamp: -1 })]; an [Invalid Date]
    bound cannot be cast: the query rejects before the store is reached. *)
Definition ClickEvent_find_sorted (q : Query) : M (list ClickEvent) :=
  if invalid_bound (q_gte q) || invalid_bound (q_lte q)
  then throw (mkError "CastError")
  else store_call;;
       get (λ w, sort_desc timestamp (List.filter (in_range q) (clickEvents w))).

(** [cursor.limit(n)]: 0 means no limit, a negative [n] limits to [-n]. *)
Definition limit {A} (n : Z) (l : list A) : list A :=
  if (n =? 0)%Z then l else take (Z.abs_nat n) l.

(** [Url.find({ isActive: true }).sort({ 'analytics.totalClicks': -1 }).limit(n)]. *)
Definition Url_find_active_sorted (n : Z) : M (list Url) :=
  store_call;;
  get (λ w, limit n (sort_desc (λ u, Z.of_nat (totalClicks (analytics u)))
                               (List.filter isActive (urls w)))).

Section Service.

(** [new URL(s).hostname], or [None] when the constructor throws. *)
Variable url_hostname : string → option string.

(** The instant a [Date] holds after [setHours(0, 0, 0, 0)]: midnight, in
    the server's time zone, of the day the instant falls in. *)
Variable startOfDay : Z → Z.

Definition _extractReferrer (referrer : string) : string :=
  match referrer with
  | EmptyString => "direct"
  | _ => match url_hostname referrer with
         | Some hostname => hostname
         | None => "direct"
         end
  end.

Definition _updateTopReferrers (a : Analytics) (referrer : string) : Analytics :=
  let refs := bump String.eqb referrer (topReferrers a) in
  mkAnalytics (totalClicks a) (uniqueVisitors a) (lastClickAt a)
              (take 10 (sort_desc by_count refs)) (clicksByDay a).

Definition _updateClicksByDay (a : Analytics) (timestamp : Z) : Analytics :=
  let clickDate := startOfDay timestamp in
  let days := bump Z.eqb clickDate (clicksByDay a) in
  mkAnalytics (totalClicks a) (uniqueVisitors a) (lastClickAt a)
              (topReferrers a) (take 30 (sort_desc by_date days)).

(** One read-modify-write of the aggregate: the body of the [try] block of
    [_updateAggregatedStats], repeated verbatim in its [catch] block. *)
Definition update_once (code anonIp referrer : string) (timestamp : Z) : M unit :=
  let* urlDoc := Url_findOne code in
  match urlDoc with
  | None => ret tt
  | Some urlDoc =>
      let a := analytics urlDoc in
      let a := mkAnalytics (totalClicks a + 1) (uniqueVisitors a)
                           (Some timestamp) (topReferrers a) (clicksByDay a) in
      let* uniqueIps := ClickEvent_distinct_anonymizedIp code in
      let a := mkAnalytics (totalClicks a) (length uniqueIps)
                           (lastClickAt a) (topReferrers a) (clicksByDay a) in
      let a := _updateTopReferrers a referrer in
      let a := _updateClicksByDay a timestamp in
      Url_save (set_analytics urlDoc a)
  end.

Definition _updateAggregatedStats (code anonIp referrer : string) (timestamp : Z)
  : M unit :=
  try_catch (update_once code anonIp referrer timestamp)
    (λ error,
       if is_VersionError error
       then update_once code anonIp referrer timestamp
       else throw error).

(** [recordClick(shortCode, data)]; [now] is what [new Date()] holds.
    [data = None] is a [null]/[undefined] argument, on which [data.ip]
    throws a [TypeError]. *)
Definition recordClick (now : Z) (code : string) (data : option ClickData)
  : M unit :=
  try_catch
    (let* urlDoc := Url_findOne code in
     match urlDoc with
     | None => ret tt
     | Some _ =>
         match data with
         | None => throw (mkError "TypeError")
         | Some data =>
             let anonIp := _anonymizeIp (ip data) in
             let ua := _parseUserAgent (or_default (userAgent data) "") in
             let referrer := _extractReferrer (or_default (data_referrer data) "") in
             let clickEvent :=
               mkClickEvent code now anonIp (Some (ua_browser ua))
                            (Some (ua_os ua)) (Some referrer) in
             ClickEvent_save clickEvent;;
             _updateAggregatedStats code anonIp referrer (timestamp clickEvent)
         end
     end)
    (λ error, console_error error).

(** The day key of [clickHistory]: the UTC calendar day
    ([toISOString().split('T')[0]]) of the local midnight, read back by
    [new Date(dateKey)] as that day's UTC midnight. *)
Definition history_date (ev : ClickEvent) : Z :=
  (startOfDay (timestamp ev) / msPerDay * msPerDay)%Z.

(** [Object.entries(counts).map(...).sort((a, b) => b.count - a.count).slice(0, 10)]. *)
Definition top10 (ks : list string) : list (Counted string) :=
  take 10 (sort_desc by_count (tally String.eqb ks)).

(** [getUrlAnalytics(shortCode, options = {})]; [None] is [null]. *)
Definition getUrlAnalytics (code : string) (options : Options)
  : M (option UrlAnalytics) :=
  let* urlDoc := Url_findOne code in
  match urlDoc with
  | None => ret None
  | Some urlDoc =>
      let query := mkQuery code (startDate options) (endDate options) in
      let* clickEvents := ClickEvent_find_sorted query in
      let totalClicks := length clickEvents in
      let uniqueVisitors := length (remove_dups (map anonymizedIp clickEvents)) in
      let topReferrers :=
        top10 (map (λ ev, or_default (referrer ev) "direct") clickEvents) in
      let topBrowsers :=
        top10 (map (λ ev, or_default (browser ev) "Unknown") clickEvents) in
      let topOS :=
        top10 (map (λ ev, or_default (os ev) "Unknown") clickEvents) in
      let clickHistory :=
        take 30 (sort_desc by_date (tally Z.eqb (map history_date clickEvents))) in
      ret (Some {| ua_shortCode := code;
                   ua_originalUrl := originalUrl urlDoc;
                   ua_totalClicks := totalClicks;
                   ua_uniqueVisitors := uniqueVisitors;
                   clickHistory := clickHistory;
                   ua_topReferrers := topReferrers;
                   topBrowsers := topBrowsers;
                   topOS := topOS;
                   ua_lastClickAt := match clickEvents with
                                     | ev :: _ => Some (timestamp ev)
                                     | [] => None
                                     end |})
  end.

(** The document one read-modify-write stores for [urlDoc] when the live
    events are [evs]: what [update_once] hands to [save]. *)
Definition clicked (code : string) (urlDoc : Url) (evs : list ClickEvent)
  (referrer : string) (timestamp : Z) : Url :=
  let a := analytics urlDoc in
  set_analytics urlDoc
    (_updateClicksByDay
       (_updateTopReferrers
          (mkAnalytics (totalClicks a + 1)
                       (length (distinct_ips (events_of code evs)))
                       (Some timestamp) (topReferrers a) (clicksByDay a))
          referrer)
       timestamp).

(** The event [recordClick] saves. *)
Definition event_of (now : Z) (code : string) (data : ClickData) : ClickEvent :=
  let ua := _parseUserAgent (or_default (userAgent data) "") in
  mkClickEvent code now (_anonymizeIp (ip data)) (Some (ua_browser ua))
               (Some (ua_os ua))
               (Some (_extractReferrer (or_default (data_referrer data) ""))).

(** A run of [recordClick] calls for one short code, oldest first. *)
Fixpoint recordClicks (code : string) (calls : list (Z * option ClickData))
  (w : World) : World :=
  match calls with
  | [] => w
  | (now, data) :: rest => recordClicks code rest (recordClick now code data w).2
  end.

End Service.

(** The masked address a call records. *)
Definition call_ip (call : Z * option ClickData) : string :=
  _anonymizeIp (call.2 ≫= ip).

(** No store failure is scheduled. *)
Definition calm (w : World) : Prop := Forall (λ f, f = None) (faults w).

(** The number of distinct values in a list. *)
Definition distinct_count (l : list string) : nat :=
  size (list_to_set l : gset string).

(** [xs] is in non-increasing order of [f]. *)
Definition non_increasing {A} (f : A → Z) (xs : list A) : Prop :=
  StronglySorted (λ a b, (f b ≤ f a)%Z) xs.

(** The instant [t] lies within the bounds that are present. *)
Definition in_window (lo hi : option Z) (t : Z) : Prop :=
  from_option (λ l, (l ≤ t)%Z) True lo ∧ from_option (λ h, (t ≤ h)%Z) True hi.

#[global] Instance in_window_dec lo hi t : Decision (in_window lo hi t).
Proof. unfold in_window. destruct lo, hi; simpl; apply _. Defined.

(** A three-letter short code for the [i]-th link of an example. *)
Definition link_code (i : nat) : string :=
  String "u" (String (ascii_of_nat (97 + i / 10))
                     (String (ascii_of_nat (48 + i mod 10)) EmptyString)).

(** A server whose time zone is UTC. *)
Definition utc_startOfDay (t : Z) : Z := (t - t mod msPerDay)%Z.

(** [new URL(s).hostname] on the strings ["http://host/..."] and
    ["https://host/..."] with a plain lower-case host name; other strings
    are taken as not parsable, which is all the examples below need. *)
Definition plain_hostname (s : string) : option string :=
  let rest scheme :=
    if String.prefix scheme s
    then Some (String.substring (String.length scheme)
                                (String.length s - String.length scheme) s)
    else None in
  match rest "https://", rest "http://" with
  | Some r, _ | None, Some r => head (split "/" r)
  | None, None => None
  end.

(** [getPopularUrls(limit = 10)]; [None] is an [undefined] argument. *)
Definition getPopularUrls (lim : option Z) : M (list PopularUrl) :=
  let* found := Url_find_active_sorted (default 10%Z lim) in
  ret (map (λ url, {| pu_shortCode := shortCode url;
                      pu_originalUrl := originalUrl url;
                      pu_clicks := clicks url;
                      pu_totalClicks := totalClicks (analytics url);
                      pu_uniqueVisitors := uniqueVisitors (analytics url);
                      pu_createdAt := createdAt url |}) found).

(** The handler of [GET /api/analytics/popular] after authentication:
    [req.query.limit], when present and not empty, goes through
    [parseInt(limit, 10)], whose integer value is [n] here. *)
Definition popular_route (query_limit : option Z) : M (list PopularUrl) :=
  let limitNum := match query_limit with
                  | Some n => n
                  | None => 10%Z
                  end in
  getPopularUrls (Some limitNum).

(** [getSystemAnalytics(options = {})] *)

(** The object [getSystemAnalytics] resolves to. *)
Record SystemAnalytics := mkSystemAnalytics {
  sa_totalUrls : nat;
  sa_totalClicks : nat;
  sa_uniqueVisitors : nat;
  sa_popularUrls : list PopularUrl
}.

(** The query [getSystemAnalytics] builds: [{ timestamp: { $gte, $lte } }],
    or [{}] when no bound is given. *)
Definition in_period (gte lte : option DateInput) (ev : ClickEvent) : bool :=
  match gte with
  | Some (ValidDate lo) => (lo <=? timestamp ev)%Z
  | _ => true
  end
  && match lte with
     | Some (ValidDate hi) => (timestamp ev <=? hi)%Z
     | _ => true
     end.

(** [Url.countDocuments()]. *)
Definition Url_countDocuments : M nat :=
  store_call;; get (λ w, length (urls w)).

(** [ClickEvent.countDocuments(query)]. *)
Definition ClickEvent_countDocuments (gte lte : option DateInput) : M nat :=
  if invalid_bound gte || invalid_bound lte
  then throw (mkError "CastError")
  else store_call;;
       get (λ w, length (List.filter (in_period gte lte) (clickEvents w))).

(** [ClickEvent.distinct('anonymizedIp', query)]. *)
Definition ClickEvent_distinct_in (gte lte : option DateInput) : M (list string) :=
  if invalid_bound gte || invalid_bound lte
  then throw (mkError "CastError")
  else store_call;;
       get (λ w, distinct_ips (List.filter (in_period gte lte) (clickEvents w))).

Definition getSystemAnalytics (options : Options) : M SystemAnalytics :=
  let* totalUrls := Url_countDocuments in
  let* totalClicks :=
    ClickEvent_countDocuments (startDate options) (endDate options) in
  let* popularUrls := getPopularUrls (Some 10%Z) in
  let* uniqueIps :=
    ClickEvent_distinct_in (startDate options) (endDate options) in
  ret {| sa_totalUrls := totalUrls;
         sa_totalClicks := totalClicks;
         sa_uniqueVisitors := length uniqueIps;
         sa_popularUrls := popularUrls |}.

(** A store for the examples: one link, four of its events and one of
    another link's. *)
Definition promo_world : World :=
  mkWorld [new_Url "promo" "https://example.com" 0]
    [mkClickEvent "promo" 1000 "10.0.0.xxx" (Some "Chrome") None None;
     mkClickEvent "promo" 5000 "10.0.1.xxx" (Some "Firefox") None None;
     mkClickEvent "other" 6000 "10.0.1.xxx" None None None;
     mkClickEvent "promo" 4999 "10.0.2.xxx" (Some "Chrome") None None;
     mkClickEvent "promo" 7000 "10.0.0.xxx" None None None]
    [] [] 0.

(** The events [getUrlAnalytics] works on: those the query selects, latest
    first (the code's [clickEvents]). *)
Definition selected (code : string) (options : Options) (w : World)
  : list ClickEvent :=
  sort_desc timestamp
    (List.filter (in_range (mkQuery code (startDate options) (endDate options)))
                 (clickEvents w)).

(** The three labels of an event that [getUrlAnalytics] counts in objects
    are plain keys. *)
Definition plain_labels (ev : ClickEvent) : Prop :=
  plain_key (or_default (referrer ev) "direct") = true ∧
  plain_key (or_default (browser ev) "Unknown") = true ∧
  plain_key (or_default (os ev) "Unknown") = true.

(** The worlds agree on what is stored and on the console. *)
Definition same_data (w w' : World) : Prop :=
  urls w' = urls w ∧ clickEvents w' = clickEvents w ∧ console w' = console w.

(** A computation that leaves what is stored, and the console, alone. *)
Definition read_only {A} (m : M A) : Prop := ∀ w, same_data w (m w).2.

(** The sum of the counts of a counted list. *)
Definition total_count {K} (l : list (Counted K)) : nat :=
  sum_list_with count l.

(** The counts of either list of an aggregate add up to no more than its
    [totalClicks]. *)
Definition counts_within_total (a : Analytics) : Prop :=
  (total_count (topReferrers a) ≤ totalClicks a)%nat ∧
  (total_count (clicksByDay a) ≤ totalClicks a)%nat.

(** Five fields of a [Url] document that [recordClick] never writes. *)
Definition identity_of (u : Url) : string * string * Z * nat * bool :=
  (shortCode u, originalUrl u, createdAt u, clicks u, isActive u).

End AnalyticsService.

(** ** UrlService.js and urlRoutes.js: the callers of the analytics *)

Module UrlRoutes.
Import AnalyticsService.

Local Open Scope string_scope.

(** [UrlService.getOriginalUrl(shortCode)]. *)
Definition getOriginalUrl (code : string) : M (option string) :=
  let* urlDocument := Url_findOne code in
  ret (match urlDocument with
       | Some u => if isActive u then Some (originalUrl u) else None
       | None => None
       end).

(** The object [UrlService.getUrlInfo] returns ([updatedAt] and [metadata]
    are not part of the [Url] model here).  It has no [analytics]
    property; [ui_analytics] is what a reader of that property finds. *)
Record UrlInfo := mkUrlInfo {
  ui_shortCode : string;
  ui_originalUrl : string;
  ui_createdAt : Z;
  ui_clicks : nat;
  ui_isActive : bool;
  ui_analytics : option Analytics
}.

(** [UrlService.getUrlInfo(shortCode)]. *)
Definition getUrlInfo (code : string) : M (option UrlInfo) :=
  let* urlDocument := Url_findOne code in
  ret (match urlDocument with
       | None => None
       | Some u =>
           Some {| ui_shortCode := shortCode u;
                   ui_originalUrl := originalUrl u;
                   ui_createdAt := createdAt u;
                   ui_clicks := clicks u;
                   ui_isActive := isActive u;
                   ui_analytics := None |}
       end).

(** [Url.deleteOne({ shortCode })]: the first matching document goes;
    the result is [deletedCount]. *)
Fixpoint delete_first (code : string) (us : list Url) : list Url :=
  match us with
  | [] => []
  | u :: us' => if String.eqb (shortCode u) code then us'
                else u :: delete_first code us'
  end.

Definition Url_deleteOne (code : string) : M nat :=
  store_call;;
  let* found := get (λ w, findOne code (urls w)) in
  modify (λ w, mkWorld (delete_first code (urls w)) (clickEvents w) (faults w)
                       (console w) (urlSaves w));;
  ret (match found with Some _ => 1%nat | None => 0%nat end).

(** [UrlService.deleteUrl(shortCode)]. *)
Definition deleteUrl (code : string) : M bool :=
  let* deletedCount := Url_deleteOne code in
  ret (Nat.ltb 0 deletedCount).

(** [Url.findOneAndUpdate({ shortCode }, { $inc: { clicks: 1 } })]. *)
Fixpoint inc_clicks (code : string) (us : list Url) : list Url :=
  match us with
  | [] => []
  | u :: us' =>
      if String.eqb (shortCode u) code
      then mkUrl (shortCode u) (originalUrl u) (createdAt u) (clicks u + 1)%nat
                 (isActive u) (analytics u) :: us'
      else u :: inc_clicks code us'
  end.

Definition Url_incClicks (code : string) : M unit :=
  store_call;;
  modify (λ w, mkWorld (inc_clicks code (urls w)) (clickEvents w) (faults w)
                       (console w) (urlSaves w)).

(** What a route handler does in the end: it sends a response, or hands
    an error to [next]. *)
Inductive Handled (A : Type) :=
| Sent (a : A)
| NextWith (e : Error).
Arguments Sent {A} _.
Arguments NextWith {A} _.

Definition NotFoundError : Error := mkError "NotFoundError".

(** A [301] redirect, together with the [recordClick] call handed to
    [setImmediate]. *)
Record Redirect := mkRedirect {
  location : string;
  scheduled : ClickData
}.

(** [GET /:shortcode]; [data] is the click data the handler reads off the
    request. *)
Definition redirect_route (code : string) (data : ClickData)
  : M (Handled Redirect) :=
  try_catch
    (let* originalUrl := getOriginalUrl code in
     match originalUrl with
     | Some (String c s) =>
         Url_incClicks code;;
         ret (Sent (mkRedirect (String c s) data))
     | _ => throw NotFoundError
     end)
    (λ error, ret (NextWith error)).

(** The body of [GET /api/urls/:shortcode]: the URL information and the
    analytics summary [urlInfo.analytics || { ...zeros }]. *)
Definition zero_summary : Analytics := mkAnalytics 0 0 None [] [].

Definition url_info_route (code : string) : M (Handled (UrlInfo * Analytics)) :=
  try_catch
    (let* urlInfo := getUrlInfo code in
     match urlInfo with
     | None => throw NotFoundError
     | Some urlInfo =>
         ret (Sent (urlInfo, default zero_summary (ui_analytics urlInfo)))
     end)
    (λ error, ret (NextWith error)).

(** [DELETE /api/urls/:shortcode]. *)
Definition delete_route (code : string) : M (Handled string) :=
  try_catch
    (let* deleted := deleteUrl code in
     if deleted then ret (Sent "URL deleted successfully")
     else throw NotFoundError)
    (λ error, ret (NextWith error)).

Section Routes.

Variable url_hostname : string → option string.
Variable startOfDay : Z → Z.

(** The handler of [GET /api/analytics/urls/:shortcode] after
    authentication. *)
Definition analytics_url_route (code : string) (options : Options)
  : M (Handled UrlAnalytics) :=
  try_catch
    (let* analytics := getUrlAnalytics startOfDay code options in
     match analytics with
     | None => throw NotFoundError
     | Some analytics => ret (Sent analytics)
     end)
    (λ error, ret (NextWith error)).

(** A visit: the redirect handler, then, once the response is on its way,
    the scheduled [recordClick], run at [now]. *)
Definition visit (now : Z) (code : string) (data : ClickData)
  : M (Handled Redirect) :=
  let* handled := redirect_route code data in
  match handled with
  | Sent r => recordClick url_hostname startOfDay now code (Some (scheduled r));;
              ret handled
  | NextWith _ => ret handled
  end.

End Routes.

End UrlRoutes.

(** ** rateLimiter.js and errorHandler.js at the HTTP boundary *)

Module Http.
Import RateLimiter.

Local Open Scope string_scope.

(** What [_getClientIp] reads of a request: the [x-forwarded-for] header,
    [req.ip] and [req.connection.remoteAddress]. *)
Record Request := mkRequest {
  x_forwarded_for : option string;
  req_ip : option string;
  remoteAddress : option string
}.

Section ClientIp.

(** [String.prototype.trim]. *)
Variable trim : string → string.

(** [_getClientIp(req)]. *)
Definition _getClientIp (req : Request) : string :=
  match x_forwarded_for req with
  | Some (String c s) =>
      trim (default "" (head (AnalyticsService.split "," (String c s))))
  | _ =>
      AnalyticsService.or_default (req_ip req)
        (AnalyticsService.or_default (remoteAddress req) "unknown")
  end.

(** The middleware applied to a request. *)
Definition middleware_on (clk : Clock) (req : Request) (rl : Limiter)
  : Response * Limiter :=
  middleware clk (_getClientIp req) rl.

End ClientIp.

(** [err.code]: a string (['CODE_EXISTS']) or a number (11000). *)
Inductive ErrCode :=
| CodeString (s : string)
| CodeNumber (n : Z).

#[global] Instance ErrCode_eq_dec : EqDecision ErrCode.
Proof. solve_decision. Defined.

(** The properties of a thrown value that [errorHandler] reads.  [None]
    is a missing (or [null]) property; [err_details] and [err_errors] hold
    a truthy value, as its JSON text. *)
Record JsError := mkJsError {
  err_name : string;
  err_message : string;
  err_statusCode : option Z;
  err_details : option string;
  err_code : option ErrCode;
  err_retryAfter : option Z;
  err_errors : option string;
  err_keyPattern : option (list string)
}.

(** [new NotFoundError(message)] and [new RateLimitError(message, retryAfter)]. *)
Definition NotFoundError (message : string) : JsError :=
  mkJsError "NotFoundError" message (Some 404%Z) None None None None None.

Definition RateLimitError (message : string) (retryAfter : option Z) : JsError :=
  mkJsError "RateLimitError" message (Some 429%Z) None None retryAfter None None.

(** The [details] of the response body. *)
Inductive Details :=
| DetailsValue (v : string)
| DetailsCode (c : ErrCode)
| DetailsRetryAfter (r : Z)
| DetailsField (field : option string).

Inductive LogLevel := LogError | LogWarn.

(** [res.status(statusCode).json({ success: false, error, details })]
    and the call made on the logger. *)
Record HttpResponse := mkHttpResponse {
  status : Z;
  success : bool;
  error : string;
  details : option Details;
  logged : option LogLevel
}.

(** Truthiness of a number and of a code. *)
Definition truthy_number (x : option Z) : option Z :=
  match x with
  | Some z => if (z =? 0)%Z then None else Some z
  | None => None
  end.

Definition truthy_code (x : option ErrCode) : option ErrCode :=
  match x with
  | Some (CodeString EmptyString) => None
  | Some (CodeNumber n) => if (n =? 0)%Z then None else Some (CodeNumber n)
  | other => other
  end.

(** [errorHandler(err, req, res, next)].  An instance of one of the five
    classes carries the class's [name], so each [instanceof] test is
    covered by the test on [err.name] beside it. *)
Definition errorHandler (err : JsError) : HttpResponse :=
  let '(statusCode, errorMessage, details) :=
    (* the chain of [if]/[else if] that sets the three variables *)
    if String.eqb (err_name err) "ValidationError" then
      (400%Z, err_message err, DetailsValue <$> err_details err)
      : Z * string * option Details
    else if String.eqb (err_name err) "NotFoundError" then
      (404%Z, err_message err, None)
    else if String.eqb (err_name err) "ConflictError" then
      (409%Z, err_message err, DetailsCode <$> truthy_code (err_code err))
    else if String.eqb (err_name err) "RateLimitError" then
      (429%Z, err_message err,
       DetailsRetryAfter <$> truthy_number (err_retryAfter err))
    else if String.eqb (err_name err) "DatabaseError" then
      (503%Z, err_message err, None)
    else if String.eqb (err_name err) "MongooseValidationError" then
      (400%Z, "Validation failed", DetailsValue <$> err_errors err)
    else if bool_decide (err_code err = Some (CodeNumber 11000)) then
      (400%Z, "Duplicate entry detected",
       Some (DetailsField (head (default [] (err_keyPattern err)))))
    else
      (default 500%Z (truthy_number (err_statusCode err)),
       AnalyticsService.or_default (Some (err_message err))
                                   "Internal server error",
       None) in
  let logged :=
    if (500 <=? statusCode)%Z then Some LogError
    else if (400 <=? statusCode)%Z then Some LogWarn
    else None in
  mkHttpResponse statusCode false errorMessage details logged.

(** What the limiter's middleware hands to [next], and the response the
    error handler, mounted last, makes of it. *)
Definition passed_to_next (o : Outcome) : option JsError :=
  match o with
  | Next => None
  | NextRateLimitError retryAfter =>
      Some (RateLimitError "Too many requests, please try again later"
                           (Some retryAfter))
  end.

Definition error_response (o : Outcome) : option HttpResponse :=
  errorHandler <$> passed_to_next o.

End Http.

(** * Properties of the rate limiter *)

Module RateLimiterSpec.
Import RateLimiter.
Local Open Scope Z_scope.

Lemma ceil_div1000_spec x q :
  ceil_div1000 x = q ↔ 1000 * (q - 1) < x ≤ 1000 * q.
Proof.
  unfold ceil_div1000. split.
  - intros <-. pose proof (Z.div_mod (- x) 1000 ltac:(lia)).
    pose proof (Z.mod_pos_bound (- x) 1000 ltac:(lia)). lia.
  - intros H. enough (- x / 1000 = - q) by lia.
    symmetry. apply (Z.div_unique_pos _ _ _ (1000 * q - x)); lia.
Qed.

Lemma ceil_div1000_pos x : 0 < x → 0 < ceil_div1000 x.
Proof.
  intros Hx. pose proof (proj1 (ceil_div1000_spec x _) eq_refl). lia.
Qed.

Lemma ceil_div1000_mono x y : x ≤ y → ceil_div1000 x ≤ ceil_div1000 y.
Proof.
  intros Hxy.
  pose proof (proj1 (ceil_div1000_spec x _) eq_refl).
  pose proof (proj1 (ceil_div1000_spec y _) eq_refl). lia.
Qed.

Lemma ceil_div1000_exact x : x mod 1000 = 0 → ceil_div1000 x * 1000 = x.
Proof.
  intros Hx. pose proof (Z.div_mod x 1000 ltac:(lia)).
  assert (ceil_div1000 x = x / 1000) as ->; [|lia].
  apply ceil_div1000_spec. lia.
Qed.

(** The first request of a key opens a window. *)
Lemma checkLimit_fresh now ip rl :
  store rl !! ip = None →
  checkLimit now ip rl =
    (mkInfo true (maxRequests rl - 1) (now + windowMs rl),
     set_store rl (<[ip := mkEntry 1 (now + windowMs rl)]> (store rl))).
Proof. intros H. unfold checkLimit. by rewrite H. Qed.

(** A request inside the window counts against it. *)
Lemma checkLimit_within now ip rl c r :
  store rl !! ip = Some (mkEntry c r) → now < r →
  checkLimit now ip rl =
    (mkInfo (c + 1 <=? maxRequests rl) (Z.max 0 (maxRequests rl - (c + 1))) r,
     set_store rl (<[ip := mkEntry (c + 1) r]> (store rl))).
Proof.
  intros H Hlt. unfold checkLimit. rewrite H. simpl.
  destruct (Z.leb_spec r now); [lia | done].
Qed.

(** Entries of other keys are not touched. *)
Lemma checkLimit_other now ip ip' rl :
  ip ≠ ip' → store (checkLimit now ip rl).2 !! ip' = store rl !! ip'.
Proof.
  intros Hne. unfold checkLimit.
  destruct (store rl !! ip) as [e|]; [destruct (resetTime e <=? now)|];
    simpl; by rewrite lookup_insert_ne.
Qed.

Lemma checkLimit_config now ip rl :
  enabled (checkLimit now ip rl).2 = enabled rl ∧
  maxRequests (checkLimit now ip rl).2 = maxRequests rl ∧
  windowMs (checkLimit now ip rl).2 = windowMs rl.
Proof.
  unfold checkLimit.
  by destruct (store rl !! ip) as [e|]; [destruct (resetTime e <=? now)|].
Qed.

Lemma middleware_checked clk ip rl :
  enabled rl = true → 0 < maxRequests rl →
  middleware clk ip rl =
    (respond rl clk (checkLimit (t_check clk) ip rl).1,
     (checkLimit (t_check clk) ip rl).2).
Proof.
  intros He Hm. unfold middleware, respond. rewrite He. simpl.
  destruct (Z.leb_spec (maxRequests rl) 0); [lia|].
  destruct (checkLimit (t_check clk) ip rl) as [info rl']. simpl.
  by destruct (allowed info).
Qed.

Lemma middleware_gate_closed clk ip rl :
  enabled rl = false ∨ maxRequests rl ≤ 0 →
  middleware clk ip rl = (mkResponse Next no_headers None, rl).
Proof.
  intros H. unfold middleware.
  destruct (enabled rl); simpl; [|done].
  destruct H as [|H]; [done|].
  by destruct (Z.leb_spec (maxRequests rl) 0); [|lia].
Qed.

Lemma requests_cons ip clk reqs rl :
  requests ((ip, clk) :: reqs) rl =
    ((middleware clk ip rl).1 :: (requests reqs (middleware clk ip rl).2).1,
     (requests reqs (middleware clk ip rl).2).2).
Proof.
  simpl. destruct (middleware clk ip rl) as [r rl1]. simpl.
  by destruct (requests reqs rl1).
Qed.

Lemma checks_cons ip now times rl :
  checks ip (now :: times) rl =
    ((checkLimit now ip rl).1 :: (checks ip times (checkLimit now ip rl).2).1,
     (checks ip times (checkLimit now ip rl).2).2).
Proof.
  simpl. destruct (checkLimit now ip rl) as [info rl1]. simpl.
  by destruct (checks ip times rl1).
Qed.

Lemma checks_app ip times1 times2 rl :
  checks ip (times1 ++ times2) rl =
    ((checks ip times1 rl).1 ++ (checks ip times2 (checks ip times1 rl).2).1,
     (checks ip times2 (checks ip times1 rl).2).2).
Proof.
  revert rl. induction times1 as [|now times1 IH]; intros rl.
  - simpl. by destruct (checks ip times2 rl).
  - rewrite <- app_comm_cons, !checks_cons, IH. done.
Qed.

Lemma checks_length ip times rl :
  length (checks ip times rl).1 = length times.
Proof.
  revert rl. induction times as [|now times IH]; intros rl; [done|].
  rewrite checks_cons. simpl. by rewrite IH.
Qed.

(** An enabled limiter answers each request with what [checkLimit] says. *)
Lemma requests_from_key ip clks : ∀ rl,
  enabled rl = true → 0 < maxRequests rl →
  requests (from_key ip clks) rl =
    (zip_with (respond rl) clks (checks ip (t_check <$> clks) rl).1,
     (checks ip (t_check <$> clks) rl).2).
Proof.
  induction clks as [|clk clks IH]; intros rl He Hm; [done|].
  unfold from_key. simpl map. fold (from_key ip clks).
  rewrite fmap_cons, requests_cons, checks_cons, middleware_checked by done.
  destruct (checkLimit_config (t_check clk) ip rl) as (He1 & Hm1 & _).
  cbn [fst snd]. rewrite IH by (by rewrite ?He1, ?Hm1).
  cbn [fst snd zip_with]. do 2 f_equal.
  unfold respond, quota_headers. by rewrite Hm1.
Qed.

Lemma limitInfo_respond rl clks : ∀ infos,
  length clks = length infos →
  limitInfo <$> zip_with (respond rl) clks infos = Some <$> infos.
Proof.
  induction clks as [|clk clks IH]; intros [|info infos] Hlen; try done.
  simpl. rewrite IH by (simpl in Hlen; lia). f_equal.
  unfold respond. by destruct (allowed info).
Qed.

(** Inside an open window whose entry holds [c], the [i]-th further call
    (from 0) is answered from the count [c + 1 + i], and allowed as long as
    that count is within the maximum. *)
Lemma checks_within ip times : ∀ rl c r,
  store rl !! ip = Some (mkEntry c r) →
  (∀ t, t ∈ times → t < r) →
  c + Z.of_nat (length times) ≤ maxRequests rl →
  store (checks ip times rl).2 !! ip
    = Some (mkEntry (c + Z.of_nat (length times)) r) ∧
  maxRequests (checks ip times rl).2 = maxRequests rl ∧
  ∀ i, (i < length times)%nat →
    (checks ip times rl).1 !! i
      = Some (mkInfo true (maxRequests rl - (c + 1 + Z.of_nat i)) r).
Proof.
  induction times as [|now times IH]; intros rl c r Hs Ht Hc.
  - simpl. rewrite Z.add_0_r. repeat split; try done. intros i Hi. simpl in Hi. lia.
  - simpl in Hc. rewrite checks_cons.
    rewrite (checkLimit_within _ _ _ c r Hs) by (apply Ht; left).
    cbn [fst snd].
    destruct (Z.leb_spec (c + 1) (maxRequests rl)) as [Hle|]; [|lia].
    set (rl1 := set_store rl _).
    destruct (IH rl1 (c + 1) r) as (Hs' & Hm' & Hinfos);
      [by subst rl1; simpl; rewrite lookup_insert_eq
      | by intros ? ?; apply Ht; right | simpl; lia |].
    change (maxRequests rl1) with (maxRequests rl) in Hm', Hinfos.
    rewrite Hs', Hm'.
    split; [f_equal; f_equal; simpl; lia|]. split; [done|].
    intros [|i] Hi.
    + simpl. do 2 f_equal. lia.
    + simpl. rewrite Hinfos by (simpl in Hi; lia). do 2 f_equal. lia.
Qed.

(** C1 (as amended).  Fixed window.  With [maxRequests = N >= 1] and a
    positive window, the first [N] calls of [checkLimit] for a fresh key,
    all made before the window opened by the first one ends, return
    [allowed = true], the [i]-th (from 0) with [remaining = N - 1 - i], so
    from [N - 1] down to 0, and the next call in that window returns
    [allowed = false] with [remaining = 0].  When these are the requests an
    enabled limiter's middleware sees, the first [N] are passed on and the
    next one is refused.  Its [Retry-After] comes from a second reading of
    the clock, taken by the middleware after the check: it is the distance
    from that reading to the end of the window in seconds, rounded up, and
    it is positive exactly when the reading is still before the end of the
    window.  For a reading not before the opening of the window it is at
    most the window length in seconds rounded up to a whole second, hence
    at most the window length itself when that is a whole number of
    seconds. *)
Theorem fixed_window ip rl t0 ts tN :
  1 ≤ maxRequests rl → 0 < windowMs rl →
  store rl !! ip = None →
  Z.of_nat (length (t0 :: ts)) = maxRequests rl →
  (∀ t, t ∈ ts ++ [tN] → t < t0 + windowMs rl) →
  (∀ i, (i < length (t0 :: ts))%nat →
     (checks ip (t0 :: ts ++ [tN]) rl).1 !! i
       = Some (mkInfo true (maxRequests rl - 1 - Z.of_nat i)
                      (t0 + windowMs rl))) ∧
  (checks ip (t0 :: ts ++ [tN]) rl).1 !! length (t0 :: ts)
    = Some (mkInfo false 0 (t0 + windowMs rl)) ∧
  (enabled rl = true →
   ∀ clks clkN,
     t_check <$> clks = t0 :: ts → t_check clkN = tN →
     limitInfo <$> (requests (from_key ip (clks ++ [clkN])) rl).1
       = Some <$> (checks ip (t0 :: ts ++ [tN]) rl).1 ∧
     (∀ i resp, (i < length clks)%nat →
        (requests (from_key ip (clks ++ [clkN])) rl).1 !! i = Some resp →
        outcome resp = Next) ∧
     ∃ resp retryAfter,
       (requests (from_key ip (clks ++ [clkN])) rl).1 !! length clks
         = Some resp ∧
       outcome resp = NextRateLimitError retryAfter ∧
       Retry_After (headers resp) = Some retryAfter ∧
       retryAfter = ceil_div1000 (t0 + windowMs rl - t_retry clkN) ∧
       (0 < retryAfter ↔ t_retry clkN < t0 + windowMs rl) ∧
       (t0 ≤ t_retry clkN →
        retryAfter ≤ ceil_div1000 (windowMs rl) ∧
        (windowMs rl mod 1000 = 0 → retryAfter * 1000 ≤ windowMs rl))).
Proof.
  intros Hm Hw Hfresh Hlen Hin.
  set (reset := t0 + windowMs rl) in *.
  assert (1 + Z.of_nat (length ts) = maxRequests rl) as Hcnt
    by (simpl in Hlen; lia).
  assert ((∀ i, (i < length (t0 :: ts))%nat →
             (checks ip (t0 :: ts ++ [tN]) rl).1 !! i
               = Some (mkInfo true (maxRequests rl - 1 - Z.of_nat i) reset)) ∧
          (checks ip (t0 :: ts ++ [tN]) rl).1 !! length (t0 :: ts)
            = Some (mkInfo false 0 reset)) as [Hfirst Hlast].
  { rewrite checks_cons, (checkLimit_fresh _ _ _ Hfresh). cbn [fst snd].
    fold reset. set (rl1 := set_store rl _).
    rewrite checks_app.
    pose proof (checks_length ip ts rl1) as Hlen1.
    destruct (checks_within ip ts rl1 1 reset) as (Hs & Hm' & Hinfos);
      [by subst rl1; simpl; rewrite lookup_insert_eq
      | by intros ? ?; apply Hin, elem_of_app; left | simpl; lia |].
    change (maxRequests rl1) with (maxRequests rl) in Hm', Hinfos.
    set (run := checks ip ts rl1) in *.
    rewrite checks_cons.
    rewrite (checkLimit_within _ _ _ _ reset Hs)
      by (apply Hin, elem_of_app; right; by left).
    rewrite Hm'. cbn [fst snd checks].
    destruct (Z.leb_spec (1 + Z.of_nat (length ts) + 1) (maxRequests rl)); [lia|].
    split.
    - intros [|i] Hi; simpl.
      + do 2 f_equal. lia.
      + rewrite lookup_app_l by (simpl in Hi; lia).
        rewrite Hinfos by (simpl in Hi; lia). do 2 f_equal. lia.
    - simpl. rewrite lookup_app_r by lia. rewrite Hlen1, Nat.sub_diag. simpl.
      do 2 f_equal. lia. }
  split; [done|]. split; [done|].
  intros He clks clkN Hclks HclkN.
  assert (length clks = length (t0 :: ts)) as Hlclks
    by (by rewrite <- Hclks, length_fmap).
  assert (t_check <$> clks ++ [clkN] = (t0 :: ts) ++ [tN]) as Htimes
    by (by rewrite fmap_app, Hclks, <- HclkN).
  rewrite requests_from_key, Htimes by (done || lia). cbn [fst].
  change (t0 :: ts ++ [tN]) with ((t0 :: ts) ++ [tN]).
  set (infos := (checks ip ((t0 :: ts) ++ [tN]) rl).1) in *.
  assert (length infos = S (length clks)) as Hlinfos.
  { subst infos. rewrite checks_length, length_app, Hlclks. simpl. lia. }
  split; [|split].
  - apply limitInfo_respond. rewrite length_app, Hlinfos. simpl. lia.
  - intros i resp Hi (clk & info & -> & _ & Hinfo)%lookup_zip_with_Some.
    rewrite Hfirst in Hinfo by lia. by injection Hinfo as <-.
  - eexists _, _. split.
    { apply lookup_zip_with_Some. eexists clkN, _. split; [done|].
      split; [by rewrite lookup_app_r, Nat.sub_diag by lia|].
      rewrite Hlclks. exact Hlast. }
    cbn. split; [done|]. split; [done|]. split; [done|].
    pose proof (proj1 (ceil_div1000_spec (reset - t_retry clkN) _) eq_refl).
    split; [lia|]. intros Hretry.
    pose proof (ceil_div1000_mono (reset - t_retry clkN) (windowMs rl) ltac:(lia)).
    split; [lia|]. intros Hmod.
    pose proof (ceil_div1000_exact _ Hmod). lia.
Qed.

(** A limiter with [maxRequests = 3] and a one-minute window: three
    requests allowed, the fourth denied and told to retry within the
    minute. *)
Lemma fixed_window_witness :
  (checks "203.0.113.7" [1000; 2000; 3000; 4000]
          (constructor (mkOptions (Some 60000) (Some 3) None))).1 !! 3%nat
    = Some (mkInfo false 0 (1000 + 60000)) ∧
  ∃ resp retryAfter,
    (requests (from_key "203.0.113.7"
                 ([mkClock 1000 1000; mkClock 2000 2000; mkClock 3000 3000]
                    ++ [mkClock 4000 4500]))
              (constructor (mkOptions (Some 60000) (Some 3) None))).1 !! 3%nat
      = Some resp ∧
    outcome resp = NextRateLimitError retryAfter ∧
    Retry_After (headers resp) = Some retryAfter ∧
    retryAfter = ceil_div1000 (1000 + 60000 - 4500) ∧
    (0 < retryAfter ↔ 4500 < 1000 + 60000) ∧
    retryAfter ≤ ceil_div1000 60000 ∧
    (60000 mod 1000 = 0 → retryAfter * 1000 ≤ 60000).
Proof.
  destruct (fixed_window "203.0.113.7"
              (constructor (mkOptions (Some 60000) (Some 3) None))
              1000 [2000; 3000] 4000) as (_ & Hdenied & Hmw).
  - simpl. lia.
  - simpl. lia.
  - reflexivity.
  - reflexivity.
  - intros t Ht. simpl in Ht.
    repeat (apply elem_of_cons in Ht as [->|Ht]; [simpl; lia|]).
    by apply elem_of_nil in Ht.
  - split; [exact Hdenied|].
    destruct (Hmw eq_refl
                [mkClock 1000 1000; mkClock 2000 2000; mkClock 3000 3000]
                (mkClock 4000 4500) eq_refl eq_refl)
      as (_ & _ & resp & retryAfter & Hresp & Hout & Hhdr & Heq & Hpos & Hle).
    exists resp, retryAfter.
    split; [exact Hresp|]. split; [exact Hout|]. split; [exact Hhdr|].
    split; [exact Heq|]. split; [exact Hpos|].
    apply Hle. simpl. lia.
Defined.

(** C1, the claim as written fails: with a window of 1500 ms and
    [maxRequests = 1], the second request of a key is denied with
    [Retry-After: 2], which exceeds the window length of 1.5 seconds. *)
Lemma fixed_window_retry_after_exceeds_window :
  ∃ resp,
    (requests (from_key "203.0.113.7" [mkClock 0 0; mkClock 0 0])
              (constructor (mkOptions (Some 1500) (Some 1) (Some true)))).1
      !! 1%nat = Some resp ∧
    outcome resp = NextRateLimitError 2 ∧
    ¬ (2 * 1000 ≤
       windowMs (constructor (mkOptions (Some 1500) (Some 1) (Some true)))).
Proof.
  eexists. split; [vm_compute; reflexivity|]. split; [reflexivity|].
  simpl. lia.
Qed.

(** The second reading of the clock can fall on the end of the window: with
    a window of 1000 ms and [maxRequests = 1], a second request checked at
    999 ms, whose [Retry-After] is computed at 1000 ms, is refused with
    [Retry-After: 0]. *)
Lemma fixed_window_retry_after_zero :
  ∃ resp,
    (requests (from_key "203.0.113.7" [mkClock 0 0; mkClock 999 1000])
              (constructor (mkOptions (Some 1000) (Some 1) (Some true)))).1
      !! 1%nat = Some resp ∧
    outcome resp = NextRateLimitError 0 ∧
    Retry_After (headers resp) = Some 0.
Proof.
  eexists. split; [vm_compute; reflexivity|]. split; reflexivity.
Qed.

(** The gate is the middleware's: [checkLimit] called directly on a limiter
    with [maxRequests = 0] refuses the second call of a key. *)
Lemma checkLimit_ignores_gate :
  allowed <$>
    (checks "192.168.1.1" [5; 5]
            (constructor (mkOptions (Some 60000) (Some 0) (Some true)))).1
  = [true; false].
Proof. vm_compute. reflexivity. Qed.

(** C8.  Disabled-limiter passthrough: when the limiter is disabled, or
    its [maxRequests] is 0 (or less), every request of every key, however
    many are made, is passed on without a denial, and the limiter is left
    as it was. *)
Theorem disabled_passthrough rl reqs :
  enabled rl = false ∨ maxRequests rl ≤ 0 →
  requests reqs rl =
    (replicate (length reqs) (mkResponse Next no_headers None), rl).
Proof.
  intros H. induction reqs as [|[ip clk] reqs IH]; [done|].
  rewrite requests_cons, (middleware_gate_closed _ _ _ H). simpl.
  by rewrite IH.
Qed.

(** Twenty requests against a limiter with [maxRequests = 0]. *)
Lemma disabled_passthrough_witness :
  requests (from_key "192.168.1.1" (replicate 20 (mkClock 5 5)))
           (constructor (mkOptions (Some 60000) (Some 0) (Some true))) =
    (replicate 20 (mkResponse Next no_headers None),
     constructor (mkOptions (Some 60000) (Some 0) (Some true))).
Proof.
  apply (disabled_passthrough
           (constructor (mkOptions (Some 60000) (Some 0) (Some true)))
           (from_key "192.168.1.1" (replicate 20 (mkClock 5 5)))).
  right. simpl. lia.
Defined.

End RateLimiterSpec.

(** * Properties of the event anonymizer *)

Module AnonymizerSpec.
Import AnalyticsService.
Local Open Scope string_scope.

Lemma includes_sep_cons sep c s :
  includes (String sep EmptyString) (String c s) =
    Ascii.eqb sep c || includes (String sep EmptyString) s.
Proof.
  simpl. destruct (ascii_dec sep c) as [->|Hne].
  - rewrite Ascii.eqb_refl. by destruct s.
  - apply Ascii.eqb_neq in Hne. by rewrite Hne.
Qed.

Lemma split_nonempty sep s : split sep s ≠ [].
Proof.
  destruct s as [|c s]; simpl; [done|].
  destruct (Ascii.eqb c sep); [done|]. by destruct (split sep s).
Qed.

(** No part of a split contains the separator. *)
Lemma split_parts_sep_free sep s :
  Forall (λ p, sep_free sep p) (split sep s).
Proof.
  induction s as [|c s IH]; simpl.
  - by constructor.
  - destruct (Ascii.eqb_spec c sep) as [->|Hne].
    + by constructor.
    + destruct (split sep s) as [|p ps] eqn:E; [by apply split_nonempty in E|].
      inversion IH; subst. constructor; [|done].
      unfold sep_free in *. rewrite includes_sep_cons.
      destruct (Ascii.eqb_spec sep c); [congruence | done].
Qed.

(** Joining the parts of a split gives the string back. *)
Lemma join_split sep s : join (String sep EmptyString) (split sep s) = s.
Proof.
  induction s as [|c s IH]; simpl; [done|].
  destruct (Ascii.eqb_spec c sep) as [->|Hne].
  - pose proof (split_nonempty sep s).
    unfold join in *. simpl. destruct (split sep s); [done|].
    by rewrite IH.
  - pose proof (split_nonempty sep s).
    unfold join in *. destruct (split sep s) as [|p ps]; [done|].
    simpl in *. destruct ps; simpl in *; by rewrite <- IH.
Qed.

Lemma split_sep_free sep p : sep_free sep p → split sep p = [p].
Proof.
  unfold sep_free. induction p as [|c p IH]; [done|].
  rewrite includes_sep_cons. intros [Hc Hp]%orb_false_elim.
  simpl. rewrite Ascii.eqb_sym, Hc. by rewrite (IH Hp).
Qed.

Lemma split_app_sep sep p s :
  sep_free sep p →
  split sep (p ++ String sep s) = p :: split sep s.
Proof.
  unfold sep_free. induction p as [|c p IH]; intros Hp; simpl.
  - by rewrite Ascii.eqb_refl.
  - rewrite includes_sep_cons in Hp. apply orb_false_elim in Hp as [Hc Hp].
    rewrite Ascii.eqb_sym, Hc. by rewrite (IH Hp).
Qed.

(** Splitting a join of separator-free parts gives the parts back. *)
Lemma split_join sep ps :
  ps ≠ [] → Forall (λ p, sep_free sep p) ps →
  split sep (join (String sep EmptyString) ps) = ps.
Proof.
  induction ps as [|p ps IH]; [done|]. intros _ Hall.
  inversion Hall as [|? ? Hp Hps]; subst. unfold join in *. simpl.
  destruct ps as [|q ps]; [by apply split_sep_free|].
  change (String sep "" +:+ ?x) with (String sep x).
  rewrite split_app_sep by done. f_equal. by apply IH.
Qed.

(** C3.  IPv4 masking: a string that splits on ["."] into exactly four
    parts is those parts joined by dots, and [_anonymizeIp] returns the
    first three parts verbatim followed by the sentinel ["xxx"], a string
    that itself splits into those three parts and the sentinel; an input
    that neither has four dotted parts nor contains a colon with at least
    four colon-separated groups, and a missing input, give ["unknown"]. *)
Theorem anonymizeIp_ipv4 :
  (∀ ip p0 p1 p2 p3,
     split "." ip = [p0; p1; p2; p3] →
     ip = p0 ++ "." ++ p1 ++ "." ++ p2 ++ "." ++ p3 ∧
     _anonymizeIp (Some ip) = p0 ++ "." ++ p1 ++ "." ++ p2 ++ ".xxx" ∧
     split "." (_anonymizeIp (Some ip)) = [p0; p1; p2; "xxx"]) ∧
  (∀ ip,
     length (split "." ip) ≠ 4%nat →
     ¬ (includes ":" ip = true ∧ (4 ≤ length (split ":" ip))%nat) →
     _anonymizeIp (Some ip) = "unknown") ∧
  _anonymizeIp None = "unknown".
Proof.
  split; [|split; [|done]].
  - intros ip p0 p1 p2 p3 Hsplit.
    assert (_anonymizeIp (Some ip) = p0 ++ "." ++ p1 ++ "." ++ p2 ++ ".xxx") as Hres.
    { destruct ip as [|c ip]; [discriminate|].
      unfold _anonymizeIp. by rewrite Hsplit. }
    split; [|split; [done|]].
    + rewrite <- (join_split "." ip) at 1. by rewrite Hsplit.
    + rewrite Hres.
      pose proof (split_parts_sep_free "." ip) as Hfree. rewrite Hsplit in Hfree.
      inversion Hfree as [|? ? H0 Hfree1]; subst.
      inversion Hfree1 as [|? ? H1 Hfree2]; subst.
      inversion Hfree2 as [|? ? H2 _]; subst.
      apply (split_join "." [p0; p1; p2; "xxx"]); [done|].
      repeat constructor; done.
  - intros ip Hlen Hv6.
    destruct ip as [|c ip]; [done|].
    unfold _anonymizeIp.
    assert ((if includes ":" (String c ip)
             then if (4 <=? length (split ":" (String c ip)))%nat
                  then join ":" (take 4 (split ":" (String c ip)))
                         ++ ":xxxx:xxxx:xxxx:xxxx"
                  else "unknown"
             else "unknown") = "unknown") as Hfall.
    { destruct (includes ":" (String c ip)) eqn:Hinc; [|done].
      destruct (Nat.leb_spec 4 (length (split ":" (String c ip)))); [|done].
      exfalso. by apply Hv6. }
    destruct (split "." (String c ip)) as [|q0 [|q1 [|q2 [|q3 [|q4 qs]]]]];
      try exact Hfall.
    by simpl in Hlen.
Qed.

(** A dotted quad and two inputs that are not addresses. *)
Lemma anonymizeIp_ipv4_witness :
  ("192.168.17.42" = "192" ++ "." ++ "168" ++ "." ++ "17" ++ "." ++ "42" ∧
   _anonymizeIp (Some "192.168.17.42") = "192" ++ "." ++ "168" ++ "." ++ "17" ++ ".xxx" ∧
   split "." (_anonymizeIp (Some "192.168.17.42")) = ["192"; "168"; "17"; "xxx"]) ∧
  _anonymizeIp (Some "10.0.0") = "unknown" ∧
  _anonymizeIp (Some "fe80::1") = "unknown".
Proof.
  destruct anonymizeIp_ipv4 as (Hv4 & Hother & _).
  split; [|split].
  - apply (Hv4 "192.168.17.42" "192" "168" "17" "42"). reflexivity.
  - apply (Hother "10.0.0").
    + simpl. discriminate.
    + simpl. intros [H _]. discriminate H.
  - apply (Hother "fe80::1").
    + simpl. discriminate.
    + simpl. intros [_ H]. lia.
Defined.

(** C10 (as amended).  Browser precedence: a user agent containing
    ["Chrome/"] is labelled ["Edge"] when it also contains ["Edg/"] and
    ["Chrome"] otherwise, never ["Opera"]; and the label ["Opera"] is given
    only to a user agent that contains an Opera token, none of ["Edg/"],
    ["Chrome/"] and ["Firefox/"], and ["Safari/"] only together with the
    word ["Chrome"] (which disables the Safari branch). *)
Theorem chrome_before_opera ua :
  (includes "Chrome/" ua = true →
     ua_browser (_parseUserAgent ua)
       = (if includes "Edg/" ua then "Edge" else "Chrome") ∧
     ua_browser (_parseUserAgent ua) ≠ "Opera") ∧
  (ua_browser (_parseUserAgent ua) = "Opera" →
     includes "Edg/" ua = false ∧
     includes "Chrome/" ua = false ∧
     includes "Firefox/" ua = false ∧
     (includes "Safari/" ua = true → includes "Chrome" ua = true) ∧
     (includes "Opera/" ua = true ∨ includes "OPR/" ua = true)).
Proof.
  destruct ua as [|c ua]; [split; [discriminate | discriminate]|].
  unfold _parseUserAgent. cbn [ua_browser].
  destruct (includes "Edg/" (String c ua)),
           (includes "Chrome/" (String c ua)),
           (includes "Firefox/" (String c ua)),
           (includes "Safari/" (String c ua)),
           (includes "Chrome" (String c ua)),
           (includes "Opera/" (String c ua)),
           (includes "OPR/" (String c ua));
    simpl; split; intros; repeat split; try done; auto.
Qed.

(** The Opera user agent of the service's own tests is labelled Chrome. *)
Lemma chrome_before_opera_witness :
  ua_browser (_parseUserAgent
    "Mozilla/5.0 (Windows NT 10.0; Win64; x64) AppleWebKit/537.36 (KHTML, like Gecko) Chrome/120.0.0.0 Safari/537.36 OPR/106.0.0.0")
    = "Chrome" ∧
  includes "Firefox/" "Opera/9.80 (Windows NT 6.1) Presto/2.12.388 Version/12.18" = false.
Proof.
  split.
  - apply (proj1 (chrome_before_opera
      "Mozilla/5.0 (Windows NT 10.0; Win64; x64) AppleWebKit/537.36 (KHTML, like Gecko) Chrome/120.0.0.0 Safari/537.36 OPR/106.0.0.0")).
    reflexivity.
  - apply (proj2 (chrome_before_opera
      "Opera/9.80 (Windows NT 6.1) Presto/2.12.388 Version/12.18")).
    reflexivity.
Defined.

(** C10, the claim as written fails: this user agent contains the Safari
    token ["Safari/"] and is nevertheless labelled ["Opera"], because the
    word ["Chrome"] (without a slash) switches the Safari branch off. *)
Lemma opera_with_safari_token :
  includes "Safari/"
    "Mozilla/5.0 (X11; Linux x86_64) AppleWebKit/537.36 (like Chrome) Safari/537.36 OPR/106.0" = true ∧
  ua_browser (_parseUserAgent
    "Mozilla/5.0 (X11; Linux x86_64) AppleWebKit/537.36 (like Chrome) Safari/537.36 OPR/106.0") = "Opera".
Proof. split; reflexivity. Qed.

End AnonymizerSpec.

(** * Sorting, counting and distinct values *)

Module ListFacts.
Import AnalyticsService.

Section Sorting.
Context {A : Type} (f : A → Z).

Lemma insert_desc_perm x l : insert_desc f x l ≡ₚ x :: l.
Proof.
  induction l as [|y l IH]; simpl; [done|].
  destruct (f y <=? f x)%Z; [done|].
  rewrite IH. apply Permutation_swap.
Qed.

Lemma sort_desc_perm l : sort_desc f l ≡ₚ l.
Proof.
  induction l as [|x l IH]; simpl; [done|].
  by rewrite insert_desc_perm, IH.
Qed.

Lemma sort_desc_length l : length (sort_desc f l) = length l.
Proof. by rewrite sort_desc_perm. Qed.

Lemma elem_of_sort_desc x l : x ∈ sort_desc f l ↔ x ∈ l.
Proof. by rewrite sort_desc_perm. Qed.

Lemma insert_desc_sorted x l :
  non_increasing f l → non_increasing f (insert_desc f x l).
Proof.
  unfold non_increasing. induction 1 as [|y l Hl IH Hy]; simpl.
  - by repeat constructor.
  - destruct (Z.leb_spec (f y) (f x)) as [Hle|Hgt].
    + constructor; [by constructor|].
      constructor; [done|].
      eapply Forall_impl; [exact Hy|]. simpl. intros z Hz. lia.
    + constructor; [done|].
      rewrite insert_desc_perm. constructor; [lia | done].
Qed.

Lemma sort_desc_sorted l : non_increasing f (sort_desc f l).
Proof.
  induction l as [|x l IH]; simpl; [constructor|].
  by apply insert_desc_sorted.
Qed.

Lemma non_increasing_take n l :
  non_increasing f l → non_increasing f (take n l).
Proof.
  unfold non_increasing. intros Hl. revert n.
  induction Hl as [|y l Hl IH Hy]; intros [|n]; simpl; try constructor.
  - apply IH.
  - by apply Forall_take.
Qed.

(** Sorting keeps elements with equal keys in their order: the sort is
    stable, as [Array.prototype.sort] is. *)
Lemma insert_desc_front x l :
  Forall (λ y, (f y ≤ f x)%Z) l → insert_desc f x l = x :: l.
Proof.
  destruct 1 as [|y l Hy _]; simpl; [done|].
  by destruct (Z.leb_spec (f y) (f x)); [|lia].
Qed.

End Sorting.

Lemma take_length_le {A} n (l : list A) : length (take n l) ≤ n.
Proof. rewrite length_take. lia. Qed.

(** The code's dedup counts the distinct values. *)
Lemma remove_dups_distinct_count (l : list string) :
  length (remove_dups l) = distinct_count l.
Proof.
  unfold distinct_count.
  rewrite <- (size_list_to_set (C := gset string) (remove_dups l))
    by apply NoDup_remove_dups.
  f_equal. apply set_eq. intros x.
  by rewrite !elem_of_list_to_set, elem_of_remove_dups.
Qed.


End ListFacts.

(** * Properties of the analytics service *)

Module AnalyticsSpec.
Import AnalyticsService ListFacts.

(** ** The collections *)

Lemma findOne_shortCode code us doc :
  findOne code us = Some doc → shortCode doc = code.
Proof.
  unfold findOne. intros H. apply find_some in H as [_ H].
  by apply String.eqb_eq.
Qed.

Lemma findOne_replace_url code us doc doc' :
  findOne code us = Some doc → shortCode doc' = code →
  findOne code (replace_url doc' us) = Some doc'.
Proof.
  unfold findOne, replace_url. intros Hfind Hcode. subst code.
  induction us as [|u us IH]; simpl in *; [done|].
  destruct (String.eqb_spec (shortCode u) (shortCode doc')) as [Heq|Hne].
  - by rewrite String.eqb_refl.
  - apply String.eqb_neq in Hne. rewrite Hne. by apply IH.
Qed.

Lemma findOne_replace_url_ne code us doc' :
  shortCode doc' ≠ code →
  findOne code (replace_url doc' us) = findOne code us.
Proof.
  unfold findOne, replace_url. intros Hne.
  induction us as [|u us IH]; simpl; [done|].
  destruct (String.eqb_spec (shortCode u) (shortCode doc')) as [Heq|Hne'].
  - apply String.eqb_neq in Hne. rewrite Hne.
    rewrite Heq, Hne. apply IH.
  - by rewrite IH.
Qed.

Lemma events_of_snoc code evs ev :
  ce_shortCode ev = code →
  events_of code (evs ++ [ev]) = events_of code evs ++ [ev].
Proof.
  intros H. unfold events_of. rewrite filter_app. f_equal.
  rewrite filter_cons_True by done. done.
Qed.

Lemma app_singleton_neq {A} (l : list A) x : l ++ [x] ≠ l.
Proof.
  intros H. apply (f_equal length) in H. rewrite length_app in H.
  simpl in H. lia.
Qed.

Section Facts.

Variable url_hostname : string → option string.
Variable startOfDay : Z → Z.

Lemma clicked_shortCode code doc evs ref ts :
  shortCode (clicked startOfDay code doc evs ref ts) = shortCode doc.
Proof. done. Qed.

(** ** One read-modify-write of the aggregate *)

(** It either stores the new aggregate, or throws and changes nothing;
    it calls [save] at most once, and never touches events or console. *)
Lemma update_once_spec code aip ref ts w doc :
  findOne code (urls w) = Some doc →
  clickEvents (update_once startOfDay code aip ref ts w).2 = clickEvents w ∧
  console (update_once startOfDay code aip ref ts w).2 = console w ∧
  urlSaves w ≤ urlSaves (update_once startOfDay code aip ref ts w).2
    ≤ S (urlSaves w) ∧
  (((update_once startOfDay code aip ref ts w).1 = Ok tt ∧
    urls (update_once startOfDay code aip ref ts w).2 =
      replace_url (clicked startOfDay code doc (clickEvents w) ref ts) (urls w)) ∨
   (∃ e, (update_once startOfDay code aip ref ts w).1 = Throw e ∧
         urls (update_once startOfDay code aip ref ts w).2 = urls w)).
Proof.
  intros Hdoc.
  unfold update_once, Url_findOne, ClickEvent_distinct_anonymizedIp, Url_save,
    bind, store_call, get, modify, ret.
  destruct w as [us evs fs cs n]; simpl in *.
  destruct fs as [|[e1|] [|[e2|] [|[e3|] fs]]]; simpl;
    rewrite ?Hdoc; simpl;
    repeat split; try lia; eauto.
Qed.

(** ** [_updateAggregatedStats]: one retry on a version conflict *)

Lemma updateAggregatedStats_spec code aip ref ts w doc res w' :
  findOne code (urls w) = Some doc →
  _updateAggregatedStats startOfDay code aip ref ts w = (res, w') →
  clickEvents w' = clickEvents w ∧ console w' = console w ∧
  urlSaves w ≤ urlSaves w' ≤ urlSaves w + 2 ∧
  ((res = Ok tt ∧
    urls w' = replace_url (clicked startOfDay code doc (clickEvents w) ref ts)
                          (urls w)) ∨
   (∃ e, res = Throw e ∧ urls w' = urls w)).
Proof.
  intros Hdoc. unfold _updateAggregatedStats, try_catch.
  destruct (update_once_spec code aip ref ts w doc Hdoc)
    as (Hev & Hco & Hsv & Hout).
  destruct (update_once startOfDay code aip ref ts w) as [[[]|e] w1];
    simpl in *.
  - intros [= <- <-]. destruct Hout as [[_ Hu]|(e & [=] & _)].
    repeat split; try lia; auto.
  - destruct Hout as [[[=] _]|(e' & _ & Hu)].
    destruct (is_VersionError e).
    + rewrite <- Hu in Hdoc.
      destruct (update_once_spec code aip ref ts w1 doc Hdoc)
        as (Hev' & Hco' & Hsv' & Hout').
      intros Hrun. rewrite Hrun in *. simpl in *.
      rewrite Hev', Hco', Hev, Hco. repeat split; try lia.
      destruct Hout' as [[-> Hu']|(e2 & -> & Hu')].
      * left. split; [done|]. by rewrite Hu', Hu, Hev.
      * right. exists e2. split; [done|]. by rewrite Hu'.
    + intros [= <- <-]. repeat split; try lia; eauto.
Qed.

(** ** [recordClick] *)

(** An unknown short code: nothing is read back, written or saved. *)
Lemma recordClick_unknown now code data w :
  findOne code (urls w) = None →
  (recordClick url_hostname startOfDay now code data w).1 = Ok tt ∧
  urls (recordClick url_hostname startOfDay now code data w).2 = urls w ∧
  clickEvents (recordClick url_hostname startOfDay now code data w).2
    = clickEvents w ∧
  urlSaves (recordClick url_hostname startOfDay now code data w).2
    = urlSaves w ∧
  (console (recordClick url_hostname startOfDay now code data w).2 = console w ∨
   ∃ e, faults w !! 0 = Some (Some e) ∧
        console (recordClick url_hostname startOfDay now code data w).2
          = console w ++ [e]).
Proof.
  intros Hnone.
  unfold recordClick, try_catch, Url_findOne, bind, store_call, get, ret,
    console_error, modify.
  destruct w as [us evs fs cs n]; simpl in *.
  destruct fs as [|[e|] fs]; simpl; rewrite ?Hnone; simpl; eauto 10.
Qed.

(** A missing [data] argument: the [TypeError] is logged. *)
Lemma recordClick_no_data now code w doc :
  findOne code (urls w) = Some doc →
  (recordClick url_hostname startOfDay now code None w).1 = Ok tt ∧
  urls (recordClick url_hostname startOfDay now code None w).2 = urls w ∧
  clickEvents (recordClick url_hostname startOfDay now code None w).2
    = clickEvents w ∧
  urlSaves (recordClick url_hostname startOfDay now code None w).2
    = urlSaves w ∧
  ∃ e, console (recordClick url_hostname startOfDay now code None w).2
         = console w ++ [e].
Proof.
  intros Hdoc.
  unfold recordClick, try_catch, Url_findOne, bind, store_call, get, ret,
    console_error, modify, throw.
  destruct w as [us evs fs cs n]; simpl in *.
  destruct fs as [|[e|] fs]; simpl; rewrite ?Hdoc; simpl; eauto 10.
Qed.

(** A known short code: either the event is appended and the aggregate
    stored with nothing logged, or exactly one error is logged and the
    aggregate is left as it was. *)
Lemma recordClick_known now code data w doc res w' :
  findOne code (urls w) = Some doc →
  recordClick url_hostname startOfDay now code (Some data) w = (res, w') →
  res = Ok tt ∧
  urlSaves w ≤ urlSaves w' ≤ urlSaves w + 2 ∧
  ((console w' = console w ∧
    clickEvents w' = clickEvents w ++ [event_of url_hostname now code data] ∧
    urls w' =
      replace_url
        (clicked startOfDay code doc
           (clickEvents w ++ [event_of url_hostname now code data])
           (_extractReferrer url_hostname (or_default (data_referrer data) ""))
           now)
        (urls w)) ∨
   (∃ e,
      console w' = console w ++ [e] ∧ urls w' = urls w ∧
      (clickEvents w' = clickEvents w ∨
       clickEvents w' = clickEvents w ++ [event_of url_hostname now code data]))).
Proof.
  intros Hdoc.
  unfold recordClick, try_catch, bind, Url_findOne, ClickEvent_save,
    store_call, get, modify, console_error.
  fold (event_of url_hostname now code data).
  destruct w as [us evs fs cs n]; simpl in *.
  destruct fs as [|[e1|] [|[e2|] fs]]; simpl; rewrite ?Hdoc; simpl.
  all: try (intros [= <- <-]; simpl; split; [done|]; split; [lia|];
            right; eexists; eauto; fail).
  all: match goal with
       | |- context [_updateAggregatedStats _ ?c ?a ?r ?t ?w0] =>
           destruct (_updateAggregatedStats startOfDay c a r t w0)
             as [res0 w0'] eqn:Hrun;
           apply (updateAggregatedStats_spec _ _ _ _ _ doc) in Hrun
             as (Hev & Hco & Hsv & Hout); [|done];
           simpl in *;
           destruct Hout as [[-> Hu]|(e' & -> & Hu)]; simpl;
           intros [= <- <-]; simpl;
           rewrite ?Hev, ?Hco, ?Hu;
           (split; [done|]); (split; [lia|]); [left|right; eexists]; eauto
       end.
Qed.

(** The console only grows. *)
Lemma recordClick_console now code data w :
  ∃ errs, console (recordClick url_hostname startOfDay now code data w).2
            = console w ++ errs.
Proof.
  destruct (findOne code (urls w)) as [doc|] eqn:Hdoc.
  - destruct data as [data|].
    + destruct (recordClick url_hostname startOfDay now code (Some data) w)
        as [res w'] eqn:Hrun.
      destruct (recordClick_known _ _ _ _ _ _ _ Hdoc Hrun)
        as (_ & _ & [(Hc & _)|(e & Hc & _)]); simpl; rewrite Hc.
      * exists []. by rewrite app_nil_r.
      * by exists [e].
    + destruct (recordClick_no_data now code w doc Hdoc)
        as (_ & _ & _ & _ & e & Hc). by exists [e].
  - destruct (recordClick_unknown now code data w Hdoc)
      as (_ & _ & _ & _ & [Hc|(e & _ & Hc)]); rewrite Hc.
    + exists []. by rewrite app_nil_r.
    + by exists [e].
Qed.

Lemma recordClicks_console code calls w :
  ∃ errs, console (recordClicks url_hostname startOfDay code calls w)
            = console w ++ errs.
Proof.
  revert w. induction calls as [|[now data] calls IH]; intros w; simpl.
  - exists []. by rewrite app_nil_r.
  - destruct (IH (recordClick url_hostname startOfDay now code data w).2)
      as (errs2 & ->).
    destruct (recordClick_console now code data w) as (errs1 & ->).
    exists (errs1 ++ errs2). by rewrite app_assoc.
Qed.

(** A call that logs nothing against a known short code has appended its
    event and stored the aggregate. *)
Lemma recordClick_success now code data w doc :
  findOne code (urls w) = Some doc →
  console (recordClick url_hostname startOfDay now code data w).2 = console w →
  ∃ d, data = Some d ∧
    clickEvents (recordClick url_hostname startOfDay now code data w).2
      = clickEvents w ++ [event_of url_hostname now code d] ∧
    urls (recordClick url_hostname startOfDay now code data w).2
      = replace_url
          (clicked startOfDay code doc
             (clickEvents w ++ [event_of url_hostname now code d])
             (_extractReferrer url_hostname (or_default (data_referrer d) ""))
             now)
          (urls w).
Proof.
  intros Hdoc Hquiet. destruct data as [d|].
  - exists d. split; [done|].
    destruct (recordClick url_hostname startOfDay now code (Some d) w)
      as [res w'] eqn:Hrun.
    destruct (recordClick_known _ _ _ _ _ _ _ Hdoc Hrun)
      as (_ & _ & [(_ & Hev & Hu)|(e & Hc & _)]); simpl in *; [done|].
    rewrite Hc in Hquiet. by apply app_singleton_neq in Hquiet.
  - destruct (recordClick_no_data now code w doc Hdoc)
      as (_ & _ & _ & _ & e & Hc).
    rewrite Hc in Hquiet. by apply app_singleton_neq in Hquiet.
Qed.

Lemma distinct_count_pair (a b : string) :
  a ≠ b → distinct_count [a; a; b] = 2.
Proof.
  intros Hab. unfold distinct_count.
  replace (list_to_set [a; a; b] : gset string) with ({[a]} ∪ {[b]} : gset string).
  - rewrite size_union by (by apply disjoint_singleton_l, not_elem_of_singleton_2).
    by rewrite !size_singleton.
  - apply set_eq. intros x. simpl.
    rewrite !elem_of_union, !elem_of_singleton, elem_of_empty. tauto.
Qed.

(** C2.  Aggregate postconditions of [recordClick].  For a known short
    code, a run of [N] calls none of which logs an error (each call
    succeeded) leaves [totalClicks] larger by exactly [N] (by 1 for a
    single call), leaves, when [N > 0], [uniqueVisitors] equal to the number
    of distinct masked addresses among all the events of that short code
    in the store, and has appended the callers' masked addresses to those
    events; so three successful calls on a fresh link whose addresses mask
    to [a, a, b] with [b] different from [a] give [uniqueVisitors = 2] and
    [totalClicks = 3]. *)
Theorem recordClick_aggregate code :
  (∀ calls w doc,
     findOne code (urls w) = Some doc →
     console (recordClicks url_hostname startOfDay code calls w) = console w →
     ∃ doc',
       findOne code (urls (recordClicks url_hostname startOfDay code calls w))
         = Some doc' ∧
       totalClicks (analytics doc')
         = totalClicks (analytics doc) + length calls ∧
       (calls ≠ [] →
        uniqueVisitors (analytics doc')
          = distinct_count
              (anonymizedIp <$>
                 events_of code
                   (clickEvents
                      (recordClicks url_hostname startOfDay code calls w)))) ∧
       anonymizedIp <$>
         events_of code
           (clickEvents (recordClicks url_hostname startOfDay code calls w))
         = (anonymizedIp <$> events_of code (clickEvents w))
             ++ (call_ip <$> calls)) ∧
  (∀ c1 c2 c3 w doc,
     findOne code (urls w) = Some doc →
     totalClicks (analytics doc) = 0 →
     events_of code (clickEvents w) = [] →
     console (recordClicks url_hostname startOfDay code [c1; c2; c3] w)
       = console w →
     call_ip c2 = call_ip c1 → call_ip c3 ≠ call_ip c1 →
     ∃ doc',
       findOne code
         (urls (recordClicks url_hostname startOfDay code [c1; c2; c3] w))
         = Some doc' ∧
       uniqueVisitors (analytics doc') = 2 ∧
       totalClicks (analytics doc') = 3).
Proof.
  assert (∀ calls w doc,
     findOne code (urls w) = Some doc →
     console (recordClicks url_hostname startOfDay code calls w) = console w →
     ∃ doc',
       findOne code (urls (recordClicks url_hostname startOfDay code calls w))
         = Some doc' ∧
       totalClicks (analytics doc')
         = totalClicks (analytics doc) + length calls ∧
       (calls ≠ [] →
        uniqueVisitors (analytics doc')
          = distinct_count
              (anonymizedIp <$>
                 events_of code
                   (clickEvents
                      (recordClicks url_hostname startOfDay code calls w)))) ∧
       anonymizedIp <$>
         events_of code
           (clickEvents (recordClicks url_hostname startOfDay code calls w))
         = (anonymizedIp <$> events_of code (clickEvents w))
             ++ (call_ip <$> calls)) as Hrun.
  { induction calls as [|[now data] calls IH]; intros w doc Hdoc Hquiet.
    - exists doc. simpl. rewrite app_nil_r. repeat split; [done | lia | done].
    - simpl in Hquiet |- *.
      set (w1 := (recordClick url_hostname startOfDay now code data w).2) in *.
      assert (console w1 = console w) as Hquiet1.
      { destruct (recordClick_console now code data w) as (errs1 & H1).
        destruct (recordClicks_console code calls w1) as (errs2 & H2).
        fold w1 in H1. rewrite H2, H1, <- app_assoc in Hquiet.
        rewrite <- (app_nil_r (console w)) in Hquiet at 2.
        apply app_inv_head, app_eq_nil in Hquiet as [-> _].
        by rewrite H1, app_nil_r. }
      destruct (recordClick_success now code data w doc Hdoc Hquiet1)
        as (d & -> & Hev & Hu). fold w1 in Hev, Hu.
      set (ev := event_of url_hostname now code d) in *.
      set (doc1 := clicked startOfDay code doc _ _ _) in *.
      assert (findOne code (urls w1) = Some doc1) as Hdoc1.
      { rewrite Hu. eapply findOne_replace_url; [done|].
        subst doc1. rewrite clicked_shortCode.
        by eapply findOne_shortCode. }
      destruct (IH w1 doc1 Hdoc1) as (doc' & Hdoc' & Htot & Huniq & Hips).
      { by rewrite Hquiet, Hquiet1. }
      exists doc'. split; [done|].
      rewrite Htot, Hips, Hev, events_of_snoc, fmap_app, <- app_assoc by done.
      repeat split.
      + subst doc1. simpl. lia.
      + intros _. destruct calls as [|call calls].
        * simpl in Hdoc'. rewrite Hdoc1 in Hdoc'. injection Hdoc' as <-.
          subst doc1. simpl. unfold distinct_ips.
          rewrite remove_dups_distinct_count, events_of_snoc, fmap_app by done.
          done.
        * rewrite Huniq, Hips, Hev, events_of_snoc, fmap_app, <- app_assoc
            by done. done. }
  split; [exact Hrun|].
  intros c1 c2 c3 w doc Hdoc Hzero Hfresh Hquiet H21 H31.
  destruct (Hrun [c1; c2; c3] w doc Hdoc Hquiet)
    as (doc' & Hdoc' & Htot & Huniq & Hips).
  exists doc'. split; [done|]. split.
  - rewrite Huniq, Hips, Hfresh by done. simpl. rewrite H21.
    by apply distinct_count_pair.
  - rewrite Htot, Hzero. done.
Qed.


(** ** Reads on a store that does not fail *)

Lemma calm_cases w :
  calm w →
  faults w = [] ∨ faults w = [None] ∨
  ∃ fs, faults w = None :: None :: fs ∧ Forall (λ f, f = None) fs.
Proof.
  unfold calm. destruct (faults w) as [|f1 [|f2 fs]]; intros H; auto.
  - inversion H; subst. auto.
  - inversion H as [|? ? -> H']; subst. inversion H' as [|? ? -> H'']; subst.
    eauto.
Qed.

Lemma filter_in_range code lo hi evs :
  List.filter (in_range (mkQuery code (ValidDate <$> lo) (ValidDate <$> hi))) evs
  = filter (λ ev, in_window lo hi (timestamp ev)) (events_of code evs).
Proof.
  unfold events_of. induction evs as [|ev evs IH]; [done|].
  rewrite filter_cons. simpl. unfold in_range at 1. simpl.
  destruct (String.eqb_spec (ce_shortCode ev) code) as [Hc|Hc].
  - rewrite decide_True by done. rewrite filter_cons. simpl.
    destruct (decide (in_window lo hi (timestamp ev))) as [Hw|Hw].
    + destruct lo, hi; unfold in_window in Hw; simpl in *;
        repeat match goal with
               | |- context [(?a <=? ?b)%Z] => destruct (Z.leb_spec a b); [|lia]
               end; simpl; by rewrite IH.
    + destruct lo, hi; unfold in_window in Hw; simpl in *;
        repeat match goal with
               | |- context [(?a <=? ?b)%Z] => destruct (Z.leb_spec a b)
               end; simpl; try (exfalso; apply Hw; split; (done || lia));
        by rewrite IH.
  - rewrite decide_False by done. simpl. by rewrite IH.
Qed.

(** On a store that does not fail, a known short code and valid bounds,
    the query resolves, and counts the events in the window. *)
Lemma getUrlAnalytics_total code lo hi w doc :
  findOne code (urls w) = Some doc → calm w →
  ∃ a,
    (getUrlAnalytics startOfDay code
       (mkOptions (ValidDate <$> lo) (ValidDate <$> hi)) w).1 = Ok (Some a) ∧
    ua_totalClicks a =
      length (filter (λ ev, in_window lo hi (timestamp ev))
                     (events_of code (clickEvents w))).
Proof.
  intros Hdoc Hcalm.
  unfold getUrlAnalytics, bind, Url_findOne, ClickEvent_find_sorted,
    store_call, get, ret.
  assert (invalid_bound (ValidDate <$> lo) || invalid_bound (ValidDate <$> hi)
          = false) as Hvalid by (by destruct lo, hi).
  destruct w as [us evs fs cs n]; simpl in *.
  destruct (calm_cases _ Hcalm) as [Hf|[Hf|(fs' & Hf & _)]]; simpl in Hf;
    subst fs; simpl; rewrite Hdoc; simpl; rewrite Hvalid; simpl;
    (eexists; split; [reflexivity|]); simpl;
    by rewrite sort_desc_length, filter_in_range.
Qed.

Lemma filter_length_all {A} (P : A → Prop) `{∀ x, Decision (P x)} l :
  Forall P l → length (filter P l) = length l.
Proof.
  induction 1 as [|x l Hx _ IH]; [done|].
  rewrite filter_cons, decide_True by done. simpl. by rewrite IH.
Qed.

Lemma filter_length_none {A} (P : A → Prop) `{∀ x, Decision (P x)} l :
  Forall (λ x, ¬ P x) l → length (filter P l) = 0.
Proof.
  induction 1 as [|x l Hx _ IH]; [done|].
  by rewrite filter_cons, decide_False.
Qed.

(** C6.  Time-range filtering of [getUrlAnalytics]: on a known short code
    (and a store that answers), the reported [totalClicks] is the number of
    the link's events whose timestamp lies within the supplied bounds, both
    inclusive, an absent bound leaving its side open; so when the link's
    events are those of [before], all earlier than [boundary], and those of
    [after], none earlier than it, the query with [startDate = boundary]
    reports [length after] and the query without bounds reports all of
    them. *)
Theorem time_range_filtering code w doc :
  findOne code (urls w) = Some doc → calm w →
  (∀ lo hi,
     ∃ a,
       (getUrlAnalytics startOfDay code
          (mkOptions (ValidDate <$> lo) (ValidDate <$> hi)) w).1
         = Ok (Some a) ∧
       ua_totalClicks a =
         length (filter (λ ev, in_window lo hi (timestamp ev))
                        (events_of code (clickEvents w)))) ∧
  (∀ boundary before after,
     events_of code (clickEvents w) ≡ₚ before ++ after →
     Forall (λ ev, (timestamp ev < boundary)%Z) before →
     Forall (λ ev, (boundary ≤ timestamp ev)%Z) after →
     ∃ ranged full,
       (getUrlAnalytics startOfDay code
          (mkOptions (Some (ValidDate boundary)) None) w).1
         = Ok (Some ranged) ∧
       (getUrlAnalytics startOfDay code (mkOptions None None) w).1
         = Ok (Some full) ∧
       ua_totalClicks ranged = length after ∧
       ua_totalClicks full = length before + length after).
Proof.
  intros Hdoc Hcalm. split.
  - intros lo hi. by apply (getUrlAnalytics_total code lo hi w doc).
  - intros boundary before after Hperm Hbefore Hafter.
    destruct (getUrlAnalytics_total code (Some boundary) None w doc Hdoc Hcalm)
      as (ranged & Hranged & Hn).
    destruct (getUrlAnalytics_total code None None w doc Hdoc Hcalm)
      as (full & Hfull & Hm).
    exists ranged, full. split; [done|]. split; [done|].
    rewrite Hn, Hm, !Hperm, !filter_app, !length_app. split.
    + rewrite (filter_length_none _ before), (filter_length_all _ after).
      * done.
      * eapply Forall_impl; [exact Hafter|]. by intros ev Hev; split.
      * eapply Forall_impl; [exact Hbefore|].
        intros ev Hev [Hlo _]. simpl in Hlo, Hev. lia.
    + rewrite (filter_length_all _ before), (filter_length_all _ after).
      * done.
      * apply Forall_forall. by intros ev _; split.
      * apply Forall_forall. by intros ev _; split.
Qed.

(** C4.  Unknown link: for a short code that resolves to no link,
    [recordClick] returns normally having appended no event, changed no
    aggregate and made no [save], silently when the store answers; and
    [getUrlAnalytics] never resolves to an analytics object, but to
    [null] when the store answers. *)
Theorem unknown_link now code data options w :
  findOne code (urls w) = None →
  (recordClick url_hostname startOfDay now code data w).1 = Ok tt ∧
  clickEvents (recordClick url_hostname startOfDay now code data w).2
    = clickEvents w ∧
  urls (recordClick url_hostname startOfDay now code data w).2 = urls w ∧
  urlSaves (recordClick url_hostname startOfDay now code data w).2
    = urlSaves w ∧
  (calm w →
   console (recordClick url_hostname startOfDay now code data w).2
     = console w) ∧
  (∀ a, (getUrlAnalytics startOfDay code options w).1 ≠ Ok (Some a)) ∧
  (calm w → (getUrlAnalytics startOfDay code options w).1 = Ok None).
Proof.
  intros Hnone.
  destruct (recordClick_unknown now code data w Hnone)
    as (Hres & Hu & Hev & Hsv & Hco).
  repeat (split; [done|]). split; [|split].
  - intros Hcalm. destruct Hco as [Hco|(e & He & _)]; [done|].
    unfold calm in Hcalm. destruct (faults w) as [|f fs]; [done|].
    inversion Hcalm; subst. by simpl in He.
  - intros a.
    unfold getUrlAnalytics, bind, Url_findOne, store_call, get, ret.
    destruct w as [us evs fs cs n]; simpl in *.
    destruct fs as [|[e|] fs]; simpl; rewrite ?Hnone; done.
  - intros Hcalm.
    unfold getUrlAnalytics, bind, Url_findOne, store_call, get, ret.
    destruct w as [us evs fs cs n]; simpl in *.
    destruct (calm_cases _ Hcalm) as [Hf|[Hf|(fs' & Hf & _)]]; simpl in Hf;
      subst fs; simpl; by rewrite Hnone.
Qed.

(** C7.  Failure containment of [recordClick]: whatever the arguments and
    whatever the store operations do, the call returns normally, and
    [urlDoc.save()] is attempted at most twice.  When the first [save] of the
    aggregate throws a [VersionError], the read-modify-write is run once
    more: if that run goes through, the aggregate is stored and nothing is
    logged; if it throws as well, that error is logged, the aggregate is
    left as it was, and no further store operation is made. *)
Theorem recordClick_contained now code data w :
  (recordClick url_hostname startOfDay now code data w).1 = Ok tt ∧
  urlSaves w ≤ urlSaves (recordClick url_hostname startOfDay now code data w).2
    ≤ urlSaves w + 2 ∧
  (∀ d doc fs,
     data = Some d → findOne code (urls w) = Some doc →
     faults w = [None; None; None; None; Some (mkError "VersionError");
                 None; None; None] ++ fs →
     console (recordClick url_hostname startOfDay now code data w).2
       = console w ∧
     urlSaves (recordClick url_hostname startOfDay now code data w).2
       = urlSaves w + 2 ∧
     faults (recordClick url_hostname startOfDay now code data w).2 = fs ∧
     urls (recordClick url_hostname startOfDay now code data w).2
       = replace_url
           (clicked startOfDay code doc
              (clickEvents w ++ [event_of url_hostname now code d])
              (_extractReferrer url_hostname (or_default (data_referrer d) ""))
              now)
           (urls w)) ∧
  (∀ d doc e fs,
     data = Some d → findOne code (urls w) = Some doc →
     faults w = [None; None; None; None; Some (mkError "VersionError");
                 None; None; Some e] ++ fs →
     console (recordClick url_hostname startOfDay now code data w).2
       = console w ++ [e] ∧
     urlSaves (recordClick url_hostname startOfDay now code data w).2
       = urlSaves w + 2 ∧
     faults (recordClick url_hostname startOfDay now code data w).2 = fs ∧
     urls (recordClick url_hostname startOfDay now code data w).2 = urls w).
Proof.
  split; [|split; [|split]].
  - destruct (findOne code (urls w)) as [doc|] eqn:Hdoc.
    + destruct data as [d|].
      * destruct (recordClick url_hostname startOfDay now code (Some d) w)
          as [res w'] eqn:Hrun.
        by destruct (recordClick_known _ _ _ _ _ _ _ Hdoc Hrun) as (-> & _).
      * by destruct (recordClick_no_data now code w doc Hdoc) as (-> & _).
    + by destruct (recordClick_unknown now code data w Hdoc) as (-> & _).
  - destruct (findOne code (urls w)) as [doc|] eqn:Hdoc.
    + destruct data as [d|].
      * destruct (recordClick url_hostname startOfDay now code (Some d) w)
          as [res w'] eqn:Hrun.
        by destruct (recordClick_known _ _ _ _ _ _ _ Hdoc Hrun) as (_ & ? & _).
      * destruct (recordClick_no_data now code w doc Hdoc)
          as (_ & _ & _ & -> & _). lia.
    + destruct (recordClick_unknown now code data w Hdoc)
        as (_ & _ & _ & -> & _). lia.
  - intros d doc fs -> Hdoc Hf.
    destruct w as [us evs fs0 cs n]; simpl in *; subst fs0.
    unfold recordClick, _updateAggregatedStats, update_once, try_catch, bind,
      Url_findOne, ClickEvent_save, ClickEvent_distinct_anonymizedIp, Url_save,
      store_call, get, modify, ret, console_error.
    simpl. rewrite Hdoc. simpl. rewrite Hdoc. simpl. rewrite Hdoc. simpl.
    repeat split; lia.
  - intros d doc e fs -> Hdoc Hf.
    destruct w as [us evs fs0 cs n]; simpl in *; subst fs0.
    unfold recordClick, _updateAggregatedStats, update_once, try_catch, bind,
      Url_findOne, ClickEvent_save, ClickEvent_distinct_anonymizedIp, Url_save,
      store_call, get, modify, ret, console_error.
    simpl. rewrite Hdoc. simpl. rewrite Hdoc. simpl. rewrite Hdoc. simpl.
    repeat split; lia.
Qed.

End Facts.

(** ** Popular links *)

Lemma non_increasing_map {A B} (f : A → B) (g : B → Z) l :
  non_increasing (λ x, g (f x)) l → non_increasing g (f <$> l).
Proof.
  unfold non_increasing. induction 1 as [|x l Hl IH Hx]; simpl; constructor.
  - done.
  - by apply Forall_fmap.
Qed.

(** What the popular-links query does: on a store that answers and for a
    positive limit [n], [getPopularUrls] resolves to at most [n] entries,
    as many as there are active links if those are fewer, each taken from an
    active link, in non-increasing order of the aggregate's [totalClicks];
    a missing limit is 10, and the route hands the caller's limit to the
    service as it is. *)
Theorem popular_urls w n :
  calm w → (1 ≤ n)%Z →
  (∃ l,
     (getPopularUrls (Some n) w).1 = Ok l ∧
     length l = Z.to_nat n `min` length (List.filter isActive (urls w)) ∧
     non_increasing (λ p, Z.of_nat (pu_totalClicks p)) l ∧
     ∀ p, p ∈ l →
       ∃ u, u ∈ urls w ∧ isActive u = true ∧
            pu_shortCode p = shortCode u ∧
            pu_totalClicks p = totalClicks (analytics u)) ∧
  getPopularUrls None w = getPopularUrls (Some 10%Z) w ∧
  popular_route None w = getPopularUrls (Some 10%Z) w ∧
  popular_route (Some n) w = getPopularUrls (Some n) w.
Proof.
  intros Hcalm Hn. split; [|done].
  set (found := take (Z.to_nat n)
                  (sort_desc (λ u, Z.of_nat (totalClicks (analytics u)))
                             (List.filter isActive (urls w)))).
  assert (∃ w', Url_find_active_sorted n w = (Ok found, w')) as (w' & Hrun).
  { unfold Url_find_active_sorted, bind, store_call, get, limit.
    destruct (Z.eqb_spec n 0); [lia|].
    replace (Z.abs_nat n) with (Z.to_nat n) by lia.
    destruct w as [us evs fs cs k]; simpl in *.
    destruct (calm_cases _ Hcalm) as [Hf|[Hf|(fs' & Hf & _)]]; simpl in Hf;
      subst fs; simpl; eauto. }
  unfold getPopularUrls, bind, ret. simpl. rewrite Hrun.
  eexists. split; [reflexivity|].
  split; [|split].
  - rewrite length_map. subst found. by rewrite length_take, sort_desc_length.
  - apply non_increasing_map. simpl. subst found.
    apply non_increasing_take, sort_desc_sorted.
  - intros p (u & -> & Hu)%list_elem_of_fmap.
    exists u. simpl. subst found.
    apply elem_of_take in Hu as (i & Hu & _).
    apply list_elem_of_lookup_2, elem_of_sort_desc, list_elem_of_In,
      filter_In in Hu as [Hin Hact].
    by rewrite list_elem_of_In.
Qed.



(** The same happens without any failure when events outlive their link:
    [UrlService.deleteUrl] removes the [Url] document only, so a short code
    created again finds the old events, here one from [10.0.0.xxx]. *)
Lemma stale_events_exceed_total_clicks :
  ∃ doc',
    findOne "promo"
      (urls
         (recordClick plain_hostname utc_startOfDay 2000 "promo"
            (Some (mkClickData (Some "10.0.1.1") None None))
            (mkWorld [new_Url "promo" "https://example.com" 1500]
               [mkClickEvent "promo" 1000 "10.0.0.xxx" (Some "Unknown")
                             (Some "Unknown") (Some "direct")]
               [] [] 0)).2)
      = Some doc' ∧
    uniqueVisitors (analytics doc') = 2 ∧
    totalClicks (analytics doc') = 1.
Proof. eexists. split; [vm_compute; reflexivity|]. split; reflexivity. Qed.

(** Three clicks on a fresh link, two of them from one /24. *)
Lemma recordClick_aggregate_witness :
  ∃ doc',
    findOne "promo"
      (urls (recordClicks plain_hostname utc_startOfDay "promo"
               [(1000%Z, Some (mkClickData (Some "10.0.0.1") None None));
                (2000%Z, Some (mkClickData (Some "10.0.0.7") None None));
                (3000%Z, Some (mkClickData (Some "10.0.1.1") None None))]
               (mkWorld [new_Url "promo" "https://example.com" 0] [] [] [] 0)))
      = Some doc' ∧
    uniqueVisitors (analytics doc') = 2 ∧
    totalClicks (analytics doc') = 3.
Proof.
  apply (proj2 (recordClick_aggregate plain_hostname utc_startOfDay "promo")
           (1000%Z, Some (mkClickData (Some "10.0.0.1") None None))
           (2000%Z, Some (mkClickData (Some "10.0.0.7") None None))
           (3000%Z, Some (mkClickData (Some "10.0.1.1") None None))
           (mkWorld [new_Url "promo" "https://example.com" 0] [] [] [] 0)
           (new_Url "promo" "https://example.com" 0)).
  - reflexivity.
  - reflexivity.
  - reflexivity.
  - vm_compute. reflexivity.
  - reflexivity.
  - vm_compute. discriminate.
Defined.

(** A click and a query on a short code that was never created. *)
Lemma unknown_link_witness :
  (recordClick plain_hostname utc_startOfDay 1000 "ghost"
     (Some (mkClickData (Some "10.0.0.1") None None))
     (mkWorld [new_Url "promo" "https://example.com" 0] [] [] [] 0)).1 = Ok tt ∧
  clickEvents
    (recordClick plain_hostname utc_startOfDay 1000 "ghost"
       (Some (mkClickData (Some "10.0.0.1") None None))
       (mkWorld [new_Url "promo" "https://example.com" 0] [] [] [] 0)).2 = [] ∧
  (getUrlAnalytics utc_startOfDay "ghost" (mkOptions None None)
     (mkWorld [new_Url "promo" "https://example.com" 0] [] [] [] 0)).1 = Ok None.
Proof.
  destruct (unknown_link plain_hostname utc_startOfDay 1000 "ghost"
              (Some (mkClickData (Some "10.0.0.1") None None))
              (mkOptions None None)
              (mkWorld [new_Url "promo" "https://example.com" 0] [] [] [] 0))
    as (Hres & Hev & _ & _ & _ & _ & Hnull).
  - reflexivity.
  - split; [exact Hres|]. split; [exact Hev|].
    apply Hnull. constructor.
Defined.

(** Two events before the boundary 5000 and two from it on. *)
Lemma time_range_filtering_witness :
  ∃ ranged full,
    (getUrlAnalytics utc_startOfDay "promo"
       (mkOptions (Some (ValidDate 5000)) None)
       (mkWorld [new_Url "promo" "https://example.com" 0]
          [mkClickEvent "promo" 1000 "10.0.0.xxx" None None None;
           mkClickEvent "promo" 5000 "10.0.1.xxx" None None None;
           mkClickEvent "other" 6000 "10.0.1.xxx" None None None;
           mkClickEvent "promo" 4999 "10.0.2.xxx" None None None;
           mkClickEvent "promo" 7000 "10.0.0.xxx" None None None]
          [] [] 0)).1 = Ok (Some ranged) ∧
    (getUrlAnalytics utc_startOfDay "promo" (mkOptions None None)
       (mkWorld [new_Url "promo" "https://example.com" 0]
          [mkClickEvent "promo" 1000 "10.0.0.xxx" None None None;
           mkClickEvent "promo" 5000 "10.0.1.xxx" None None None;
           mkClickEvent "other" 6000 "10.0.1.xxx" None None None;
           mkClickEvent "promo" 4999 "10.0.2.xxx" None None None;
           mkClickEvent "promo" 7000 "10.0.0.xxx" None None None]
          [] [] 0)).1 = Ok (Some full) ∧
    ua_totalClicks ranged = 2 ∧
    ua_totalClicks full = 2 + 2.
Proof.
  apply (proj2 (time_range_filtering utc_startOfDay "promo"
           (mkWorld [new_Url "promo" "https://example.com" 0]
              [mkClickEvent "promo" 1000 "10.0.0.xxx" None None None;
               mkClickEvent "promo" 5000 "10.0.1.xxx" None None None;
               mkClickEvent "other" 6000 "10.0.1.xxx" None None None;
               mkClickEvent "promo" 4999 "10.0.2.xxx" None None None;
               mkClickEvent "promo" 7000 "10.0.0.xxx" None None None]
              [] [] 0)
           (new_Url "promo" "https://example.com" 0) eq_refl
           (Forall_nil_2 _))
         5000%Z
         [mkClickEvent "promo" 1000 "10.0.0.xxx" None None None;
          mkClickEvent "promo" 4999 "10.0.2.xxx" None None None]
         [mkClickEvent "promo" 5000 "10.0.1.xxx" None None None;
          mkClickEvent "promo" 7000 "10.0.0.xxx" None None None]).
  - vm_compute. apply perm_skip, Permutation_swap.
  - repeat constructor; simpl; lia.
  - repeat constructor; simpl; lia.
Defined.

(** Both attempts to store the aggregate meet a version conflict: the
    call still returns normally, after two [save]s and one logged error. *)
Lemma recordClick_contained_witness :
  (recordClick plain_hostname utc_startOfDay 1000 "promo"
     (Some (mkClickData (Some "10.0.0.1") None None))
     (mkWorld [new_Url "promo" "https://example.com" 0] []
        ([None; None; None; None; Some (mkError "VersionError");
          None; None; Some (mkError "VersionError")] ++ []) [] 0)).1 = Ok tt ∧
  console
    (recordClick plain_hostname utc_startOfDay 1000 "promo"
       (Some (mkClickData (Some "10.0.0.1") None None))
       (mkWorld [new_Url "promo" "https://example.com" 0] []
          ([None; None; None; None; Some (mkError "VersionError");
            None; None; Some (mkError "VersionError")] ++ []) [] 0)).2
    = [] ++ [mkError "VersionError"] ∧
  urlSaves
    (recordClick plain_hostname utc_startOfDay 1000 "promo"
       (Some (mkClickData (Some "10.0.0.1") None None))
       (mkWorld [new_Url "promo" "https://example.com" 0] []
          ([None; None; None; None; Some (mkError "VersionError");
            None; None; Some (mkError "VersionError")] ++ []) [] 0)).2
    = 0 + 2.
Proof.
  destruct (recordClick_contained plain_hostname utc_startOfDay 1000 "promo"
              (Some (mkClickData (Some "10.0.0.1") None None))
              (mkWorld [new_Url "promo" "https://example.com" 0] []
                 ([None; None; None; None; Some (mkError "VersionError");
                   None; None; Some (mkError "VersionError")] ++ []) [] 0))
    as (Hres & _ & _ & Hfail).
  destruct (Hfail (mkClickData (Some "10.0.0.1") None None)
                  (new_Url "promo" "https://example.com" 0)
                  (mkError "VersionError") [] eq_refl eq_refl eq_refl)
    as (Hco & Hsv & _ & _).
  exact (conj Hres (conj Hco Hsv)).
Defined.

(** Two active links and an inactive one, limit 2. *)
Lemma popular_urls_witness :
  ∃ l,
    (getPopularUrls (Some 2%Z)
       (mkWorld
          [mkUrl "abc" "https://a.example" 0 0 true (mkAnalytics 5 1 None [] []);
           mkUrl "def" "https://b.example" 0 0 false (mkAnalytics 9 1 None [] []);
           mkUrl "ghi" "https://c.example" 0 0 true (mkAnalytics 7 1 None [] [])]
          [] [] [] 0)).1 = Ok l ∧
    length l = 2 ∧
    non_increasing (λ p, Z.of_nat (pu_totalClicks p)) l.
Proof.
  destruct (popular_urls
              (mkWorld
                 [mkUrl "abc" "https://a.example" 0 0 true (mkAnalytics 5 1 None [] []);
                  mkUrl "def" "https://b.example" 0 0 false (mkAnalytics 9 1 None [] []);
                  mkUrl "ghi" "https://c.example" 0 0 true (mkAnalytics 7 1 None [] [])]
                 [] [] [] 0) 2%Z)
    as ((l & Hl & Hlen & Hsorted & _) & _).
  - constructor.
  - lia.
  - exists l. split; [exact Hl|]. split; [exact Hlen|exact Hsorted].
Defined.

(** C9.  The code at the failing input.  The API documentation gives
    [limit] a maximum of 100 and the claim has the caller's limit clamped;
    the route does not do it: with 101 active links, a request with
    [limit=101] is answered with 101 entries. *)
Lemma popular_limit_not_clamped :
  ∃ l,
    (popular_route (Some 101%Z)
       (mkWorld
          ((λ i, new_Url (link_code i) "https://example.com" 0) <$> seq 0 101)
          [] [] [] 0)).1 = Ok l ∧
    length l = 101 ∧
    ¬ (length l ≤ 100).
Proof.
  eexists. split; [vm_compute; reflexivity|].
  split; [reflexivity|]. simpl. lia.
Qed.

End AnalyticsSpec.

(** * Further properties of the rate limiter *)

Module RateLimiterMore.
Import RateLimiter RateLimiterSpec.
Local Open Scope Z_scope.

Lemma set_store_eq rl s1 s2 : s1 = s2 → set_store rl s1 = set_store rl s2.
Proof. by intros ->. Qed.

(** An entry whose window has ended is treated as no entry. *)
Lemma checkLimit_expired now ip rl e :
  store rl !! ip = Some e → resetTime e ≤ now →
  checkLimit now ip rl =
    (mkInfo true (maxRequests rl - 1) (now + windowMs rl),
     set_store rl (<[ip := mkEntry 1 (now + windowMs rl)]> (store rl))).
Proof.
  intros H Hle. unfold checkLimit. rewrite H.
  by destruct (Z.leb_spec (resetTime e) now); [|lia].
Qed.

(** Inside an open window every call counts, allowed or not. *)
Lemma checks_counting ip times : ∀ rl c r,
  store rl !! ip = Some (mkEntry c r) →
  (∀ t, t ∈ times → t < r) →
  store (checks ip times rl).2 !! ip
    = Some (mkEntry (c + Z.of_nat (length times)) r) ∧
  maxRequests (checks ip times rl).2 = maxRequests rl ∧
  windowMs (checks ip times rl).2 = windowMs rl ∧
  ∀ i, (i < length times)%nat →
    (checks ip times rl).1 !! i
      = Some (mkInfo (c + 1 + Z.of_nat i <=? maxRequests rl)
                     (Z.max 0 (maxRequests rl - (c + 1 + Z.of_nat i))) r).
Proof.
  induction times as [|now times IH]; intros rl c r Hs Ht.
  - simpl. rewrite Z.add_0_r. repeat split; try done. intros i Hi. simpl in Hi. lia.
  - rewrite checks_cons.
    rewrite (checkLimit_within _ _ _ c r Hs) by (apply Ht; left).
    cbn [fst snd]. set (rl1 := set_store rl _).
    destruct (IH rl1 (c + 1) r) as (Hs' & Hm' & Hw' & Hinfos);
      [by subst rl1; simpl; rewrite lookup_insert_eq
      | by intros ? ?; apply Ht; right |].
    change (maxRequests rl1) with (maxRequests rl) in Hm', Hinfos.
    change (windowMs rl1) with (windowMs rl) in Hw'.
    rewrite Hs', Hm', Hw'.
    split; [f_equal; f_equal; simpl; lia|]. split; [done|]. split; [done|].
    intros [|i] Hi.
    + change (Z.of_nat 0) with 0. by rewrite Z.add_0_r.
    + replace (c + 1 + Z.of_nat (S i)) with (c + 1 + 1 + Z.of_nat i) by lia.
      apply Hinfos. simpl in Hi. lia.
Qed.

(** X1.  Counting in a window: with [maxRequests = N >= 1], however many
    calls a fresh key makes before its window ends, the [i]-th (from 0) is
    allowed exactly when [i < N] and reports [remaining = max(0, N - 1 - i)]
    and the same reset time; refused calls keep counting, and the entry
    ends up holding the number of calls made and the unchanged reset
    time. *)
Theorem window_counts_every_call ip rl t0 ts :
  1 ≤ maxRequests rl →
  store rl !! ip = None →
  (∀ t, t ∈ ts → t < t0 + windowMs rl) →
  (∀ i, (i < length (t0 :: ts))%nat →
     (checks ip (t0 :: ts) rl).1 !! i
       = Some (mkInfo (Z.of_nat i <? maxRequests rl)
                      (Z.max 0 (maxRequests rl - 1 - Z.of_nat i))
                      (t0 + windowMs rl))) ∧
  store (checks ip (t0 :: ts) rl).2 !! ip
    = Some (mkEntry (Z.of_nat (length (t0 :: ts))) (t0 + windowMs rl)).
Proof.
  intros Hm Hfresh Hin.
  rewrite checks_cons, (checkLimit_fresh _ _ _ Hfresh). cbn [fst snd].
  set (rl1 := set_store rl _).
  destruct (checks_counting ip ts rl1 1 (t0 + windowMs rl))
    as (Hs & Hm' & _ & Hinfos);
    [by subst rl1; simpl; rewrite lookup_insert_eq | done |].
  change (maxRequests rl1) with (maxRequests rl) in Hm', Hinfos.
  assert (∀ z, (z <? maxRequests rl) = (z + 1 <=? maxRequests rl)) as Hlt.
  { intros z. destruct (Z.ltb_spec z (maxRequests rl)),
                       (Z.leb_spec (z + 1) (maxRequests rl)); lia || done. }
  split.
  - intros [|i] Hi; simpl.
    + rewrite Hlt. do 2 f_equal; [|lia].
      symmetry. apply Z.leb_le. lia.
    + rewrite Hinfos by (simpl in Hi; lia). rewrite Hlt.
      do 2 f_equal; [f_equal|]; lia.
  - rewrite Hs. do 2 f_equal. simpl length. lia.
Qed.

Lemma window_counts_every_call_witness :
  (∀ i, (i < 4)%nat →
     (checks "203.0.113.7" [0; 10; 20; 30]
             (constructor (mkOptions (Some 1000) (Some 2) None))).1 !! i
       = Some (mkInfo (Z.of_nat i <? 2) (Z.max 0 (2 - 1 - Z.of_nat i))
                      (0 + 1000))) ∧
  store (checks "203.0.113.7" [0; 10; 20; 30]
                (constructor (mkOptions (Some 1000) (Some 2) None))).2
    !! "203.0.113.7"
    = Some (mkEntry (Z.of_nat 4) (0 + 1000)).
Proof.
  apply (window_counts_every_call "203.0.113.7"
           (constructor (mkOptions (Some 1000) (Some 2) None)) 0 [10; 20; 30]).
  - simpl. lia.
  - reflexivity.
  - intros t Ht.
    repeat (apply elem_of_cons in Ht as [->|Ht]; [simpl; lia|]).
    by apply elem_of_nil in Ht.
Defined.

(** X2.  Window reset: whatever a key did in its window, its first call
    at or after the reset time is answered as for a fresh key, allowed with
    [remaining = maxRequests - 1], and opens a window that ends
    [windowMs] later. *)
Theorem window_reset ip rl t0 ts tR :
  store rl !! ip = None →
  (∀ t, t ∈ ts → t < t0 + windowMs rl) →
  t0 + windowMs rl ≤ tR →
  (checks ip (t0 :: ts ++ [tR]) rl).1 !! length (t0 :: ts)
    = Some (mkInfo true (maxRequests rl - 1) (tR + windowMs rl)) ∧
  store (checks ip (t0 :: ts ++ [tR]) rl).2 !! ip
    = Some (mkEntry 1 (tR + windowMs rl)).
Proof.
  intros Hfresh Hin HtR.
  rewrite checks_cons, (checkLimit_fresh _ _ _ Hfresh). cbn [fst snd].
  set (rl1 := set_store rl _). rewrite checks_app.
  destruct (checks_counting ip ts rl1 1 (t0 + windowMs rl))
    as (Hs & Hm' & Hw' & _);
    [by subst rl1; simpl; rewrite lookup_insert_eq | done |].
  change (maxRequests rl1) with (maxRequests rl) in Hm'.
  change (windowMs rl1) with (windowMs rl) in Hw'.
  pose proof (checks_length ip ts rl1) as Hlen.
  set (run := checks ip ts rl1) in *.
  rewrite checks_cons, (checkLimit_expired _ _ _ _ Hs) by done.
  rewrite Hm', Hw'. cbn [fst snd checks]. split.
  - simpl. rewrite lookup_app_r by lia. by rewrite Hlen, Nat.sub_diag.
  - simpl. by rewrite lookup_insert_eq.
Qed.

Lemma window_reset_witness :
  (checks "203.0.113.7" (0 :: [10; 20] ++ [1000])
          (constructor (mkOptions (Some 1000) (Some 2) None))).1 !! 3%nat
    = Some (mkInfo true (2 - 1) (1000 + 1000)) ∧
  store (checks "203.0.113.7" (0 :: [10; 20] ++ [1000])
                (constructor (mkOptions (Some 1000) (Some 2) None))).2
    !! "203.0.113.7"
    = Some (mkEntry 1 (1000 + 1000)).
Proof.
  apply (window_reset "203.0.113.7"
           (constructor (mkOptions (Some 1000) (Some 2) None)) 0 [10; 20] 1000).
  - reflexivity.
  - intros t Ht.
    repeat (apply elem_of_cons in Ht as [->|Ht]; [simpl; lia|]).
    by apply elem_of_nil in Ht.
  - simpl. lia.
Defined.

Lemma checkLimit_answer now ip rl :
  checkLimit now ip rl =
    ((answer rl now (store rl !! ip)).1,
     set_store rl (<[ip := (answer rl now (store rl !! ip)).2]> (store rl))).
Proof.
  unfold checkLimit, answer.
  by destruct (store rl !! ip) as [e|]; [destruct (resetTime e <=? now)|].
Qed.

(** X3.  Keys are independent: a call for another key changes neither the
    answer a key gets nor, up to the order of the two calls, the limiter
    they leave behind. *)
Theorem keys_do_not_interfere ip ip' t t' rl :
  ip ≠ ip' →
  (checkLimit t ip (checkLimit t' ip' rl).2).1 = (checkLimit t ip rl).1 ∧
  (checkLimit t ip (checkLimit t' ip' rl).2).2
    = (checkLimit t' ip' (checkLimit t ip rl).2).2.
Proof.
  intros Hne.
  rewrite !checkLimit_answer. cbn [fst snd store set_store].
  rewrite !lookup_insert_ne by done.
  split; [done|].
  unfold set_store, answer. cbn [windowMs maxRequests enabled store].
  f_equal. by apply insert_insert_ne.
Qed.

Lemma keys_do_not_interfere_witness :
  (checkLimit 7 "10.0.0.1"
     (checkLimit 5 "10.0.0.2"
        (constructor (mkOptions (Some 1000) (Some 2) None))).2).1
    = (checkLimit 7 "10.0.0.1"
         (constructor (mkOptions (Some 1000) (Some 2) None))).1 ∧
  (checkLimit 7 "10.0.0.1"
     (checkLimit 5 "10.0.0.2"
        (constructor (mkOptions (Some 1000) (Some 2) None))).2).2
    = (checkLimit 5 "10.0.0.2"
         (checkLimit 7 "10.0.0.1"
            (constructor (mkOptions (Some 1000) (Some 2) None))).2).2.
Proof.
  apply (keys_do_not_interfere "10.0.0.1" "10.0.0.2" 7 5
           (constructor (mkOptions (Some 1000) (Some 2) None))).
  discriminate.
Defined.

Lemma cleanup_lookup now rl ip e :
  store (_cleanup now rl) !! ip = Some e ↔
  store rl !! ip = Some e ∧ now < resetTime e.
Proof.
  unfold _cleanup. simpl. rewrite map_lookup_filter_Some. simpl.
  split; intros [? ?]; split; (done || lia).
Qed.

(** X4.  The sweep: [_cleanup] keeps exactly the entries whose window is
    still open, and a later [checkLimit] cannot tell whether it ran: the
    answer and the key's new entry are the same with and without it. *)
Theorem cleanup_unobservable now now' ip rl :
  now ≤ now' →
  (∀ k e, store (_cleanup now rl) !! k = Some e ↔
          store rl !! k = Some e ∧ now < resetTime e) ∧
  (checkLimit now' ip (_cleanup now rl)).1 = (checkLimit now' ip rl).1 ∧
  store (checkLimit now' ip (_cleanup now rl)).2 !! ip
    = store (checkLimit now' ip rl).2 !! ip.
Proof.
  intros Hle. split; [intros k e; apply cleanup_lookup|].
  destruct (store rl !! ip) as [e|] eqn:He.
  - destruct (Z.lt_ge_cases now (resetTime e)) as [Hopen|Hclosed].
    + assert (store (_cleanup now rl) !! ip = Some e) as He'
        by (by apply cleanup_lookup).
      unfold checkLimit. rewrite He, He'.
      destruct (resetTime e <=? now'); simpl; by rewrite !lookup_insert_eq.
    + assert (store (_cleanup now rl) !! ip = None) as He'.
      { destruct (store (_cleanup now rl) !! ip) as [e'|] eqn:E; [|done].
        apply cleanup_lookup in E as [E ?]. rewrite He in E.
        injection E as <-. lia. }
      rewrite (checkLimit_fresh _ _ _ He'),
        (checkLimit_expired _ _ _ _ He) by lia.
      simpl. by rewrite !lookup_insert_eq.
  - assert (store (_cleanup now rl) !! ip = None) as He'.
    { destruct (store (_cleanup now rl) !! ip) as [e'|] eqn:E; [|done].
      apply cleanup_lookup in E as [E ?]. by rewrite He in E. }
    rewrite (checkLimit_fresh _ _ _ He'), (checkLimit_fresh _ _ _ He).
    simpl. by rewrite !lookup_insert_eq.
Qed.

Lemma cleanup_unobservable_witness :
  (checkLimit 2000 "10.0.0.1"
     (_cleanup 1500
        (checks "10.0.0.1" [0; 10]
                (constructor (mkOptions (Some 1000) (Some 2) None))).2)).1
  = (checkLimit 2000 "10.0.0.1"
       (checks "10.0.0.1" [0; 10]
               (constructor (mkOptions (Some 1000) (Some 2) None))).2).1.
Proof.
  apply (cleanup_unobservable 1500 2000 "10.0.0.1"
           (checks "10.0.0.1" [0; 10]
                   (constructor (mkOptions (Some 1000) (Some 2) None))).2).
  lia.
Defined.

Lemma checkLimit_counts_positive now ip rl :
  counts_positive rl → counts_positive (checkLimit now ip rl).2.
Proof.
  intros Hpos k e. unfold checkLimit.
  destruct (store rl !! ip) as [e0|] eqn:He0;
    [destruct (resetTime e0 <=? now)|]; simpl;
    (destruct (decide (ip = k)) as [->|Hne];
     [rewrite lookup_insert_eq; intros [= <-]; simpl
     |rewrite lookup_insert_ne by done; apply Hpos]); try lia.
  specialize (Hpos _ _ He0). lia.
Qed.

(** X5.  Quota headers: entries always hold a count of at least 1 (on a
    new limiter, and after [checkLimit], [_cleanup] and [reset]); so every
    request checked by an enabled limiter with [maxRequests = N >= 1] gets
    [X-RateLimit-Limit = N], [0 <= X-RateLimit-Remaining <= N - 1] and
    [X-RateLimit-Reset] the reset time in whole seconds, and gets
    [Retry-After] exactly when it is refused. *)
Theorem quota_headers_bounds :
  (∀ options, counts_positive (constructor options)) ∧
  (∀ now rl, counts_positive rl → counts_positive (_cleanup now rl)) ∧
  (∀ rl, counts_positive (reset rl)) ∧
  (∀ clk ip rl,
     enabled rl = true → 1 ≤ maxRequests rl → counts_positive rl →
     counts_positive (middleware clk ip rl).2 ∧
     ∃ info r,
       limitInfo (middleware clk ip rl).1 = Some info ∧
       X_RateLimit_Limit (headers (middleware clk ip rl).1)
         = Some (maxRequests rl) ∧
       X_RateLimit_Remaining (headers (middleware clk ip rl).1) = Some r ∧
       0 ≤ r ≤ maxRequests rl - 1 ∧
       X_RateLimit_Reset (headers (middleware clk ip rl).1)
         = Some (info_resetTime info / 1000) ∧
       (outcome (middleware clk ip rl).1 = Next ↔ allowed info = true) ∧
       (Retry_After (headers (middleware clk ip rl).1) = None
        ↔ allowed info = true)).
Proof.
  split; [|split; [|split]].
  - intros options k e. simpl. by rewrite lookup_empty.
  - intros now rl Hpos k e [He _]%cleanup_lookup. by apply (Hpos k).
  - intros rl k e. simpl. by rewrite lookup_empty.
  - intros clk ip rl He Hm Hpos.
    rewrite middleware_checked by (done || lia). cbn [fst snd].
    split; [by apply checkLimit_counts_positive|].
    exists (checkLimit (t_check clk) ip rl).1.
    exists (Z.max 0 (remaining (checkLimit (t_check clk) ip rl).1)).
    assert (remaining (checkLimit (t_check clk) ip rl).1 ≤ maxRequests rl - 1)
      as Hrem.
    { unfold checkLimit.
      destruct (store rl !! ip) as [e|] eqn:Hip;
        [destruct (resetTime e <=? t_check clk)|]; simpl; try lia.
      specialize (Hpos _ _ Hip). lia. }
    unfold respond.
    destruct (allowed (checkLimit (t_check clk) ip rl).1) eqn:Hal; simpl;
      (split; [done|]); (split; [done|]); (split; [done|]);
      (split; [lia|]); (split; [done|]); split; split; done.
Qed.

Lemma quota_headers_bounds_witness :
  ∃ info r,
    limitInfo (middleware (mkClock 5 5) "10.0.0.1"
                 (constructor (mkOptions (Some 1000) (Some 2) None))).1
      = Some info ∧
    X_RateLimit_Limit
      (headers (middleware (mkClock 5 5) "10.0.0.1"
                  (constructor (mkOptions (Some 1000) (Some 2) None))).1)
      = Some 2 ∧
    X_RateLimit_Remaining
      (headers (middleware (mkClock 5 5) "10.0.0.1"
                  (constructor (mkOptions (Some 1000) (Some 2) None))).1)
      = Some r ∧
    0 ≤ r ≤ 2 - 1.
Proof.
  destruct quota_headers_bounds as (Hnew & _ & _ & Hmw).
  destruct (Hmw (mkClock 5 5) "10.0.0.1"
              (constructor (mkOptions (Some 1000) (Some 2) None))
              eq_refl ltac:(simpl; lia)
              (Hnew (mkOptions (Some 1000) (Some 2) None)))
    as (_ & info & r & Hinfo & Hlimit & Hrem & Hbound & _).
  exists info, r. exact (conj Hinfo (conj Hlimit (conj Hrem Hbound))).
Defined.

Lemma ceil_div1000_pos_iff x : 0 < ceil_div1000 x ↔ 0 < x.
Proof.
  pose proof (proj1 (ceil_div1000_spec x _) eq_refl). lia.
Qed.

(** X6.  Sign of [Retry-After]: a refusal happens only inside the key's
    window (the clock read by [checkLimit] is before the reset time), and
    its [Retry-After] is the distance from the second clock reading to the
    reset time in seconds, rounded up; it is positive exactly when that
    second reading is still before the reset time, and 0 or negative when
    the window ended between the two readings. *)
Theorem retry_after_sign clk ip rl retryAfter :
  outcome (middleware clk ip rl).1 = NextRateLimitError retryAfter →
  ∃ info,
    limitInfo (middleware clk ip rl).1 = Some info ∧
    allowed info = false ∧
    t_check clk < info_resetTime info ∧
    retryAfter = ceil_div1000 (info_resetTime info - t_retry clk) ∧
    Retry_After (headers (middleware clk ip rl).1) = Some retryAfter ∧
    (0 < retryAfter ↔ t_retry clk < info_resetTime info).
Proof.
  unfold middleware.
  destruct (negb (enabled rl) || (maxRequests rl <=? 0)); [done|].
  assert (allowed (checkLimit (t_check clk) ip rl).1 = false →
          t_check clk < info_resetTime (checkLimit (t_check clk) ip rl).1)
    as Hinside.
  { unfold checkLimit.
    destruct (store rl !! ip) as [e|];
      [destruct (Z.leb_spec (resetTime e) (t_check clk))|]; simpl; done. }
  destruct (checkLimit (t_check clk) ip rl) as [info rl']. simpl in *.
  destruct (allowed info) eqn:Hal; simpl; [done|].
  intros [= <-]. exists info.
  repeat (split; [done || by apply Hinside|]).
  rewrite ceil_div1000_pos_iff. lia.
Qed.

(** The window of 1000 ms ends between the two clock readings: the
    refusal carries [Retry-After: 0]. *)
Lemma retry_after_sign_witness :
  ∃ info,
    limitInfo
      (middleware (mkClock 999 1000) "10.0.0.1"
         (checks "10.0.0.1" [0]
                 (constructor (mkOptions (Some 1000) (Some 1) None))).2).1
      = Some info ∧
    allowed info = false ∧
    999 < info_resetTime info ∧
    0 = ceil_div1000 (info_resetTime info - 1000) ∧
    Retry_After
      (headers
         (middleware (mkClock 999 1000) "10.0.0.1"
            (checks "10.0.0.1" [0]
                    (constructor (mkOptions (Some 1000) (Some 1) None))).2).1)
      = Some 0 ∧
    (0 < 0 ↔ 1000 < info_resetTime info).
Proof.
  apply (retry_after_sign (mkClock 999 1000) "10.0.0.1"
           (checks "10.0.0.1" [0]
                   (constructor (mkOptions (Some 1000) (Some 1) None))).2 0).
  vm_compute. reflexivity.
Defined.

(** X7.  Configuration from the environment: [createRateLimiter] always
    builds a limiter with an empty store, a window of at least 1 ms and
    [maxRequests >= 1]; an unset, unparsable, zero or negative value gives
    the default (60000, 10), so [RATE_LIMIT_MAX_REQUESTS=0] does not switch
    the limiter off; only [RATE_LIMIT_ENABLED=false] disables it. *)
Theorem createRateLimiter_config env :
  store (createRateLimiter env) = ∅ ∧
  1 ≤ windowMs (createRateLimiter env) ∧
  1 ≤ maxRequests (createRateLimiter env) ∧
  windowMs (createRateLimiter env)
    = match RATE_LIMIT_WINDOW_MS env with
      | Int z => if 0 <? z then z else 60000
      | NaN => 60000
      end ∧
  maxRequests (createRateLimiter env)
    = match RATE_LIMIT_MAX_REQUESTS env with
      | Int z => if 0 <? z then z else 10
      | NaN => 10
      end ∧
  (enabled (createRateLimiter env) = false
   ↔ RATE_LIMIT_ENABLED env = Some "false"%string) ∧
  (RATE_LIMIT_ENABLED env ≠ Some "false"%string →
   ∀ clk ip, limitInfo (middleware clk ip (createRateLimiter env)).1 ≠ None).
Proof.
  assert (windowMs (createRateLimiter env)
          = match RATE_LIMIT_WINDOW_MS env with
            | Int z => if 0 <? z then z else 60000
            | NaN => 60000
            end) as Hw.
  { unfold createRateLimiter, or_number. simpl.
    destruct (RATE_LIMIT_WINDOW_MS env) as [|z]; [done|].
    destruct (Z.eqb_spec z 0) as [->|]; [done|].
    destruct (Z.ltb_spec z 0), (Z.ltb_spec 0 z); try lia; simpl; try done.
    by destruct (Z.eqb_spec z 0). }
  assert (maxRequests (createRateLimiter env)
          = match RATE_LIMIT_MAX_REQUESTS env with
            | Int z => if 0 <? z then z else 10
            | NaN => 10
            end) as Hm.
  { unfold createRateLimiter, or_number. simpl.
    destruct (RATE_LIMIT_MAX_REQUESTS env) as [|z]; [done|].
    destruct (Z.eqb_spec z 0) as [->|]; [done|].
    destruct (Z.ltb_spec z 0), (Z.ltb_spec 0 z); lia || done. }
  assert (enabled (createRateLimiter env) = false
          ↔ RATE_LIMIT_ENABLED env = Some "false"%string) as He.
  { unfold createRateLimiter. simpl.
    destruct (bool_decide_reflect (RATE_LIMIT_ENABLED env = Some "false"%string));
      simpl; split; done. }
  assert (1 ≤ maxRequests (createRateLimiter env)) as Hm1.
  { rewrite Hm. destruct (RATE_LIMIT_MAX_REQUESTS env) as [|z]; [lia|].
    destruct (Z.ltb_spec 0 z); lia. }
  split; [done|]. split.
  { rewrite Hw. destruct (RATE_LIMIT_WINDOW_MS env) as [|z]; [lia|].
    destruct (Z.ltb_spec 0 z); lia. }
  split; [done|]. split; [done|]. split; [done|]. split; [done|].
  intros Hon clk ip.
  assert (enabled (createRateLimiter env) = true) as Hen.
  { destruct (enabled (createRateLimiter env)); [done|].
    exfalso. by apply Hon, He. }
  rewrite middleware_checked by (done || lia).
  cbn [fst]. unfold respond. by destruct (allowed _).
Qed.

(** [RATE_LIMIT_MAX_REQUESTS=0] and nothing else set: requests are
    checked. *)
Lemma createRateLimiter_config_witness :
  limitInfo (middleware (mkClock 0 0) "10.0.0.1"
               (createRateLimiter (mkEnv NaN (Int 0) None))).1 ≠ None.
Proof.
  refine (proj2 (proj2 (proj2 (proj2 (proj2 (proj2
            (createRateLimiter_config (mkEnv NaN (Int 0) None)))))))
            _ (mkClock 0 0) "10.0.0.1").
  discriminate.
Defined.

End RateLimiterMore.

(** * Properties at the HTTP boundary *)

Module HttpSpec.
Import RateLimiter RateLimiterSpec Http.
Local Open Scope Z_scope.

Lemma head_split_sep_free sep p :
  AnalyticsService.sep_free sep p →
  head (AnalyticsService.split sep p) = Some p.
Proof. intros H. by rewrite (AnonymizerSpec.split_sep_free sep p H). Qed.

Lemma head_split_app sep p rest :
  AnalyticsService.sep_free sep p →
  head (AnalyticsService.split sep (p +:+ String sep rest)) = Some p.
Proof. intros H. by rewrite (AnonymizerSpec.split_app_sep sep p rest H). Qed.

Section ClientIp.

Variable trim : string → string.

(** X8.  Client key: with a non-empty [x-forwarded-for] header the key is
    the trimmed text before its first comma, whatever follows the comma
    and whatever the socket address is; so two requests whose headers
    start with the same element share one quota.  Without the header the
    key is [req.ip], else the socket's remote address, else
    ["unknown"]. *)
Theorem client_key_is_first_forwarded first :
  AnalyticsService.sep_free "," first →
  (∀ rest ip remote,
     _getClientIp trim
       (mkRequest (Some (first +:+ String "," rest)) ip remote)
       = trim first) ∧
  (first ≠ "" →
   ∀ ip remote,
     _getClientIp trim (mkRequest (Some first) ip remote) = trim first) ∧
  (∀ clk rl rest rest' ip ip' remote remote',
     middleware_on trim clk
       (mkRequest (Some (first +:+ String "," rest)) ip remote) rl
     = middleware_on trim clk
         (mkRequest (Some (first +:+ String "," rest')) ip' remote') rl) ∧
  (∀ header ip remote,
     header = None ∨ header = Some ""%string →
     _getClientIp trim (mkRequest header ip remote)
       = AnalyticsService.or_default ip
           (AnalyticsService.or_default remote "unknown")).
Proof.
  intros Hfree.
  assert (∀ rest ip remote,
            _getClientIp trim
              (mkRequest (Some (first +:+ String "," rest)) ip remote)
            = trim first) as Hkey.
  { intros rest ip remote. unfold _getClientIp. cbn [x_forwarded_for].
    destruct (first +:+ String "," rest) as [|c s] eqn:E.
    { by destruct first. }
    cbv iota beta. by rewrite <- E, head_split_app. }
  split; [done|]. split; [|split].
  - intros Hne ip remote. unfold _getClientIp. cbn [x_forwarded_for].
    destruct first as [|c s]; [done|].
    cbv iota beta. by rewrite head_split_sep_free.
  - intros. unfold middleware_on. by rewrite !Hkey.
  - by intros header ip remote [-> | ->].
Qed.

End ClientIp.

(** The forwarded list of the limiter's own test; its first element has no
    space around it, so the identity can stand in for [trim]. *)
Lemma client_key_is_first_forwarded_witness :
  _getClientIp (λ s, s)
    (mkRequest (Some ("203.0.113.1" +:+ String "," " 198.51.100.1"))
               (Some "10.0.0.1") None)
  = "203.0.113.1".
Proof.
  apply (proj1 (client_key_is_first_forwarded (λ s, s) "203.0.113.1" eq_refl)).
Defined.

(** X9.  A refusal on the wire: whenever the limiter's middleware refuses
    a request, the error handler answers 429 with the limiter's message,
    logs a warning, and repeats in [details.retryAfter] the value of the
    [Retry-After] header, leaving [details] out when that value is 0; a
    request that is passed on reaches no error response. *)
Theorem refusal_is_429 clk ip rl :
  match outcome (middleware clk ip rl).1 with
  | Next => error_response (outcome (middleware clk ip rl).1) = None
  | NextRateLimitError retryAfter =>
      Retry_After (headers (middleware clk ip rl).1) = Some retryAfter ∧
      error_response (outcome (middleware clk ip rl).1)
        = Some (mkHttpResponse 429 false
                  "Too many requests, please try again later"
                  (if retryAfter =? 0 then None
                   else Some (DetailsRetryAfter retryAfter))
                  (Some LogWarn))
  end.
Proof.
  unfold middleware.
  destruct (negb (enabled rl) || (maxRequests rl <=? 0)); [done|].
  destruct (checkLimit (t_check clk) ip rl) as [info rl'].
  destruct (allowed info); simpl; [done|].
  split; [done|].
  unfold error_response, errorHandler. simpl.
  by destruct (_ =? 0)%Z.
Qed.

(** X10.  Status and log level of the error handler: an error named after
    one of the five error classes gets that class's status (400, 404, 409,
    429, 503) whatever [statusCode] it carries, and its message verbatim;
    any error answered with 500 or more is logged as an error, any other
    answered with 400 or more as a warning, and a status below 400 can only
    come from an error of no known kind that carries that status
    itself. *)
Theorem errorHandler_status err :
  (err_name err = "ValidationError"%string →
   status (errorHandler err) = 400 ∧ error (errorHandler err) = err_message err) ∧
  (err_name err = "NotFoundError"%string →
   status (errorHandler err) = 404 ∧ error (errorHandler err) = err_message err) ∧
  (err_name err = "ConflictError"%string →
   status (errorHandler err) = 409 ∧ error (errorHandler err) = err_message err) ∧
  (err_name err = "RateLimitError"%string →
   status (errorHandler err) = 429 ∧ error (errorHandler err) = err_message err) ∧
  (err_name err = "DatabaseError"%string →
   status (errorHandler err) = 503 ∧ error (errorHandler err) = err_message err) ∧
  success (errorHandler err) = false ∧
  (logged (errorHandler err) = Some LogError ↔ (500 ≤ status (errorHandler err))%Z) ∧
  (logged (errorHandler err) = Some LogWarn
   ↔ (400 ≤ status (errorHandler err) < 500)%Z) ∧
  ((status (errorHandler err) < 400)%Z →
   err_statusCode err = Some (status (errorHandler err)) ∧
   details (errorHandler err) = None).
Proof.
  unfold errorHandler.
  repeat match goal with
         | |- context [String.eqb (err_name err) ?s] =>
             destruct (String.eqb_spec (err_name err) s) as [->|?]
         end;
    try (simpl; repeat split; (done || lia || discriminate || congruence)).
  destruct (bool_decide _);
    [simpl; repeat split; (done || lia || discriminate || congruence)|].
  unfold truthy_number.
  destruct (err_statusCode err) as [z|]; simpl;
    [destruct (Z.eqb_spec z 0); simpl|];
    repeat match goal with
           | |- context [(?a <=? ?b)%Z] => destruct (Z.leb_spec a b)
           end;
    simpl; repeat split; try (done || lia || discriminate || congruence).
Qed.

Lemma errorHandler_status_witness :
  status (errorHandler
            (mkJsError "NotFoundError" "Short URL not found" (Some 500%Z)
                       None None None None None)) = 404%Z ∧
  error (errorHandler
           (mkJsError "NotFoundError" "Short URL not found" (Some 500%Z)
                      None None None None None)) = "Short URL not found"%string.
Proof.
  apply (errorHandler_status
           (mkJsError "NotFoundError" "Short URL not found" (Some 500%Z)
                      None None None None None)).
  reflexivity.
Defined.

End HttpSpec.

(** * Further properties of the event anonymizer *)

Module AnonymizerMore.
Import AnalyticsService AnonymizerSpec.
Local Open Scope string_scope.

Lemma string_app_assoc (a b c : string) : (a ++ b) ++ c = a ++ (b ++ c).
Proof.
  induction a as [|x a IH]; [done|].
  change (String x ((a ++ b) ++ c) = String x (a ++ (b ++ c))). by f_equal.
Qed.

Lemma string_app_nonempty_r (a b : string) : b ≠ "" → a ++ b ≠ "".
Proof. intros Hb. by destruct a. Qed.

(** Only a string without the separator splits into one part. *)
Lemma split_length_includes sep s :
  (2 ≤ length (split sep s))%nat → includes (String sep EmptyString) s = true.
Proof.
  intros Hlen.
  destruct (includes (String sep EmptyString) s) eqn:E; [done|].
  rewrite (split_sep_free sep s E) in Hlen. simpl in Hlen. lia.
Qed.

Lemma join_app sep (l1 l2 : list string) :
  l1 ≠ [] → l2 ≠ [] →
  join sep (l1 ++ l2)%list = join sep l1 ++ sep ++ join sep l2.
Proof.
  intros H1 H2. unfold join.
  induction l1 as [|x l1 IH]; [done|].
  destruct l1 as [|y l1].
  - simpl. by destruct l2.
  - change (String.concat sep ((x :: y :: l1) ++ l2)%list)
      with (x ++ sep ++ String.concat sep ((y :: l1) ++ l2)%list).
    rewrite IH by done.
    change (String.concat sep (x :: y :: l1))
      with (x ++ sep ++ String.concat sep (y :: l1)).
    by rewrite !string_app_assoc.
Qed.

(** The fall-through of [_anonymizeIp] for a string without four dotted
    parts. *)
Lemma anonymizeIp_not_ipv4 c ip :
  length (split "." (String c ip)) ≠ 4%nat →
  _anonymizeIp (Some (String c ip)) =
    if includes ":" (String c ip)
    then if (4 <=? length (split ":" (String c ip)))%nat
         then join ":" (take 4 (split ":" (String c ip)))
                ++ ":xxxx:xxxx:xxxx:xxxx"
         else "unknown"
    else "unknown".
Proof.
  intros Hlen. unfold _anonymizeIp.
  destruct (split "." (String c ip)) as [|q0 [|q1 [|q2 [|q3 [|q4 qs]]]]];
    try reflexivity.
  by simpl in Hlen.
Qed.

Lemma anonymizeIp_four_parts ip p0 p1 p2 p3 :
  split "." ip = [p0; p1; p2; p3] →
  _anonymizeIp (Some ip) = p0 ++ "." ++ p1 ++ "." ++ p2 ++ ".xxx".
Proof.
  intros Hsplit. destruct ip as [|c ip]; [discriminate|].
  unfold _anonymizeIp. by rewrite Hsplit.
Qed.

(** X11.  Masking IPv4 is many-to-one and stable: two dotted quads that
    differ only in their last part are masked to the same string, masking a
    masked address changes nothing, and ["unknown"] is masked to
    itself. *)
Theorem ipv4_masking_collapses_last_octet p0 p1 p2 :
  sep_free "." p0 → sep_free "." p1 → sep_free "." p2 →
  (∀ d d',
     sep_free "." d → sep_free "." d' →
     _anonymizeIp (Some (p0 ++ "." ++ p1 ++ "." ++ p2 ++ "." ++ d))
       = _anonymizeIp (Some (p0 ++ "." ++ p1 ++ "." ++ p2 ++ "." ++ d'))) ∧
  (∀ d,
     sep_free "." d →
     _anonymizeIp
       (Some (_anonymizeIp (Some (p0 ++ "." ++ p1 ++ "." ++ p2 ++ "." ++ d))))
       = _anonymizeIp (Some (p0 ++ "." ++ p1 ++ "." ++ p2 ++ "." ++ d))) ∧
  _anonymizeIp (Some (_anonymizeIp None)) = _anonymizeIp None.
Proof.
  intros H0 H1 H2.
  assert (∀ d, sep_free "." d →
            _anonymizeIp (Some (p0 ++ "." ++ p1 ++ "." ++ p2 ++ "." ++ d))
            = p0 ++ "." ++ p1 ++ "." ++ p2 ++ ".xxx") as Hmask.
  { intros d Hd.
    apply (anonymizeIp_four_parts _ p0 p1 p2 d).
    apply (split_join "." [p0; p1; p2; d]); [done|by repeat constructor]. }
  split; [|split].
  - intros d d' Hd Hd'. by rewrite !Hmask.
  - intros d Hd. rewrite (Hmask d Hd).
    change (p0 ++ "." ++ p1 ++ "." ++ p2 ++ ".xxx")
      with (p0 ++ "." ++ p1 ++ "." ++ p2 ++ "." ++ "xxx").
    by apply Hmask.
  - reflexivity.
Qed.

Lemma ipv4_masking_collapses_last_octet_witness :
  _anonymizeIp (Some ("192" ++ "." ++ "168" ++ "." ++ "17" ++ "." ++ "42"))
  = _anonymizeIp (Some ("192" ++ "." ++ "168" ++ "." ++ "17" ++ "." ++ "7")).
Proof.
  apply (proj1 (ipv4_masking_collapses_last_octet "192" "168" "17"
                  eq_refl eq_refl eq_refl) "42" "7" eq_refl eq_refl).
Defined.

(** X12.  Masking IPv6: a string that has not four dotted parts and splits
    on [":"] into at least four groups is masked to its first four groups
    followed by four groups ["xxxx"], eight groups in all; nothing is
    removed from a string of exactly four groups, which is kept whole in
    front of the sentinel groups. *)
Theorem ipv6_masking_keeps_four_groups ip :
  length (split "." ip) ≠ 4%nat →
  (4 ≤ length (split ":" ip))%nat →
  _anonymizeIp (Some ip)
    = join ":" (take 4 (split ":" ip)) ++ ":xxxx:xxxx:xxxx:xxxx" ∧
  split ":" (_anonymizeIp (Some ip))
    = (take 4 (split ":" ip) ++ ["xxxx"; "xxxx"; "xxxx"; "xxxx"])%list ∧
  (length (split ":" ip) = 4%nat →
   _anonymizeIp (Some ip) = ip ++ ":xxxx:xxxx:xxxx:xxxx").
Proof.
  intros Hdots Hgroups.
  assert (_anonymizeIp (Some ip)
          = join ":" (take 4 (split ":" ip)) ++ ":xxxx:xxxx:xxxx:xxxx") as Hmask.
  { destruct ip as [|c ip]; [simpl in Hgroups; lia|].
    rewrite anonymizeIp_not_ipv4 by done.
    rewrite (split_length_includes ":" (String c ip)) by lia.
    by destruct (Nat.leb_spec 4 (length (split ":" (String c ip)))); [|lia]. }
  split; [done|]. split.
  - rewrite Hmask.
    assert (take 4 (split ":" ip) ≠ []) as Hne.
    { destruct (split ":" ip); [simpl in Hgroups; lia|done]. }
    change (":xxxx:xxxx:xxxx:xxxx")
      with (":" ++ join ":" ["xxxx"; "xxxx"; "xxxx"; "xxxx"]).
    rewrite <- join_app by done.
    apply split_join.
    + by destruct (take 4 (split ":" ip)).
    + apply Forall_app. split.
      * apply Forall_take, split_parts_sep_free.
      * by repeat constructor.
  - intros Hfour. rewrite Hmask.
    rewrite firstn_all2 by lia. by rewrite join_split.
Qed.

(** A full address, and a compressed one whose four groups are all
    kept. *)
Lemma ipv6_masking_keeps_four_groups_witness :
  _anonymizeIp (Some "2001:db8:85a3:0:0:8a2e:370:7334")
    = "2001:db8:85a3:0:xxxx:xxxx:xxxx:xxxx" ∧
  _anonymizeIp (Some "2001:db8::1")
    = "2001:db8::1" ++ ":xxxx:xxxx:xxxx:xxxx".
Proof.
  split.
  - apply (ipv6_masking_keeps_four_groups "2001:db8:85a3:0:0:8a2e:370:7334").
    + simpl. discriminate.
    + simpl. lia.
  - apply (ipv6_masking_keeps_four_groups "2001:db8::1").
    + simpl. discriminate.
    + simpl. lia.
    + reflexivity.
Defined.

(** X13.  Closed label sets: for every user-agent string the browser label
    is one of Chrome, Firefox, Safari, Edge, Opera, Unknown and the
    operating-system label one of Windows, macOS, Linux, Android, iOS,
    Unknown; an empty string gives Unknown twice; and no masked address is
    empty. *)
Theorem labels_are_closed :
  (∀ ua,
     ua_browser (_parseUserAgent ua)
       ∈ ["Chrome"; "Firefox"; "Safari"; "Edge"; "Opera"; "Unknown"] ∧
     ua_os (_parseUserAgent ua)
       ∈ ["Windows"; "macOS"; "Linux"; "Android"; "iOS"; "Unknown"]) ∧
  _parseUserAgent "" = mkUserAgent "Unknown" "Unknown" ∧
  (∀ ip, _anonymizeIp ip ≠ "").
Proof.
  split; [|split; [done|]].
  - intros ua. destruct ua as [|c ua].
    { simpl. split; set_solver. }
    unfold _parseUserAgent. cbn [ua_browser ua_os].
    split.
    + destruct (includes "Edg/" (String c ua)),
               (includes "Chrome/" (String c ua)),
               (includes "Firefox/" (String c ua)),
               (includes "Safari/" (String c ua)),
               (includes "Chrome" (String c ua)),
               (includes "Opera/" (String c ua)),
               (includes "OPR/" (String c ua)); simpl;
        repeat (first [apply list_elem_of_here | apply list_elem_of_further]).
    + destruct (includes "Windows NT" (String c ua)),
               (includes "Mac OS X" (String c ua)),
               (includes "Linux" (String c ua)),
               (includes "Android" (String c ua)),
               (includes "iPhone" (String c ua)),
               (includes "iPad" (String c ua)); simpl;
        repeat (first [apply list_elem_of_here | apply list_elem_of_further]).
  - intros [[|c ip]|]; [done| |done].
    destruct (Nat.eq_dec (length (split "." (String c ip))) 4) as [Hfour|Hnot].
    + destruct (split "." (String c ip)) as [|q0 [|q1 [|q2 [|q3 [|q4 qs]]]]] eqn:E;
        try (simpl in Hfour; lia).
      rewrite (anonymizeIp_four_parts _ _ _ _ _ E).
      rewrite <- !string_app_assoc. by apply string_app_nonempty_r.
    + rewrite anonymizeIp_not_ipv4 by done.
      destruct (includes ":" (String c ip)); [|done].
      destruct (4 <=? length (split ":" (String c ip)))%nat; [|done].
      by apply string_app_nonempty_r.
Qed.

(** X14.  Operating-system precedence: the tests run in the order Windows,
    macOS, Linux, Android, iOS, so a user agent containing ["Linux"] is
    never labelled Android and one containing ["Mac OS X"] never iOS; the
    label Android, and the label iOS, is given only when none of the earlier
    tokens occurs. *)
Theorem os_precedence ua :
  (includes "Linux" ua = true → ua_os (_parseUserAgent ua) ≠ "Android") ∧
  (includes "Mac OS X" ua = true → ua_os (_parseUserAgent ua) ≠ "iOS") ∧
  (ua_os (_parseUserAgent ua) = "Android" →
   includes "Windows NT" ua = false ∧ includes "Mac OS X" ua = false ∧
   includes "Linux" ua = false ∧ includes "Android" ua = true) ∧
  (ua_os (_parseUserAgent ua) = "iOS" →
   includes "Windows NT" ua = false ∧ includes "Mac OS X" ua = false ∧
   includes "Linux" ua = false ∧ includes "Android" ua = false).
Proof.
  destruct ua as [|c ua]; [by repeat split|].
  unfold _parseUserAgent. cbn [ua_os].
  destruct (includes "Windows NT" (String c ua)),
           (includes "Mac OS X" (String c ua)),
           (includes "Linux" (String c ua)),
           (includes "Android" (String c ua)),
           (includes "iPhone" (String c ua)),
           (includes "iPad" (String c ua));
    simpl; repeat split; intros; try done.
Qed.

Lemma os_precedence_witness :
  ua_os (_parseUserAgent
    "Mozilla/5.0 (Linux; Android 13; Pixel 7) AppleWebKit/537.36 (KHTML, like Gecko) Chrome/120.0.0.0 Mobile Safari/537.36")
    ≠ "Android" ∧
  ua_os (_parseUserAgent
    "Mozilla/5.0 (iPhone; CPU iPhone OS 17_1 like Mac OS X) AppleWebKit/605.1.15 (KHTML, like Gecko) Version/17.1 Mobile/15E148 Safari/604.1")
    ≠ "iOS".
Proof.
  split.
  - apply (proj1 (os_precedence
      "Mozilla/5.0 (Linux; Android 13; Pixel 7) AppleWebKit/537.36 (KHTML, like Gecko) Chrome/120.0.0.0 Mobile Safari/537.36")).
    reflexivity.
  - apply (proj1 (proj2 (os_precedence
      "Mozilla/5.0 (iPhone; CPU iPhone OS 17_1 like Mac OS X) AppleWebKit/605.1.15 (KHTML, like Gecko) Version/17.1 Mobile/15E148 Safari/604.1"))).
    reflexivity.
Defined.

End AnonymizerMore.

(** * Further properties of the analytics service *)

Module AnalyticsMore.
Import AnalyticsService ListFacts AnalyticsSpec.

(** ** Sorting and counting, continued *)

Section Sorting.
Context {A : Type} (f : A → Z).

(** A stable sort leaves a sorted list as it is. *)
Lemma sort_desc_id l : non_increasing f l → sort_desc f l = l.
Proof.
  unfold non_increasing. induction 1 as [|x l Hl IH Hx]; simpl; [done|].
  rewrite IH. by apply insert_desc_front.
Qed.



(** An element larger than every other, pushed last, comes first. *)
Lemma sort_desc_snoc_max x l :
  Forall (λ y, (f y < f x)%Z) l →
  sort_desc f (l ++ [x]) = x :: sort_desc f l.
Proof.
  induction 1 as [|y l Hy _ IH]; simpl; [done|].
  rewrite IH. simpl. by destruct (Z.leb_spec (f x) (f y)); [lia|].
Qed.

End Sorting.


Lemma total_count_perm {K} (l1 l2 : list (Counted K)) :
  l1 ≡ₚ l2 → total_count l1 = total_count l2.
Proof. unfold total_count. by intros ->. Qed.

Lemma total_count_take {K} n (l : list (Counted K)) :
  total_count (take n l) ≤ total_count l.
Proof.
  unfold total_count. revert n.
  induction l as [|c l IH]; intros [|n]; simpl; try lia.
  specialize (IH n). lia.
Qed.

Lemma total_count_sort {K} (f : Counted K → Z) l :
  total_count (sort_desc f l) = total_count l.
Proof. apply total_count_perm, sort_desc_perm. Qed.

Section Bump.
Context {K : Type} (eqb : K → K → bool).
Hypothesis eqb_eq : ∀ x y, eqb x y = true ↔ x = y.

Lemma bump_absent k l :
  Forall (λ c, key c ≠ k) l → bump eqb k l = l ++ [mkCounted k 1].
Proof.
  induction 1 as [|c l Hc _ IH]; simpl; [done|].
  destruct (eqb (key c) k) eqn:E; [by apply eqb_eq in E|]. by rewrite IH.
Qed.


Lemma bump_total k l : total_count (bump eqb k l) = S (total_count l).
Proof.
  unfold total_count. induction l as [|c l IH]; simpl; [done|].
  destruct (eqb (key c) k); simpl; [lia|]. rewrite IH. lia.
Qed.

Lemma bump_keys k l :
  ∀ k', k' ∈ key <$> bump eqb k l ↔ k' = k ∨ k' ∈ key <$> l.
Proof.
  intros k'. induction l as [|c l IH].
  - change (k' ∈ [k] ↔ k' = k ∨ k' ∈ []). rewrite elem_of_cons.
    split; (intros [?|H]; [by left|by apply elem_of_nil in H]).
  - simpl bump. destruct (eqb (key c) k) eqn:E;
      rewrite !fmap_cons, !elem_of_cons.
    + apply eqb_eq in E. simpl. split; [tauto|]. intros [->|H]; [by left|done].
    + rewrite IH. tauto.
Qed.

End Bump.

(** ** The two lists of the aggregate *)



Section Days.

Variable startOfDay : Z → Z.

(** X16.  [_updateClicksByDay] on a list kept in order (latest day first):
    a click on a day later than every listed day puts that day, with count
    1, at the head and keeps at most the 29 latest of the others, so the
    oldest of 30 days is dropped; a click on the day at the head raises that
    day's count and changes nothing else. *)
Theorem clicks_by_day_update a timestamp :
  non_increasing by_date (clicksByDay a) →
  (Forall (λ c, (key c < startOfDay timestamp)%Z) (clicksByDay a) →
   clicksByDay (_updateClicksByDay startOfDay a timestamp)
     = mkCounted (startOfDay timestamp) 1 :: take 29 (clicksByDay a)) ∧
  (∀ c rest,
     clicksByDay a = c :: rest → key c = startOfDay timestamp →
     length (clicksByDay a) ≤ 30 →
     clicksByDay (_updateClicksByDay startOfDay a timestamp)
       = mkCounted (key c) (count c + 1) :: rest).
Proof.
  intros Hsorted. unfold _updateClicksByDay. cbn [clicksByDay]. split.
  - intros Hlater.
    rewrite (bump_absent Z.eqb Z.eqb_eq).
    + rewrite sort_desc_snoc_max by done.
      rewrite (sort_desc_id _ _ Hsorted). done.
    + eapply Forall_impl; [exact Hlater|]. intros c Hc. simpl in Hc. lia.
  - intros c rest Hlist Hkey Hlen. rewrite Hlist in *. simpl.
    rewrite Hkey, Z.eqb_refl. rewrite <- Hkey.
    rewrite sort_desc_id.
    + apply take_ge. simpl in *. lia.
    + unfold non_increasing in *.
      inversion Hsorted as [|? ? Hrest Hall]; subst.
      constructor; [done|]. exact Hall.
Qed.

End Days.

(** Three listed days and a click on the next day. *)
Lemma clicks_by_day_update_witness :
  clicksByDay
    (_updateClicksByDay utc_startOfDay
       (mkAnalytics 3 1 None []
          [mkCounted (2 * msPerDay)%Z 1; mkCounted msPerDay 1; mkCounted 0%Z 1])
       (3 * msPerDay + 5)%Z)
  = mkCounted (utc_startOfDay (3 * msPerDay + 5)%Z) 1
      :: take 29 [mkCounted (2 * msPerDay)%Z 1; mkCounted msPerDay 1;
                  mkCounted 0%Z 1].
Proof.
  refine (proj1 (clicks_by_day_update utc_startOfDay
            (mkAnalytics 3 1 None []
               [mkCounted (2 * msPerDay)%Z 1; mkCounted msPerDay 1;
                mkCounted 0%Z 1])
            (3 * msPerDay + 5)%Z _) _).
  - unfold non_increasing, by_date, msPerDay. cbn [clicksByDay].
    repeat constructor; cbn [key]; lia.
  - unfold utc_startOfDay, msPerDay. cbn [clicksByDay].
    repeat constructor; cbn [key]; lia.
Defined.

(** ** What [recordClick] writes and what it leaves alone *)

Lemma findOne_elem_of code us doc : findOne code us = Some doc → doc ∈ us.
Proof.
  unfold findOne. intros H. apply find_some in H as [H _].
  by apply list_elem_of_In.
Qed.

Lemma replace_url_shortCodes doc us :
  shortCode <$> replace_url doc us = shortCode <$> us.
Proof.
  unfold replace_url. induction us as [|u us IH]; [done|].
  cbn [map]. rewrite !fmap_cons, IH. f_equal.
  by destruct (String.eqb_spec (shortCode u) (shortCode doc)) as [->|].
Qed.

Lemma replace_url_Forall (P : Url → Prop) doc us :
  P doc → Forall P us → Forall P (replace_url doc us).
Proof.
  intros Hdoc. unfold replace_url. induction 1 as [|u us Hu _ IH]; simpl.
  - constructor.
  - constructor; [|exact IH]. by destruct (String.eqb _ _).
Qed.

Lemma events_of_snoc_ne code evs ev :
  ce_shortCode ev ≠ code → events_of code (evs ++ [ev]) = events_of code evs.
Proof.
  intros H. unfold events_of. rewrite filter_app.
  rewrite (filter_cons_False _ ev) by done. by rewrite app_nil_r.
Qed.

Section Recording.

Variable url_hostname : string → option string.
Variable startOfDay : Z → Z.

(** The outcomes of a call, whatever the store does: the aggregate is left
    as it was, with or without the event appended, or the event is appended
    and the aggregate of the link stored. *)
Lemma recordClick_cases now code data w :
  (urls (recordClick url_hostname startOfDay now code data w).2 = urls w ∧
   (clickEvents (recordClick url_hostname startOfDay now code data w).2
      = clickEvents w ∨
    ∃ d, data = Some d ∧
         clickEvents (recordClick url_hostname startOfDay now code data w).2
           = clickEvents w ++ [event_of url_hostname now code d])) ∨
  (∃ d doc,
     data = Some d ∧ findOne code (urls w) = Some doc ∧
     clickEvents (recordClick url_hostname startOfDay now code data w).2
       = clickEvents w ++ [event_of url_hostname now code d] ∧
     urls (recordClick url_hostname startOfDay now code data w).2
       = replace_url
           (clicked startOfDay code doc
              (clickEvents w ++ [event_of url_hostname now code d])
              (_extractReferrer url_hostname (or_default (data_referrer d) ""))
              now)
           (urls w)).
Proof.
  destruct (findOne code (urls w)) as [doc|] eqn:Hdoc.
  - destruct data as [d|].
    + destruct (recordClick url_hostname startOfDay now code (Some d) w)
        as [res w'] eqn:Hrun.
      destruct (recordClick_known _ _ _ _ _ _ _ _ _ Hdoc Hrun)
        as (_ & _ & [(_ & Hev & Hu)|(e & _ & Hu & Hev)]); simpl.
      * right. by exists d, doc.
      * left. split; [done|]. destruct Hev as [Hev|Hev]; [by left|].
        right. by exists d.
    + destruct (recordClick_no_data url_hostname startOfDay now code w doc Hdoc)
        as (_ & Hu & Hev & _). left. split; [done|]. by left.
  - destruct (recordClick_unknown url_hostname startOfDay now code data w Hdoc)
      as (_ & Hu & Hev & _). left. split; [done|]. by left.
Qed.

(** X17.  What [recordClick] never does, whatever the store does and
    whatever the call's data: it adds, removes or renames no link; it leaves
    every other link's document and events as they were; it leaves the
    [shortCode], [originalUrl], [createdAt], [clicks] and [isActive] of the
    link's own document as they were; and it appends at most one event, the
    one built from the call.  (What a successful [save()] does write is the
    [analytics] sub-document and the [updatedAt] stamp; of the latter
    nothing is stated.) *)
Theorem recordClick_frame now code data w :
  shortCode <$> urls (recordClick url_hostname startOfDay now code data w).2
    = shortCode <$> urls w ∧
  (∀ other, other ≠ code →
     findOne other (urls (recordClick url_hostname startOfDay now code data w).2)
       = findOne other (urls w) ∧
     events_of other
       (clickEvents (recordClick url_hostname startOfDay now code data w).2)
       = events_of other (clickEvents w)) ∧
  (∀ doc, findOne code (urls w) = Some doc →
     ∃ doc',
       findOne code (urls (recordClick url_hostname startOfDay now code data w).2)
         = Some doc' ∧
       identity_of doc' = identity_of doc) ∧
  (clickEvents (recordClick url_hostname startOfDay now code data w).2
     = clickEvents w ∨
   ∃ d, data = Some d ∧
        clickEvents (recordClick url_hostname startOfDay now code data w).2
          = clickEvents w ++ [event_of url_hostname now code d]).
Proof.
  destruct (recordClick_cases now code data w)
    as [[Hu Hev]|(d & doc & -> & Hdoc & Hev & Hu)].
  - rewrite Hu. split; [done|]. split; [|split; [eauto|done]].
    intros other Hne. split; [done|].
    destruct Hev as [->|(d & _ & ->)]; [done|].
    by apply events_of_snoc_ne.
  - rewrite Hu, Hev. split; [apply replace_url_shortCodes|].
    split; [|split].
    + intros other Hne. split.
      * apply findOne_replace_url_ne. rewrite clicked_shortCode.
        by rewrite (findOne_shortCode _ _ _ Hdoc).
      * by apply events_of_snoc_ne.
    + intros doc0 Hdoc0. rewrite Hdoc in Hdoc0. injection Hdoc0 as <-.
      exists (clicked startOfDay code doc
                (clickEvents w ++ [event_of url_hostname now code d])
                (_extractReferrer url_hostname
                   (or_default (data_referrer d) "")) now).
      split; [|reflexivity].
      apply (findOne_replace_url _ _ doc); [done|].
      rewrite clicked_shortCode. by eapply findOne_shortCode.
    + right. by exists d.
Qed.

Lemma clicked_counts code doc evs ref ts :
  counts_within_total (analytics doc) →
  counts_within_total (analytics (clicked startOfDay code doc evs ref ts)).
Proof.
  intros [Hrefs Hdays]. unfold counts_within_total. simpl. split.
  - etrans; [apply total_count_take|].
    rewrite total_count_sort, bump_total. lia.
  - etrans; [apply total_count_take|].
    rewrite total_count_sort, bump_total. lia.
Qed.

(** X18.  An invariant of the stored aggregates that no failure breaks:
    if in every document the counts of [topReferrers], and those of
    [clicksByDay], add up to no more than [totalClicks], then the same holds
    after any [recordClick], whatever the store does.  (The two lists are cut
    to 10 and 30 entries, so the sums can fall short.) *)
Theorem counts_stay_within_total now code data w :
  Forall (λ u, counts_within_total (analytics u)) (urls w) →
  Forall (λ u, counts_within_total (analytics u))
         (urls (recordClick url_hostname startOfDay now code data w).2).
Proof.
  intros Hinv.
  destruct (recordClick_cases now code data w)
    as [[-> _]|(d & doc & _ & Hdoc & _ & ->)]; [done|].
  apply (replace_url_Forall (λ u, counts_within_total (analytics u)));
    [|done].
  apply clicked_counts.
  apply findOne_elem_of in Hdoc.
  by apply (proj1 (Forall_forall _ _) Hinv).
Qed.

End Recording.

(** A first click on a fresh link, and a link next to it. *)
Lemma recordClick_frame_witness :
  findOne "other"
    (urls (recordClick plain_hostname utc_startOfDay 1000 "promo"
             (Some (mkClickData (Some "10.0.0.1") None None))
             (mkWorld [new_Url "other" "https://example.org" 0;
                       new_Url "promo" "https://example.com" 0] [] [] [] 0)).2)
  = Some (new_Url "other" "https://example.org" 0) ∧
  ∃ doc',
    findOne "promo"
      (urls (recordClick plain_hostname utc_startOfDay 1000 "promo"
               (Some (mkClickData (Some "10.0.0.1") None None))
               (mkWorld [new_Url "other" "https://example.org" 0;
                         new_Url "promo" "https://example.com" 0] [] [] [] 0)).2)
      = Some doc' ∧
    identity_of doc' = identity_of (new_Url "promo" "https://example.com" 0).
Proof.
  destruct (recordClick_frame plain_hostname utc_startOfDay 1000 "promo"
              (Some (mkClickData (Some "10.0.0.1") None None))
              (mkWorld [new_Url "other" "https://example.org" 0;
                        new_Url "promo" "https://example.com" 0] [] [] [] 0))
    as (_ & Hother & Hown & _).
  split.
  - refine (proj1 (Hother "other" _)). discriminate.
  - apply Hown. reflexivity.
Defined.

Lemma counts_stay_within_total_witness :
  Forall (λ u, counts_within_total (analytics u))
    (urls (recordClick plain_hostname utc_startOfDay 1000 "promo"
             (Some (mkClickData (Some "10.0.0.1") None None))
             (mkWorld [new_Url "promo" "https://example.com" 0] [] [] [] 0)).2).
Proof.
  apply counts_stay_within_total.
  repeat constructor.
Defined.

(** ** Tables of counts *)

Lemma remove_dups_length_le `{EqDecision A} (l : list A) :
  length (remove_dups l) ≤ length l.
Proof.
  induction l as [|x l IH]; simpl; [done|].
  destruct (decide_rel elem_of x l); simpl; lia.
Qed.

Section Tally.
Context {K : Type} `{EqDecision K} (eqb : K → K → bool).
Hypothesis eqb_eq : ∀ x y, eqb x y = true ↔ x = y.

Lemma bump_count k k' l :
  total_count (filter (λ c, key c = k') (bump eqb k l))
  = total_count (filter (λ c, key c = k') l) + (if decide (k' = k) then 1 else 0).
Proof.
  unfold total_count. induction l as [|c l IH]; simpl.
  - rewrite filter_cons, filter_nil. simpl.
    destruct (decide (k = k')) as [->|Hne].
    + by rewrite decide_True.
    + rewrite decide_False by congruence. done.
  - destruct (eqb (key c) k) eqn:E.
    + apply eqb_eq in E. rewrite !filter_cons. simpl.
      destruct (decide (key c = k')) as [Hk|Hk].
      * rewrite decide_True by congruence. simpl. lia.
      * rewrite decide_False by congruence. lia.
    + assert (key c ≠ k) as Hne by (intros Hk; apply eqb_eq in Hk; congruence).
      rewrite !filter_cons.
      destruct (decide (key c = k')) as [Hk|Hk]; simpl; rewrite IH; lia.
Qed.

Lemma bump_NoDup k l : NoDup (key <$> l) → NoDup (key <$> bump eqb k l).
Proof.
  induction l as [|c l IH]; intros Hnd; [apply NoDup_singleton|].
  rewrite fmap_cons in Hnd. apply NoDup_cons in Hnd as [Hc Hl]. simpl.
  destruct (eqb (key c) k) eqn:E.
  - rewrite fmap_cons. simpl. by apply NoDup_cons.
  - rewrite fmap_cons. apply NoDup_cons. split; [|by apply IH].
    rewrite (bump_keys eqb eqb_eq). intros [Hk|Hk]; [|done].
    apply eqb_eq in Hk. congruence.
Qed.

Lemma fold_bump ks : ∀ acc,
  NoDup (key <$> acc) →
  NoDup (key <$> fold_left (λ acc k, bump eqb k acc) ks acc) ∧
  (∀ k, k ∈ key <$> fold_left (λ acc k, bump eqb k acc) ks acc
        ↔ k ∈ ks ∨ k ∈ key <$> acc) ∧
  ∀ k, total_count (filter (λ c, key c = k)
                      (fold_left (λ acc k, bump eqb k acc) ks acc))
       = total_count (filter (λ c, key c = k) acc)
         + length (filter (λ x, x = k) ks).
Proof.
  induction ks as [|x ks IH]; intros acc Hacc; simpl.
  - split; [done|]. split.
    + intros k. rewrite elem_of_nil. tauto.
    + intros k. lia.
  - destruct (IH (bump eqb x acc) (bump_NoDup x acc Hacc))
      as (Hnd & Hkeys & Hcount).
    split; [done|]. split.
    + intros k. rewrite Hkeys, (bump_keys eqb eqb_eq), elem_of_cons. tauto.
    + intros k. rewrite Hcount, bump_count, filter_cons.
      destruct (decide (x = k)) as [->|Hne].
      * rewrite decide_True by done. simpl. lia.
      * rewrite decide_False by congruence. lia.
Qed.

Lemma NoDup_key_count (l : list (Counted K)) c :
  NoDup (key <$> l) → c ∈ l →
  total_count (filter (λ c', key c' = key c) l) = count c.
Proof.
  unfold total_count. induction l as [|a l IH]; [by intros _ ?%elem_of_nil|].
  rewrite fmap_cons. intros [Ha Hl]%NoDup_cons [->|Hc]%elem_of_cons.
  - rewrite filter_cons, decide_True by done. simpl.
    replace (filter (λ c', key c' = key a) l) with (@nil (Counted K));
      [simpl; lia|].
    symmetry. apply nil_length_inv, filter_length_none, Forall_forall.
    intros c' Hc' Hk.
    apply Ha. rewrite <- Hk. apply list_elem_of_fmap. by exists c'.
  - rewrite filter_cons, decide_False; [by apply IH|].
    intros Hk. apply Ha. rewrite Hk. apply list_elem_of_fmap. by exists c.
Qed.

(** Every entry of a table of counts carries the number of occurrences of
    its key, which is at least one. *)
Lemma tally_count ks c :
  c ∈ tally eqb ks →
  count c = length (filter (λ x, x = key c) ks) ∧ 1 ≤ count c.
Proof.
  intros Hc. unfold tally in *.
  destruct (fold_bump ks [] (NoDup_nil_2 : NoDup (key <$> [])))
    as (Hnd & Hkeys & Hcount).
  assert (count c = length (filter (λ x, x = key c) ks)) as Heq.
  { rewrite <- (NoDup_key_count _ c Hnd Hc), Hcount. done. }
  split; [done|]. rewrite Heq.
  assert (key c ∈ ks) as Hin.
  { destruct (proj1 (Hkeys (key c))) as [H|H]; [|done|by apply elem_of_nil in H].
    apply list_elem_of_fmap. by exists c. }
  apply list_elem_of_split in Hin as (l1 & l2 & ->).
  rewrite filter_app, filter_cons, decide_True, length_app by done. simpl. lia.
Qed.

Lemma tally_total ks : total_count (tally eqb ks) = length ks.
Proof.
  unfold tally. change (length ks) with (total_count (@nil (Counted K)) + length ks).
  generalize (@nil (Counted K)).
  induction ks as [|x ks IH]; intros acc; simpl; [lia|].
  rewrite IH, bump_total. lia.
Qed.

(** The same for the entries that survive sorting and the cut. *)
Lemma top_count {E : Type} (g : E → K) (f : Counted K → Z) n (evs : list E) c :
  c ∈ take n (sort_desc f (tally eqb (map g evs))) →
  count c = length (filter (λ ev, g ev = key c) evs) ∧ 1 ≤ count c.
Proof.
  intros Hc. apply elem_of_take in Hc as (i & Hc & _).
  apply list_elem_of_lookup_2, elem_of_sort_desc, tally_count in Hc
    as [Heq Hpos].
  split; [|done]. rewrite Heq. clear.
  induction evs as [|ev evs IH]; [done|].
  cbn [map]. rewrite !filter_cons.
  destruct (decide (g ev = key c)); simpl; by rewrite IH.
Qed.

Lemma top_total {E : Type} (g : E → K) (f : Counted K → Z) n (evs : list E) :
  total_count (take n (sort_desc f (tally eqb (map g evs)))) ≤ length evs.
Proof.
  etrans; [apply total_count_take|].
  by rewrite total_count_sort, tally_total, length_map.
Qed.

End Tally.

(** ** What [getUrlAnalytics] answers *)

Section Queries.

Variable url_hostname : string → option string.
Variable startOfDay : Z → Z.

(** An answer is computed from the link found and the events selected,
    whatever else the store does. *)
Lemma getUrlAnalytics_answer code options w a :
  (getUrlAnalytics startOfDay code options w).1 = Ok (Some a) →
  ∃ doc,
    findOne code (urls w) = Some doc ∧
    ua_shortCode a = code ∧
    ua_originalUrl a = originalUrl doc ∧
    ua_totalClicks a = length (selected code options w) ∧
    ua_uniqueVisitors a
      = length (remove_dups (map anonymizedIp (selected code options w))) ∧
    ua_topReferrers a
      = top10 (map (λ ev, or_default (referrer ev) "direct")
                   (selected code options w)) ∧
    topBrowsers a
      = top10 (map (λ ev, or_default (browser ev) "Unknown")
                   (selected code options w)) ∧
    topOS a
      = top10 (map (λ ev, or_default (os ev) "Unknown")
                   (selected code options w)) ∧
    clickHistory a
      = take 30 (sort_desc by_date
                   (tally Z.eqb (map (history_date startOfDay)
                                     (selected code options w)))) ∧
    ua_lastClickAt a = timestamp <$> head (selected code options w).
Proof.
  unfold getUrlAnalytics, bind, Url_findOne, ClickEvent_find_sorted,
    store_call, get, ret, throw, selected.
  destruct w as [us evs fs cs n]; simpl.
  destruct (findOne code us) as [doc|] eqn:Hdoc.
  - destruct (invalid_bound (startDate options) || invalid_bound (endDate options));
      destruct fs as [|[e1|] [|[e2|] fs]]; simpl; rewrite ?Hdoc; simpl;
      try discriminate;
      intros [= <-]; exists doc; simpl;
      (repeat split; try done);
      by destruct (sort_desc timestamp _).
  - destruct fs as [|[e1|] fs]; simpl; rewrite ?Hdoc; simpl; discriminate.
Qed.

(** X19.  Whatever [getUrlAnalytics] answers is consistent in itself,
    for any stored events and any bounds: unique visitors never exceed total
    clicks (which the stored aggregate does not guarantee), both are zero
    together and exactly when there is no last click; the last click is no
    earlier than any selected event; the click history holds at most 30
    days in non-increasing order of date, with counts that add up to no
    more than the total.  When the referrer, browser and OS labels of the
    selected events are plain keys (so that the objects the code counts
    them in are tables of counts), each of the three top lists holds at most
    10 entries in non-increasing order of count, and its counts add up to no
    more than the total. *)
Theorem getUrlAnalytics_consistent code options w a :
  (getUrlAnalytics startOfDay code options w).1 = Ok (Some a) →
  ua_shortCode a = code ∧
  ua_uniqueVisitors a ≤ ua_totalClicks a ∧
  (ua_uniqueVisitors a = 0 ↔ ua_totalClicks a = 0) ∧
  (ua_lastClickAt a = None ↔ ua_totalClicks a = 0) ∧
  Forall (λ ev, ∃ t, ua_lastClickAt a = Some t ∧ (timestamp ev ≤ t)%Z)
         (selected code options w) ∧
  (length (clickHistory a) ≤ 30 ∧
   non_increasing by_date (clickHistory a) ∧
   total_count (clickHistory a) ≤ ua_totalClicks a) ∧
  (Forall plain_labels (selected code options w) →
   (length (ua_topReferrers a) ≤ 10 ∧ length (topBrowsers a) ≤ 10 ∧
    length (topOS a) ≤ 10) ∧
   (non_increasing by_count (ua_topReferrers a) ∧
    non_increasing by_count (topBrowsers a) ∧
    non_increasing by_count (topOS a)) ∧
   (total_count (ua_topReferrers a) ≤ ua_totalClicks a ∧
    total_count (topBrowsers a) ≤ ua_totalClicks a ∧
    total_count (topOS a) ≤ ua_totalClicks a)).
Proof.
  intros Hrun.
  destruct (getUrlAnalytics_answer code options w a Hrun)
    as (doc & _ & Hcode & _ & Htot & Huniq & Hrefs & Hbrowsers & Hos & Hhist
        & Hlast).
  rewrite Htot, Huniq, Hrefs, Hbrowsers, Hos, Hhist, Hlast. unfold top10.
  pose proof (sort_desc_sorted timestamp
                (List.filter
                   (in_range (mkQuery code (startDate options) (endDate options)))
                   (clickEvents w))) as Hsorted.
  fold (selected code options w) in Hsorted.
  assert (∀ evs : list ClickEvent,
            (length (take 30 (sort_desc by_date
                                (tally Z.eqb (map (history_date startOfDay) evs))))
               ≤ 30 ∧
             non_increasing by_date
               (take 30 (sort_desc by_date
                           (tally Z.eqb (map (history_date startOfDay) evs)))) ∧
             total_count
               (take 30 (sort_desc by_date
                           (tally Z.eqb (map (history_date startOfDay) evs))))
               ≤ length evs)) as Hhistory.
  { intros evs. split; [apply take_length_le|].
    split; [apply non_increasing_take, sort_desc_sorted|].
    apply (top_total Z.eqb). }
  assert (∀ evs : list ClickEvent,
            (length (take 10 (sort_desc by_count
                       (tally String.eqb
                          (map (λ ev, or_default (referrer ev) "direct") evs))))
               ≤ 10 ∧
             length (take 10 (sort_desc by_count
                       (tally String.eqb
                          (map (λ ev, or_default (browser ev) "Unknown") evs))))
               ≤ 10 ∧
             length (take 10 (sort_desc by_count
                       (tally String.eqb
                          (map (λ ev, or_default (os ev) "Unknown") evs))))
               ≤ 10) ∧
            (non_increasing by_count
               (take 10 (sort_desc by_count
                  (tally String.eqb
                     (map (λ ev, or_default (referrer ev) "direct") evs)))) ∧
             non_increasing by_count
               (take 10 (sort_desc by_count
                  (tally String.eqb
                     (map (λ ev, or_default (browser ev) "Unknown") evs)))) ∧
             non_increasing by_count
               (take 10 (sort_desc by_count
                  (tally String.eqb
                     (map (λ ev, or_default (os ev) "Unknown") evs))))) ∧
            (total_count
               (take 10 (sort_desc by_count
                  (tally String.eqb
                     (map (λ ev, or_default (referrer ev) "direct") evs))))
               ≤ length evs ∧
             total_count
               (take 10 (sort_desc by_count
                  (tally String.eqb
                     (map (λ ev, or_default (browser ev) "Unknown") evs))))
               ≤ length evs ∧
             total_count
               (take 10 (sort_desc by_count
                  (tally String.eqb
                     (map (λ ev, or_default (os ev) "Unknown") evs))))
               ≤ length evs)) as Htops.
  { intros evs.
    split; [repeat split; apply take_length_le|].
    split; [repeat split; apply non_increasing_take, sort_desc_sorted|].
    repeat split; apply (top_total String.eqb). }
  destruct (selected code options w) as [|ev evs] eqn:Hsel.
  - split; [done|]. split; [done|]. split; [done|]. split; [done|].
    split; [constructor|]. split; [apply Hhistory|]. intros _. apply Htops.
  - split; [done|]. split.
    { etrans; [apply remove_dups_length_le|]. by rewrite length_map. }
    split.
    { split; [|by intros ?%nil_length_inv]. intros Hzero.
      apply nil_length_inv in Hzero.
      assert (anonymizedIp ev ∈ remove_dups (map anonymizedIp (ev :: evs)))
        as Hin by (apply elem_of_remove_dups; cbn [map]; left).
      rewrite Hzero in Hin. by apply elem_of_nil in Hin. }
    split; [done|].
    split.
    { simpl. unfold non_increasing in Hsorted.
      inversion Hsorted as [|? ? _ Hall]; subst.
      constructor; [exists (timestamp ev); split; [done|lia]|].
      eapply Forall_impl; [exact Hall|]. simpl. eauto. }
    split; [apply Hhistory|]. intros _. apply Htops.
Qed.

(** X20.  The entries of the lists [getUrlAnalytics] answers with carry
    exact counts.  Each listed day comes with the number of selected events
    of that day, at least 1.  When the referrer, browser and OS labels of
    the selected events are plain keys, each listed browser, operating
    system or referrer comes with the number of selected events that have
    it (a missing field counting as [Unknown] or [direct]), at least 1. *)
Theorem getUrlAnalytics_counts code options w a :
  (getUrlAnalytics startOfDay code options w).1 = Ok (Some a) →
  Forall (λ c, count c
               = length (filter (λ ev, history_date startOfDay ev = key c)
                                (selected code options w)) ∧ 1 ≤ count c)
         (clickHistory a) ∧
  (Forall plain_labels (selected code options w) →
   Forall (λ c, count c
                = length (filter (λ ev, or_default (browser ev) "Unknown" = key c)
                                 (selected code options w)) ∧ 1 ≤ count c)
          (topBrowsers a) ∧
   Forall (λ c, count c
                = length (filter (λ ev, or_default (os ev) "Unknown" = key c)
                                 (selected code options w)) ∧ 1 ≤ count c)
          (topOS a) ∧
   Forall (λ c, count c
                = length (filter (λ ev, or_default (referrer ev) "direct" = key c)
                                 (selected code options w)) ∧ 1 ≤ count c)
          (ua_topReferrers a)).
Proof.
  intros Hrun.
  destruct (getUrlAnalytics_answer code options w a Hrun)
    as (doc & _ & _ & _ & _ & _ & -> & -> & -> & -> & _).
  unfold top10. split.
  - apply Forall_forall. intros c Hc.
    by apply (top_count Z.eqb Z.eqb_eq) in Hc.
  - intros _. repeat split; apply Forall_forall; intros c Hc;
      by apply (top_count String.eqb String.eqb_eq) in Hc.
Qed.

End Queries.

(** A link with four events, two of them from one address, all with plain
    labels. *)
Lemma getUrlAnalytics_consistent_witness :
  ∃ a,
    (getUrlAnalytics utc_startOfDay "promo" (mkOptions None None)
       promo_world).1 = Ok (Some a) ∧
    ua_uniqueVisitors a ≤ ua_totalClicks a ∧
    non_increasing by_count (topBrowsers a) ∧
    total_count (topBrowsers a) ≤ ua_totalClicks a.
Proof.
  eexists. split; [reflexivity|].
  destruct (getUrlAnalytics_consistent utc_startOfDay "promo"
              (mkOptions None None) promo_world _ eq_refl)
    as (_ & Hle & _ & _ & _ & _ & Htops).
  destruct Htops as (_ & (_ & Hsorted & _) & (_ & Hsum & _)).
  - repeat constructor.
  - split; [exact Hle|]. split; [exact Hsorted|exact Hsum].
Defined.

Lemma getUrlAnalytics_counts_witness :
  ∃ a,
    (getUrlAnalytics utc_startOfDay "promo" (mkOptions None None)
       promo_world).1 = Ok (Some a) ∧
    Forall (λ c, count c
                 = length (filter (λ ev, or_default (browser ev) "Unknown" = key c)
                             (selected "promo" (mkOptions None None) promo_world))
               ∧ 1 ≤ count c)
           (topBrowsers a).
Proof.
  eexists. split; [reflexivity|].
  refine (proj1 (proj2 (getUrlAnalytics_counts utc_startOfDay "promo"
                          (mkOptions None None) promo_world _ eq_refl) _)).
  repeat constructor.
Defined.

(** ** Recording, then querying *)

Lemma filter_True_id {A} (P : A → Prop) `{∀ x, Decision (P x)} (l : list A) :
  Forall P l → filter P l = l.
Proof.
  induction 1 as [|x l Hx _ IH]; [done|].
  by rewrite filter_cons, decide_True, IH.
Qed.

Lemma distinct_count_perm (l1 l2 : list string) :
  l1 ≡ₚ l2 → distinct_count l1 = distinct_count l2.
Proof.
  intros Hperm. unfold distinct_count. f_equal.
  apply set_eq. intros x. by rewrite !elem_of_list_to_set, Hperm.
Qed.

(** Without bounds the query selects the events of the link. *)
Lemma selected_all code w :
  selected code (mkOptions None None) w ≡ₚ events_of code (clickEvents w).
Proof.
  unfold selected. rewrite sort_desc_perm. simpl.
  rewrite (filter_in_range code None None).
  rewrite filter_True_id; [done|].
  apply Forall_forall. intros ev _. by split.
Qed.

Section RecordThenQuery.

Variable url_hostname : string → option string.
Variable startOfDay : Z → Z.

(** A run of calls none of which logs an error. *)
Lemma recordClicks_run code calls : ∀ w doc,
  findOne code (urls w) = Some doc →
  console (recordClicks url_hostname startOfDay code calls w) = console w →
  ∃ doc',
    findOne code (urls (recordClicks url_hostname startOfDay code calls w))
      = Some doc' ∧
    totalClicks (analytics doc') = totalClicks (analytics doc) + length calls ∧
    (calls ≠ [] →
     uniqueVisitors (analytics doc')
       = distinct_count
           (anonymizedIp <$>
              events_of code
                (clickEvents
                   (recordClicks url_hostname startOfDay code calls w)))) ∧
    length (events_of code
              (clickEvents (recordClicks url_hostname startOfDay code calls w)))
      = length (events_of code (clickEvents w)) + length calls.
Proof.
  induction calls as [|[now data] calls IH]; intros w doc Hdoc Hquiet.
  - exists doc. simpl. repeat split; [done | lia | done | lia].
  - simpl in Hquiet |- *.
    set (w1 := (recordClick url_hostname startOfDay now code data w).2) in *.
    assert (console w1 = console w) as Hquiet1.
    { destruct (recordClick_console url_hostname startOfDay now code data w)
        as (errs1 & H1).
      destruct (recordClicks_console url_hostname startOfDay code calls w1)
        as (errs2 & H2).
      fold w1 in H1. rewrite H2, H1, <- app_assoc in Hquiet.
      rewrite <- (app_nil_r (console w)) in Hquiet at 2.
      apply app_inv_head, app_eq_nil in Hquiet as [-> _].
      by rewrite H1, app_nil_r. }
    destruct (recordClick_success url_hostname startOfDay now code data w doc
                Hdoc Hquiet1) as (d & -> & Hev & Hu).
    fold w1 in Hev, Hu.
    set (doc1 := clicked startOfDay code doc _ _ _) in *.
    assert (findOne code (urls w1) = Some doc1) as Hdoc1.
    { rewrite Hu. eapply findOne_replace_url; [done|].
      subst doc1. rewrite clicked_shortCode. by eapply findOne_shortCode. }
    destruct (IH w1 doc1 Hdoc1) as (doc' & Hdoc' & Htot & Huniq & Hlen).
    { by rewrite Hquiet, Hquiet1. }
    exists doc'. split; [done|].
    rewrite Htot, Hlen, Hev, events_of_snoc, length_app by done.
    repeat split.
    + subst doc1. simpl. lia.
    + intros _. destruct calls as [|call calls].
      * simpl in Hdoc'. rewrite Hdoc1 in Hdoc'. injection Hdoc' as <-.
        subst doc1. simpl. unfold distinct_ips.
        by rewrite remove_dups_distinct_count, Hev.
      * by apply Huniq.
    + simpl. lia.
Qed.

(** X21.  Recording and querying agree.  Take a link whose [totalClicks]
    equals the number of its events (a fresh link, say) and record a
    non-empty run of clicks none of which logs an error.  A query without
    bounds, on a store that then answers, reports the [totalClicks] and the
    [uniqueVisitors] that the aggregate stores: the two ways of counting
    coincide. *)
Theorem query_agrees_with_aggregate code calls w doc :
  findOne code (urls w) = Some doc →
  totalClicks (analytics doc) = length (events_of code (clickEvents w)) →
  calls ≠ [] →
  console (recordClicks url_hostname startOfDay code calls w) = console w →
  calm (recordClicks url_hostname startOfDay code calls w) →
  ∃ doc' a,
    findOne code (urls (recordClicks url_hostname startOfDay code calls w))
      = Some doc' ∧
    (getUrlAnalytics startOfDay code (mkOptions None None)
       (recordClicks url_hostname startOfDay code calls w)).1 = Ok (Some a) ∧
    ua_totalClicks a = totalClicks (analytics doc') ∧
    ua_uniqueVisitors a = uniqueVisitors (analytics doc') ∧
    ua_totalClicks a = totalClicks (analytics doc) + length calls.
Proof.
  intros Hdoc Hfresh Hcalls Hquiet Hcalm.
  destruct (recordClicks_run code calls w doc Hdoc Hquiet)
    as (doc' & Hdoc' & Htot & Huniq & Hlen).
  set (wf := recordClicks url_hostname startOfDay code calls w) in *.
  destruct (getUrlAnalytics_total startOfDay code None None wf doc' Hdoc' Hcalm)
    as (a & Hrun & Hcount).
  change (ValidDate <$> None) with (@None DateInput) in Hrun.
  exists doc', a. split; [done|]. split; [exact Hrun|].
  destruct (getUrlAnalytics_answer startOfDay code _ wf a Hrun)
    as (_ & _ & _ & _ & Hatot & Hauniq & _).
  rewrite Hauniq, Hatot, Huniq, Htot, Hfresh by done.
  change (map anonymizedIp ?l) with (anonymizedIp <$> l).
  rewrite remove_dups_distinct_count.
  rewrite (distinct_count_perm _ _
             (fmap_Permutation anonymizedIp _ _ (selected_all code wf))).
  rewrite (Permutation_length (selected_all code wf)), Hlen.
  done.
Qed.

End RecordThenQuery.

(** Three clicks on a fresh link, two of them from one network. *)
Lemma query_agrees_with_aggregate_witness :
  ∃ doc' a,
    findOne "promo"
      (urls (recordClicks plain_hostname utc_startOfDay "promo"
               [(1000%Z, Some (mkClickData (Some "10.0.0.1") None None));
                (2000%Z, Some (mkClickData (Some "10.0.0.7") None None));
                (3000%Z, Some (mkClickData (Some "10.0.1.1") None None))]
               (mkWorld [new_Url "promo" "https://example.com" 0] [] [] [] 0)))
      = Some doc' ∧
    (getUrlAnalytics utc_startOfDay "promo" (mkOptions None None)
       (recordClicks plain_hostname utc_startOfDay "promo"
          [(1000%Z, Some (mkClickData (Some "10.0.0.1") None None));
           (2000%Z, Some (mkClickData (Some "10.0.0.7") None None));
           (3000%Z, Some (mkClickData (Some "10.0.1.1") None None))]
          (mkWorld [new_Url "promo" "https://example.com" 0] [] [] [] 0))).1
      = Ok (Some a) ∧
    ua_totalClicks a = totalClicks (analytics doc') ∧
    ua_uniqueVisitors a = uniqueVisitors (analytics doc') ∧
    ua_totalClicks a = 0 + 3.
Proof.
  apply (query_agrees_with_aggregate plain_hostname utc_startOfDay "promo"
           [(1000%Z, Some (mkClickData (Some "10.0.0.1") None None));
            (2000%Z, Some (mkClickData (Some "10.0.0.7") None None));
            (3000%Z, Some (mkClickData (Some "10.0.1.1") None None))]
           (mkWorld [new_Url "promo" "https://example.com" 0] [] [] [] 0)
           (new_Url "promo" "https://example.com" 0)).
  - reflexivity.
  - reflexivity.
  - discriminate.
  - vm_compute. reflexivity.
  - vm_compute. constructor.
Defined.

End AnalyticsMore.

(** * The routes and the services behind them *)

Module RoutesSpec.
Import AnalyticsService UrlRoutes ListFacts AnalyticsSpec AnalyticsMore.

(** ** Reading does not write *)

Lemma read_only_ret {A} (a : A) : read_only (ret a).
Proof. by intros w. Qed.

Lemma read_only_throw {A} e : read_only (@throw A e).
Proof. by intros w. Qed.

Lemma read_only_get {A} (f : World → A) : read_only (get f).
Proof. by intros w. Qed.

Lemma read_only_store_call : read_only store_call.
Proof.
  intros [us evs fs cs n]. unfold store_call. simpl.
  by destruct fs as [|[e|] fs].
Qed.

Lemma read_only_bind {A B} (m : M A) (k : A → M B) :
  read_only m → (∀ a, read_only (k a)) → read_only (bind m k).
Proof.
  intros Hm Hk w. unfold bind. specialize (Hm w).
  destruct (m w) as [[a|e] w1]; simpl in *; [|done].
  destruct (Hk a w1) as (Hu & Hev & Hc). destruct Hm as (Hu1 & Hev1 & Hc1).
  unfold same_data. by rewrite Hu, Hev, Hc.
Qed.

Lemma read_only_try_catch {A} (body : M A) (handler : Error → M A) :
  read_only body → (∀ e, read_only (handler e)) →
  read_only (try_catch body handler).
Proof.
  intros Hm Hk w. unfold try_catch. specialize (Hm w).
  destruct (body w) as [[a|e] w1]; simpl in *; [done|].
  destruct (Hk e w1) as (Hu & Hev & Hc). destruct Hm as (Hu1 & Hev1 & Hc1).
  unfold same_data. by rewrite Hu, Hev, Hc.
Qed.

Lemma read_only_if {A} (b : bool) (m1 m2 : M A) :
  read_only m1 → read_only m2 → read_only (if b then m1 else m2).
Proof. by destruct b. Qed.

Create HintDb read_only.
#[local] Hint Resolve read_only_ret read_only_throw read_only_get
  read_only_store_call read_only_if : read_only.

Ltac solve_read_only :=
  repeat first
    [ apply read_only_bind; [|intros ?]
    | apply read_only_try_catch; [|intros ?]
    | match goal with |- read_only (match ?x with _ => _ end) => destruct x end
    | solve [auto with read_only] ].

(** X22.  The queries write nothing: whatever the store does, and
    whether they resolve or reject, [getUrlAnalytics], [getPopularUrls],
    [getSystemAnalytics], [getOriginalUrl] and [getUrlInfo], and the routes
    that only call them, leave the links, the events and the console as they
    were. *)
Theorem queries_write_nothing (startOfDay : Z → Z) :
  (∀ code options, read_only (getUrlAnalytics startOfDay code options)) ∧
  (∀ lim, read_only (getPopularUrls lim)) ∧
  (∀ query_limit, read_only (popular_route query_limit)) ∧
  (∀ options, read_only (getSystemAnalytics options)) ∧
  (∀ code, read_only (getOriginalUrl code)) ∧
  (∀ code, read_only (getUrlInfo code)) ∧
  (∀ code, read_only (url_info_route code)) ∧
  (∀ code options, read_only (analytics_url_route startOfDay code options)).
Proof.
  assert (∀ code, read_only (Url_findOne code)) as Hfind.
  { intros code. unfold Url_findOne. solve_read_only. }
  assert (∀ q, read_only (ClickEvent_find_sorted q)) as Hsel.
  { intros q. unfold ClickEvent_find_sorted. solve_read_only. }
  assert (∀ code options, read_only (getUrlAnalytics startOfDay code options))
    as Hone.
  { intros code options. unfold getUrlAnalytics. solve_read_only. }
  assert (∀ lim, read_only (getPopularUrls lim)) as Hpop.
  { intros lim. unfold getPopularUrls, Url_find_active_sorted. solve_read_only. }
  assert (∀ code, read_only (getUrlInfo code)) as Hinfo.
  { intros code. unfold getUrlInfo. solve_read_only. }
  split; [exact Hone|]. split; [exact Hpop|].
  split; [intros q; unfold popular_route; apply Hpop|].
  split.
  { intros options.
    unfold getSystemAnalytics, Url_countDocuments, ClickEvent_countDocuments,
      ClickEvent_distinct_in.
    solve_read_only. }
  split; [intros code; unfold getOriginalUrl; solve_read_only|].
  split; [exact Hinfo|].
  split; [intros code; unfold url_info_route; solve_read_only|].
  intros code options. unfold analytics_url_route. solve_read_only.
Qed.

(** ** [getSystemAnalytics] *)

Ltac calm_faults H :=
  repeat match type of H with
         | Forall _ (?f :: _) =>
             let Heq := fresh "Heq" in
             apply Forall_cons in H as [Heq H];
             first [discriminate Heq | subst f | clear Heq]
         end.

Lemma filter_in_period lo hi evs :
  List.filter (in_period (ValidDate <$> lo) (ValidDate <$> hi)) evs
  = filter (λ ev, in_window lo hi (timestamp ev)) evs.
Proof.
  induction evs as [|ev evs IH]; [done|].
  rewrite filter_cons. simpl. unfold in_period at 1.
  destruct (decide (in_window lo hi (timestamp ev))) as [Hw|Hw].
  - destruct lo, hi; unfold in_window in Hw; simpl in *;
      repeat match goal with
             | |- context [(?a <=? ?b)%Z] => destruct (Z.leb_spec a b); [|lia]
             end; simpl; by rewrite IH.
  - destruct lo, hi; unfold in_window in Hw; simpl in *;
      repeat match goal with
             | |- context [(?a <=? ?b)%Z] => destruct (Z.leb_spec a b)
             end; simpl; try (exfalso; apply Hw; split; (done || lia));
      by rewrite IH.
Qed.

Lemma distinct_count_subseteq (l1 l2 : list string) :
  l1 ⊆ l2 → distinct_count l1 ≤ distinct_count l2.
Proof.
  intros Hsub. unfold distinct_count. apply subseteq_size.
  intros x. rewrite !elem_of_list_to_set. apply Hsub.
Qed.

(** On a store that does not fail, the four reads go through; an invalid
    bound makes the first filtered read reject. *)
Lemma getSystemAnalytics_calm options w :
  calm w →
  (getSystemAnalytics options w).1
  = if invalid_bound (startDate options) || invalid_bound (endDate options)
    then Throw (mkError "CastError")
    else Ok {| sa_totalUrls := length (urls w);
               sa_totalClicks :=
                 length (List.filter
                           (in_period (startDate options) (endDate options))
                           (clickEvents w));
               sa_uniqueVisitors :=
                 length (distinct_ips
                           (List.filter
                              (in_period (startDate options) (endDate options))
                              (clickEvents w)));
               sa_popularUrls :=
                 match (getPopularUrls (Some 10%Z) (set_faults w [])).1 with
                 | Ok l => l
                 | Throw _ => []
                 end |}.
Proof.
  intros Hcalm.
  unfold getSystemAnalytics, getPopularUrls, Url_find_active_sorted,
    Url_countDocuments, ClickEvent_countDocuments, ClickEvent_distinct_in,
    bind, store_call, get, ret, throw.
  destruct w as [us evs fs cs n]. unfold calm in Hcalm. simpl in *.
  destruct (invalid_bound (startDate options) || invalid_bound (endDate options));
    destruct fs as [|f1 [|f2 [|f3 [|f4 fs]]]]; calm_faults Hcalm; reflexivity.
Qed.

Section System.

Variable startOfDay : Z → Z.

(** X23.  [getSystemAnalytics] with valid (or absent) bounds on a store
    that does not fail: [totalUrls] counts every link, active or not;
    [totalClicks] counts the events in the window, of any link or of none;
    [uniqueVisitors] is the number of distinct masked addresses among them,
    hence at most [totalClicks]; [popularUrls] holds 10 links or, if fewer
    are active, all the active ones; and with the same bounds no link's own
    figures from [getUrlAnalytics] exceed the system's. *)
Theorem getSystemAnalytics_totals lo hi w :
  calm w →
  ∃ s,
    (getSystemAnalytics (mkOptions (ValidDate <$> lo) (ValidDate <$> hi)) w).1
      = Ok s ∧
    sa_totalUrls s = length (urls w) ∧
    sa_totalClicks s
      = length (filter (λ ev, in_window lo hi (timestamp ev)) (clickEvents w)) ∧
    sa_uniqueVisitors s
      = distinct_count
          (anonymizedIp <$>
             filter (λ ev, in_window lo hi (timestamp ev)) (clickEvents w)) ∧
    sa_uniqueVisitors s ≤ sa_totalClicks s ∧
    length (sa_popularUrls s) = 10 `min` length (List.filter isActive (urls w)) ∧
    Forall (λ p, ∃ u, u ∈ urls w ∧ isActive u = true ∧
                      pu_shortCode p = shortCode u)
           (sa_popularUrls s) ∧
    ∀ code a,
      (getUrlAnalytics startOfDay code
         (mkOptions (ValidDate <$> lo) (ValidDate <$> hi)) w).1 = Ok (Some a) →
      ua_totalClicks a ≤ sa_totalClicks s ∧
      ua_uniqueVisitors a ≤ sa_uniqueVisitors s.
Proof.
  intros Hcalm. rewrite (getSystemAnalytics_calm _ w Hcalm).
  assert (invalid_bound (ValidDate <$> lo) || invalid_bound (ValidDate <$> hi)
          = false) as Hvalid by (by destruct lo, hi).
  cbn [startDate endDate]. rewrite Hvalid.
  eexists. split; [reflexivity|]. cbn [sa_totalUrls sa_totalClicks
    sa_uniqueVisitors sa_popularUrls].
  rewrite filter_in_period. unfold distinct_ips.
  change (map anonymizedIp ?l) with (anonymizedIp <$> l).
  rewrite remove_dups_distinct_count.
  split; [done|]. split; [done|]. split; [done|].
  split.
  { rewrite <- remove_dups_distinct_count.
    etrans; [apply remove_dups_length_le|]. by rewrite length_fmap. }
  assert ((getPopularUrls (Some 10%Z) (set_faults w [])).1
          = Ok ((λ url, {| pu_shortCode := shortCode url;
                           pu_originalUrl := originalUrl url;
                           pu_clicks := clicks url;
                           pu_totalClicks := totalClicks (analytics url);
                           pu_uniqueVisitors := uniqueVisitors (analytics url);
                           pu_createdAt := createdAt url |})
                  <$> take 10 (sort_desc (λ u, Z.of_nat (totalClicks (analytics u)))
                                 (List.filter isActive (urls w))))) as ->.
  { by destruct w. }
  split; [by rewrite length_fmap, length_take, sort_desc_length|].
  split.
  { apply Forall_fmap, Forall_forall. intros u Hu. simpl.
    apply elem_of_take in Hu as (i & Hu & _).
    apply list_elem_of_lookup_2, elem_of_sort_desc, list_elem_of_In,
      filter_In in Hu as [Hu Hact].
    exists u. by rewrite list_elem_of_In. }
  intros code a Hrun.
  destruct (getUrlAnalytics_answer startOfDay code _ w a Hrun)
    as (_ & _ & _ & _ & -> & -> & _).
  unfold selected. cbn [startDate endDate].
  change (map anonymizedIp ?l) with (anonymizedIp <$> l).
  rewrite remove_dups_distinct_count, sort_desc_length, filter_in_range.
  assert (filter (λ ev, in_window lo hi (timestamp ev))
                 (events_of code (clickEvents w))
          ⊆ filter (λ ev, in_window lo hi (timestamp ev)) (clickEvents w))
    as Hsub.
  { intros ev. unfold events_of. rewrite !list_elem_of_filter. tauto. }
  split.
  - rewrite <- filter_in_range.
    rewrite filter_in_range.
    unfold events_of. rewrite list_filter_filter.
    clear. induction (clickEvents w) as [|ev evs IH]; [done|].
    rewrite !filter_cons.
    destruct (decide (in_window lo hi (timestamp ev) ∧ ce_shortCode ev = code))
      as [[Hw _]|Hn].
    + rewrite decide_True by done. simpl. lia.
    + destruct (decide (in_window lo hi (timestamp ev))); simpl; lia.
  - apply distinct_count_subseteq.
    intros x (ev & -> & Hev)%list_elem_of_fmap.
    apply list_elem_of_fmap. exists ev. split; [done|].
    apply Hsub. by rewrite <- (sort_desc_perm timestamp).
Qed.

End System.

Lemma getSystemAnalytics_totals_witness :
  ∃ s,
    (getSystemAnalytics
       (mkOptions (ValidDate <$> None) (ValidDate <$> Some 5000%Z))
       promo_world).1 = Ok s ∧
    sa_totalUrls s = length (urls promo_world) ∧
    sa_uniqueVisitors s ≤ sa_totalClicks s.
Proof.
  destruct (getSystemAnalytics_totals utc_startOfDay None (Some 5000%Z)
              promo_world) as (s & Hrun & Hurls & _ & _ & Hle & _).
  - constructor.
  - exists s. split; [exact Hrun|]. split; [exact Hurls|exact Hle].
Defined.

(** ** The redirect and the click it schedules *)

Lemma findOne_inc_clicks code us doc :
  findOne code us = Some doc →
  findOne code (inc_clicks code us)
  = Some (mkUrl (shortCode doc) (originalUrl doc) (createdAt doc)
                (clicks doc + 1) (isActive doc) (analytics doc)).
Proof.
  unfold findOne. induction us as [|u us IH]; simpl; [done|].
  destruct (String.eqb (shortCode u) code) eqn:E; simpl.
  - intros [= ->]. by rewrite E.
  - rewrite E. apply IH.
Qed.

Lemma findOne_inc_clicks_ne other code us :
  other ≠ code → findOne other (inc_clicks code us) = findOne other us.
Proof.
  unfold findOne. intros Hne. induction us as [|u us IH]; simpl; [done|].
  destruct (String.eqb_spec (shortCode u) code) as [Hc|Hc]; simpl.
  - apply String.eqb_neq in Hne. rewrite Hc. rewrite String.eqb_sym in Hne.
    by rewrite Hne.
  - by rewrite IH.
Qed.

Section Visits.

Variable url_hostname : string → option string.
Variable startOfDay : Z → Z.

(** [recordClick] never rejects. *)
Lemma recordClick_ok now code data w :
  (recordClick url_hostname startOfDay now code data w).1 = Ok tt.
Proof.
  destruct (findOne code (urls w)) as [doc|] eqn:Hdoc.
  - destruct data as [d|].
    + destruct (recordClick url_hostname startOfDay now code (Some d) w)
        as [res w'] eqn:Hrun.
      by destruct (recordClick_known _ _ _ _ _ _ _ _ _ Hdoc Hrun) as [-> _].
    + by destruct (recordClick_no_data url_hostname startOfDay now code w doc
                     Hdoc) as [-> _].
  - by destruct (recordClick_unknown url_hostname startOfDay now code data w
                   Hdoc) as [-> _].
Qed.

(** The redirect handler either hands an error to [next], having written
    nothing, or has found an active link, counted the click on it and sent
    the redirect. *)
Lemma redirect_route_cases code data w :
  (∃ e w1,
     redirect_route code data w = (Ok (NextWith e), w1) ∧ same_data w w1 ∧
     (calm w → e = NotFoundError)) ∨
  (∃ doc w1,
     findOne code (urls w) = Some doc ∧ isActive doc = true ∧
     originalUrl doc ≠ "" ∧
     redirect_route code data w
       = (Ok (Sent (mkRedirect (originalUrl doc) data)), w1) ∧
     urls w1 = inc_clicks code (urls w) ∧
     clickEvents w1 = clickEvents w ∧ console w1 = console w ∧
     faults w1 = drop 2 (faults w)).
Proof.
  unfold redirect_route, getOriginalUrl, Url_incClicks, Url_findOne, try_catch,
    bind, store_call, get, modify, ret, throw, calm, same_data.
  destruct w as [us evs fs cs n]; simpl.
  destruct (findOne code us) as [doc|] eqn:Hdoc.
  - destruct (isActive doc) eqn:Hact.
    + destruct (originalUrl doc) as [|c rest] eqn:Hurl.
      * left. destruct fs as [|[e1|] fs]; simpl; rewrite ?Hdoc, ?Hact, ?Hurl;
          simpl; do 2 eexists; (split; [reflexivity|]); simpl;
          (split; [done|]); try done.
        intros Hcalm. by calm_faults Hcalm.
      * destruct fs as [|[e1|] [|[e2|] fs]]; simpl;
          rewrite ?Hdoc, ?Hact, ?Hurl; simpl.
        all: try (right; exists doc; eexists; rewrite Hurl;
                  repeat split; try done; fail).
        all: left; do 2 eexists; (split; [reflexivity|]); simpl;
          (split; [done|]); intros Hcalm; by calm_faults Hcalm.
    + left. destruct fs as [|[e1|] fs]; simpl; rewrite ?Hdoc, ?Hact;
        simpl; do 2 eexists; (split; [reflexivity|]); simpl;
        (split; [done|]); try done.
      intros Hcalm. by calm_faults Hcalm.
  - left. destruct fs as [|[e1|] fs]; simpl; rewrite ?Hdoc;
      simpl; do 2 eexists; (split; [reflexivity|]); simpl;
      (split; [done|]); try done.
    intros Hcalm. by calm_faults Hcalm.
Qed.

(** A visit answers as the handler does, and then records. *)
Lemma visit_unfold now code data w :
  visit url_hostname startOfDay now code data w
  = match redirect_route code data w with
    | (Ok (Sent r), w1) =>
        (Ok (Sent r),
         (recordClick url_hostname startOfDay now code (Some (scheduled r)) w1).2)
    | other => other
    end.
Proof.
  unfold visit, bind, ret.
  destruct (redirect_route code data w) as [[[r|e]|e] w1]; try done.
  pose proof (recordClick_ok now code (Some (scheduled r)) w1) as Hok.
  by destruct (recordClick url_hostname startOfDay now code
                 (Some (scheduled r)) w1) as [[[]|e] w2]; simpl in *.
Qed.

(** X24.  A visit, whatever the store does.  The response is the
    handler's own: recording the click afterwards never alters it.  If the
    response is an error, nothing has been written: no click counted, no
    event stored, nothing logged.  If it is the redirect, the link is
    active, the redirect leads to its original URL, and the link's [clicks]
    has gone up by exactly one, while [analytics.totalClicks] has gone up by
    one or, the recording having failed, not at all. *)
Theorem visit_outcomes now code data w :
  (visit url_hostname startOfDay now code data w).1
    = (redirect_route code data w).1 ∧
  ((∃ e,
      (visit url_hostname startOfDay now code data w).1 = Ok (NextWith e) ∧
      same_data w (visit url_hostname startOfDay now code data w).2) ∨
   (∃ doc doc',
      findOne code (urls w) = Some doc ∧ isActive doc = true ∧
      (visit url_hostname startOfDay now code data w).1
        = Ok (Sent (mkRedirect (originalUrl doc) data)) ∧
      findOne code (urls (visit url_hostname startOfDay now code data w).2)
        = Some doc' ∧
      clicks doc' = clicks doc + 1 ∧
      (totalClicks (analytics doc') = totalClicks (analytics doc) ∨
       totalClicks (analytics doc') = totalClicks (analytics doc) + 1))).
Proof.
  rewrite visit_unfold.
  destruct (redirect_route_cases code data w)
    as [(e & w1 & -> & Hsame & _)
       |(doc & w1 & Hdoc & Hact & _ & -> & Hu & Hev & Hc & _)].
  - split; [done|]. left. by exists e.
  - split; [done|]. right. cbn [scheduled fst snd].
    pose proof (findOne_inc_clicks code (urls w) doc Hdoc) as Hdoc1.
    rewrite <- Hu in Hdoc1.
    destruct (recordClick_cases url_hostname startOfDay now code (Some data) w1)
      as [[Hu2 _]|(d & doc1 & [= <-] & Hdoc1' & _ & Hu2)].
    + exists doc. eexists. rewrite Hu2.
      split; [done|]. split; [done|]. split; [done|].
      split; [exact Hdoc1|]. split; [done|]. by left.
    + rewrite Hdoc1 in Hdoc1'. injection Hdoc1' as <-.
      exists doc. eexists. rewrite Hu2.
      split; [done|]. split; [done|]. split; [done|].
      split.
      { apply (findOne_replace_url _ _ _ _ Hdoc1).
        rewrite clicked_shortCode. simpl. by eapply findOne_shortCode. }
      split; [done|]. by right.
Qed.

(** X25.  The two click counters of a link.  When a visit is answered
    with the redirect and the recording that follows logs nothing, both
    [clicks] and [analytics.totalClicks] have gone up by one and the event
    is stored.  When the recording fails at its first read (the third
    operation of the visit is scheduled to throw), the redirect is still
    sent and [clicks] has gone up, while [totalClicks] has not, no event is
    stored and the error is only logged: from then on the two counters
    differ. *)
Theorem visit_counters now code data w doc :
  findOne code (urls w) = Some doc →
  (∀ r,
     (visit url_hostname startOfDay now code data w).1 = Ok (Sent r) →
     console (visit url_hostname startOfDay now code data w).2 = console w →
     ∃ doc',
       findOne code (urls (visit url_hostname startOfDay now code data w).2)
         = Some doc' ∧
       clicks doc' = clicks doc + 1 ∧
       totalClicks (analytics doc') = totalClicks (analytics doc) + 1 ∧
       clickEvents (visit url_hostname startOfDay now code data w).2
         = clickEvents w ++ [event_of url_hostname now code data]) ∧
  (∀ e fs,
     isActive doc = true → originalUrl doc ≠ "" →
     faults w = None :: None :: Some e :: fs →
     ∃ doc',
       (visit url_hostname startOfDay now code data w).1
         = Ok (Sent (mkRedirect (originalUrl doc) data)) ∧
       findOne code (urls (visit url_hostname startOfDay now code data w).2)
         = Some doc' ∧
       clicks doc' = clicks doc + 1 ∧
       totalClicks (analytics doc') = totalClicks (analytics doc) ∧
       clickEvents (visit url_hostname startOfDay now code data w).2
         = clickEvents w ∧
       console (visit url_hostname startOfDay now code data w).2
         = console w ++ [e]).
Proof.
  intros Hdoc.
  pose proof (findOne_inc_clicks code (urls w) doc Hdoc) as Hdoc1.
  rewrite visit_unfold.
  destruct (redirect_route_cases code data w)
    as [(e & w1 & Hrun & Hsame & Hnot)
       |(doc0 & w1 & Hdoc0 & _ & _ & Hrun & Hu & Hev & Hc & Hfs)].
  - rewrite Hrun. split; [by intros r [=]|].
    intros e' fs Hact Hurl Hfaults. exfalso.
    unfold redirect_route, getOriginalUrl, Url_incClicks, Url_findOne,
      try_catch, bind, store_call, get, modify, ret, throw in *.
    destruct w as [us evs fs0 cs n]; simpl in *. subst fs0.
    destruct (originalUrl doc) as [|c rest] eqn:Hurl'; [done|].
    simpl in Hrun. rewrite ?Hdoc, ?Hact, ?Hurl' in Hrun. simpl in Hrun.
    discriminate.
  - rewrite Hdoc in Hdoc0. injection Hdoc0 as <-. rewrite Hrun.
    cbn [scheduled fst snd]. rewrite <- Hu in Hdoc1.
    split.
    + intros r _ Hquiet. rewrite <- Hc in Hquiet.
      destruct (recordClick_success url_hostname startOfDay now code
                  (Some data) w1 _ Hdoc1 Hquiet)
        as (d & [= <-] & Hev2 & Hu2).
      eexists. rewrite Hu2, Hev2, Hev.
      split.
      { apply (findOne_replace_url _ _ _ _ Hdoc1).
        rewrite clicked_shortCode. simpl. by eapply findOne_shortCode. }
      done.
    + intros e fs _ _ Hfaults. rewrite Hfaults in Hfs. simpl in Hfs.
      eexists. split; [done|].
      unfold recordClick, try_catch, bind, Url_findOne, store_call,
        console_error, modify.
      destruct w1 as [us1 evs1 fs1 cs1 n1]; simpl in *. subst fs1. simpl.
      split; [exact Hdoc1|]. by rewrite Hev, Hc.
Qed.

End Visits.

(** A visit to the example link, from a direct request. *)
Lemma visit_counters_witness :
  ∃ doc',
    findOne "promo"
      (urls (visit plain_hostname utc_startOfDay 9000 "promo"
               (mkClickData (Some "10.0.0.1") None None) promo_world).2)
      = Some doc' ∧
    clicks doc' = 0 + 1 ∧
    totalClicks (analytics doc') = 0 + 1.
Proof.
  destruct (proj1 (visit_counters plain_hostname utc_startOfDay 9000 "promo"
                     (mkClickData (Some "10.0.0.1") None None) promo_world
                     (new_Url "promo" "https://example.com" 0) eq_refl)
              (mkRedirect "https://example.com"
                          (mkClickData (Some "10.0.0.1") None None)))
    as (doc' & Hdoc' & Hclicks & Htotal & _).
  - reflexivity.
  - reflexivity.
  - by exists doc'.
Defined.

(** ** [GET /api/urls/:shortcode] *)

(** X26.  The analytics summary of [GET /api/urls/:shortcode] is always
    the zero summary, whatever aggregate is stored: [getUrlInfo] returns an
    object without an [analytics] property, so the handler's
    [urlInfo.analytics || { zeros }] takes the zeros.  The other fields are
    those of the stored link, active or not. *)
Theorem url_info_summary_is_zero code w info summary :
  (url_info_route code w).1 = Ok (Sent (info, summary)) →
  summary = zero_summary ∧
  ∃ doc,
    findOne code (urls w) = Some doc ∧
    ui_shortCode info = shortCode doc ∧
    ui_originalUrl info = originalUrl doc ∧
    ui_createdAt info = createdAt doc ∧
    ui_clicks info = clicks doc ∧
    ui_isActive info = isActive doc.
Proof.
  unfold url_info_route, getUrlInfo, Url_findOne, try_catch, bind, store_call,
    get, ret, throw.
  destruct w as [us evs fs cs n]; simpl.
  destruct (findOne code us) as [doc|] eqn:Hdoc;
    destruct fs as [|[e|] fs]; simpl; rewrite ?Hdoc; simpl;
    intros [= <- <-]; (split; [done|]); by exists doc.
Qed.

(** A link with five recorded clicks. *)
Lemma url_info_summary_is_zero_witness :
  ∃ info summary,
    (url_info_route "promo"
       (mkWorld [mkUrl "promo" "https://example.com" 0 5 true
                       (mkAnalytics 5 2 (Some 4000%Z) [] [])] [] [] [] 0)).1
      = Ok (Sent (info, summary)) ∧
    summary = zero_summary.
Proof.
  do 2 eexists. split; [reflexivity|].
  refine (proj1 (url_info_summary_is_zero "promo"
                   (mkWorld [mkUrl "promo" "https://example.com" 0 5 true
                                   (mkAnalytics 5 2 (Some 4000%Z) [] [])]
                            [] [] [] 0) _ _ _)).
  reflexivity.
Defined.

(** ** [DELETE /api/urls/:shortcode] *)

Lemma findOne_absent code us :
  code ∉ shortCode <$> us → findOne code us = None.
Proof.
  unfold findOne. induction us as [|u us IH]; intros Hnot; [done|].
  rewrite fmap_cons, not_elem_of_cons in Hnot. destruct Hnot as [Hne Hrest].
  simpl.
  destruct (String.eqb_spec (shortCode u) code); [congruence|]. by apply IH.
Qed.

Lemma findOne_delete_first code us :
  NoDup (shortCode <$> us) → findOne code (delete_first code us) = None.
Proof.
  induction us as [|u us IH]; intros Hnd; [done|].
  rewrite fmap_cons in Hnd. apply NoDup_cons in Hnd as [Hu Hnd]. simpl.
  destruct (String.eqb_spec (shortCode u) code) as [<-|Hne].
  - by apply findOne_absent.
  - unfold findOne in *. simpl.
    destruct (String.eqb_spec (shortCode u) code); [done|]. by apply IH.
Qed.

Lemma findOne_delete_first_ne other code us :
  other ≠ code → findOne other (delete_first code us) = findOne other us.
Proof.
  unfold findOne. intros Hne. induction us as [|u us IH]; simpl; [done|].
  destruct (String.eqb_spec (shortCode u) code) as [Hc|Hc]; simpl.
  - destruct (String.eqb_spec (shortCode u) other); [congruence|done].
  - by rewrite IH.
Qed.

Lemma delete_first_length code us doc :
  findOne code us = Some doc → S (length (delete_first code us)) = length us.
Proof.
  unfold findOne. induction us as [|u us IH]; simpl; [done|].
  destruct (String.eqb (shortCode u) code); [done|].
  intros H. simpl. by rewrite IH.
Qed.

(** The delete handler on a store that does not fail. *)
Lemma delete_route_calm code w :
  calm w →
  delete_route code w
  = (match findOne code (urls w) with
     | Some _ => Ok (Sent "URL deleted successfully"%string)
     | None => Ok (NextWith NotFoundError)
     end,
     mkWorld (delete_first code (urls w)) (clickEvents w) (drop 1 (faults w))
             (console w) (urlSaves w)).
Proof.
  intros Hcalm.
  unfold delete_route, deleteUrl, Url_deleteOne, try_catch, bind, store_call,
    get, modify, ret, throw.
  destruct w as [us evs fs cs n]. unfold calm in Hcalm. simpl in *.
  destruct fs as [|f1 fs]; calm_faults Hcalm; simpl;
    by destruct (findOne code us).
Qed.

Lemma delete_first_absent code us :
  findOne code us = None → delete_first code us = us.
Proof.
  unfold findOne. induction us as [|u us IH]; simpl; [done|].
  destruct (String.eqb (shortCode u) code); [done|].
  intros H. by rewrite IH.
Qed.

(** X27.  [DELETE /api/urls/:shortcode] on a store that does not fail.
    An unknown short code gets a [NotFoundError] and nothing is written.
    A known one gets the success message; one document is gone, every other
    link is as it was, and the click events are all still there, those of
    the deleted link included; short codes being unique, the short code is
    unknown from then on. *)
Theorem delete_route_effect code w :
  calm w →
  (findOne code (urls w) = None →
   (delete_route code w).1 = Ok (NextWith NotFoundError) ∧
   same_data w (delete_route code w).2) ∧
  (∀ doc,
     findOne code (urls w) = Some doc →
     (delete_route code w).1 = Ok (Sent "URL deleted successfully"%string) ∧
     S (length (urls (delete_route code w).2)) = length (urls w) ∧
     clickEvents (delete_route code w).2 = clickEvents w ∧
     (∀ other, other ≠ code →
        findOne other (urls (delete_route code w).2) = findOne other (urls w)) ∧
     (NoDup (shortCode <$> urls w) →
      findOne code (urls (delete_route code w).2) = None)).
Proof.
  intros Hcalm. rewrite (delete_route_calm code w Hcalm). simpl. split.
  - intros Hnone. rewrite Hnone. split; [done|].
    unfold same_data. simpl. by rewrite delete_first_absent.
  - intros doc Hdoc. rewrite Hdoc. split; [done|].
    split; [by eapply delete_first_length|]. split; [done|].
    split; [intros other Hne; by apply findOne_delete_first_ne|].
    apply findOne_delete_first.
Qed.

Lemma delete_route_effect_witness :
  (delete_route "promo" promo_world).1
    = Ok (Sent "URL deleted successfully"%string) ∧
  clickEvents (delete_route "promo" promo_world).2 = clickEvents promo_world ∧
  findOne "promo" (urls (delete_route "promo" promo_world).2) = None.
Proof.
  destruct (proj2 (delete_route_effect "promo" promo_world
                     ltac:(constructor))
              (new_Url "promo" "https://example.com" 0) eq_refl)
    as (Hres & _ & Hev & _ & Hgone).
  split; [exact Hres|]. split; [exact Hev|].
  apply Hgone. repeat constructor. by intros ?%elem_of_nil.
Defined.

Section Forgotten.

Variable url_hostname : string → option string.
Variable startOfDay : Z → Z.

Lemma getUrlAnalytics_unknown code options w :
  findOne code (urls w) = None → calm w →
  (getUrlAnalytics startOfDay code options w).1 = Ok None.
Proof.
  intros Hnone Hcalm.
  unfold getUrlAnalytics, bind, Url_findOne, store_call, get, ret.
  destruct w as [us evs fs cs n]. unfold calm in Hcalm. simpl in *.
  destruct fs as [|f1 fs]; calm_faults Hcalm; simpl; by rewrite Hnone.
Qed.

(** X28.  After a delete request (short codes being unique, the store not
    failing) the link's events are still stored, but nothing reaches them:
    [getUrlAnalytics] answers [null] for the short code, for any bounds; a
    later [recordClick] for it stores nothing; and a visit is answered with
    [NotFoundError] and written nowhere. *)
Theorem deleted_link_is_forgotten code w :
  calm w → NoDup (shortCode <$> urls w) →
  events_of code (clickEvents (delete_route code w).2)
    = events_of code (clickEvents w) ∧
  (∀ options,
     (getUrlAnalytics startOfDay code options (delete_route code w).2).1
       = Ok None) ∧
  (∀ now data,
     urls (recordClick url_hostname startOfDay now code data
             (delete_route code w).2).2
       = urls (delete_route code w).2 ∧
     clickEvents (recordClick url_hostname startOfDay now code data
                    (delete_route code w).2).2
       = clickEvents w) ∧
  (∀ now data,
     (visit url_hostname startOfDay now code data (delete_route code w).2).1
       = Ok (NextWith NotFoundError) ∧
     same_data (delete_route code w).2
       (visit url_hostname startOfDay now code data (delete_route code w).2).2).
Proof.
  intros Hcalm Hnd. rewrite (delete_route_calm code w Hcalm). cbn [snd].
  set (w' := mkWorld _ _ _ _ _).
  assert (findOne code (urls w') = None) as Hnone.
  { subst w'. simpl. destruct (findOne code (urls w)) as [doc|] eqn:Hdoc.
    - by apply findOne_delete_first.
    - by rewrite delete_first_absent. }
  assert (calm w') as Hcalm'.
  { subst w'. unfold calm in *. simpl. by apply Forall_drop. }
  split; [done|]. split; [|split].
  - intros options. by apply getUrlAnalytics_unknown.
  - intros now data.
    destruct (recordClick_unknown url_hostname startOfDay now code data w' Hnone)
      as (_ & Hu & Hev & _).
    by rewrite Hu, Hev.
  - intros now data. rewrite visit_unfold.
    destruct (redirect_route_cases code data w')
      as [(e & w1 & -> & Hsame & He)|(doc & w1 & Hdoc & _)].
    + by rewrite (He Hcalm').
    + by rewrite Hnone in Hdoc.
Qed.

End Forgotten.

Lemma deleted_link_is_forgotten_witness :
  events_of "promo" (clickEvents (delete_route "promo" promo_world).2)
    = events_of "promo" (clickEvents promo_world) ∧
  (getUrlAnalytics utc_startOfDay "promo" (mkOptions None None)
     (delete_route "promo" promo_world).2).1 = Ok None.
Proof.
  destruct (deleted_link_is_forgotten plain_hostname utc_startOfDay "promo"
              promo_world) as (Hev & Hquery & _).
  - constructor.
  - repeat constructor. by intros ?%elem_of_nil.
  - split; [exact Hev|apply Hquery].
Defined.

End RoutesSpec.
